(** * A shallow embedding of [bmp.h]: the BMP codec and the drawer

    The C++ classes [BMP] and [bmpDrawer] are embedded as pure functions.

    - Fixed-width integers are [Z] with the wrap-around written out:
      [u32] is the conversion to [uint32_t], [s32] the conversion to
      [int32_t] (two's complement).  Overflow of [int] arithmetic is
      modelled as wrap-around; the theorems that depend on [int] arithmetic
      carry hypotheses under which it does not overflow.  A [uint8_t] is a
      [Z] in [0, 256).
    - [std::vector<uint8_t>] is [list Z]; [operator[]] outside the vector is
      undefined behaviour and is modelled by the absence of a result.
    - Every member function that writes to [std::cerr] returns an [Out]:
      the messages written to [std::cerr], in order, together with the
      result, which is absent when the call runs into undefined behaviour,
      throws, or does not terminate.
    - The packed header structs are read and written through their
      little-endian byte images, as [ifstream::read] / [ofstream::write] on
      the struct's memory do on the usual little-endian hosts. *)

From Stdlib Require Import ZArith Lia String.
From Stdlib Require Import Floats.SpecFloat.
From stdpp Require Import base tactics option list numbers.

Local Open Scope Z_scope.

(** ** Fixed-width integers *)

Definition u32 (z : Z) : Z := z mod 2 ^ 32.
Definition s32 (z : Z) : Z := (z + 2 ^ 31) mod 2 ^ 32 - 2 ^ 31.
Definition u16 (z : Z) : Z := z mod 2 ^ 16.
Definition u8 (z : Z) : Z := z mod 2 ^ 8.

(** [uint32_t] arithmetic *)
Definition add32 (a b : Z) : Z := u32 (a + b).
Definition sub32 (a b : Z) : Z := u32 (a - b).
Definition mul32 (a b : Z) : Z := u32 (a * b).

(** [int32_t] arithmetic (overflow wraps) *)
Definition adds32 (a b : Z) : Z := s32 (a + b).
Definition subs32 (a b : Z) : Z := s32 (a - b).
Definition muls32 (a b : Z) : Z := s32 (a * b).

(** ** Output on [std::cerr] and undefined behaviour *)

Record Out (A : Type) : Type := mkOut { cerr : list string; result : option A }.
Arguments mkOut {A} _ _.
Arguments cerr {A} _.
Arguments result {A} _.

Definition Out_bind {A B : Type} (f : A -> Out B) (m : Out A) : Out B :=
  match result m with
  | None => mkOut (cerr m) None
  | Some a => mkOut (cerr m ++ cerr (f a)) (result (f a))
  end.

#[global] Instance Out_mret : MRet Out := fun A a => mkOut [] (Some a).
#[global] Instance Out_mbind : MBind Out := fun A B f m => Out_bind f m.

(** [std::cerr << s] *)
Definition warn (s : string) : Out unit := mkOut [s] (Some tt).
(** lifting of a computation that prints nothing *)
Definition quiet {A : Type} (o : option A) : Out A := mkOut [] o.
Definition when (c : bool) (m : Out unit) : Out unit := if c then m else mret tt.

(** ** Header structs, [#pragma pack(push, 1)] *)

Record BMPFileHeader : Type := mkFileHeader {
  file_type : Z;      (* uint16_t *)
  file_size : Z;      (* uint32_t *)
  reserved1 : Z;      (* uint16_t *)
  reserved2 : Z;      (* uint16_t *)
  offset_data : Z     (* uint32_t *)
}.

(** The field [size] of the source is [hdr_size] here ([size] is taken). *)
Record BMPInfoHeader : Type := mkInfoHeader {
  hdr_size : Z;            (* uint32_t *)
  width : Z;               (* int32_t *)
  height : Z;              (* int32_t *)
  planes : Z;              (* uint16_t *)
  bit_count : Z;           (* uint16_t *)
  compression : Z;         (* uint32_t *)
  size_image : Z;          (* uint32_t *)
  x_pixels_per_meter : Z;  (* int32_t *)
  y_pixels_per_meter : Z;  (* int32_t *)
  colors_used : Z;         (* uint32_t *)
  colors_important : Z     (* uint32_t *)
}.

Record BMPColorHeader : Type := mkColorHeader {
  red_mask : Z;
  green_mask : Z;
  blue_mask : Z;
  alpha_mask : Z;
  color_space_type : Z;
  unused : list Z          (* uint32_t[16] *)
}.

Definition sizeof_BMPFileHeader : Z := 14.
Definition sizeof_BMPInfoHeader : Z := 40.
Definition sizeof_BMPColorHeader : Z := 84.

(** Default member initialisers *)
Definition BMPFileHeader_init : BMPFileHeader := mkFileHeader 0x4D42 0 0 0 0.
Definition BMPInfoHeader_init : BMPInfoHeader := mkInfoHeader 0 0 0 1 0 0 0 0 0 0 0.
Definition BMPColorHeader_init : BMPColorHeader :=
  mkColorHeader 0x00ff0000 0x0000ff00 0x000000ff 0xff000000 0x73524742 (replicate 16 0).

(** ** Point, Color, pixel *)

Record Point : Type := mkPoint { px : Z; py : Z }.

Definition Point_eqb (p1 p2 : Point) : bool := (px p1 =? px p2) && (py p1 =? py p2).

Record Color : Type := mkColor { r : Z; g : Z; b : Z; alpha : Z }.

(** [Color(r, g, b)] with the default [alpha = 255] *)
Definition Color3 (r g b : Z) : Color := mkColor r g b 255.

Record pixel : Type := mkPixel { pixel_x : Z; pixel_y : Z; color : Color }.

(** ** class BMP *)

Record BMP : Type := mkBMP {
  file_header : BMPFileHeader;
  bmp_info_header : BMPInfoHeader;
  bmp_color_header : BMPColorHeader;
  data : list Z;
  channels : Z;       (* uint32_t, no initialiser *)
  row_stride : Z      (* uint32_t, initialised to 0 *)
}.

(** The object before a constructor body runs; [junk] is the indeterminate
    value of the uninitialised member [channels]. *)
Definition BMP_init (junk : Z) : BMP :=
  mkBMP BMPFileHeader_init BMPInfoHeader_init BMPColorHeader_init [] junk 0.

Definition set_data (self : BMP) (d : list Z) : BMP :=
  mkBMP (file_header self) (bmp_info_header self) (bmp_color_header self)
        d (channels self) (row_stride self).

Definition BMP_width (self : BMP) : Z := width (bmp_info_header self).
Definition BMP_height (self : BMP) : Z := height (bmp_info_header self).
Definition Channels (self : BMP) : Z := channels self.

(** [data[i]] as an rvalue and [data[i] = v], for [i] a [uint32_t] *)
Definition vget (d : list Z) (i : Z) : option Z := d !! Z.to_nat i.
Definition vset (d : list Z) (i : Z) (v : Z) : option (list Z) :=
  if decide (Z.to_nat i < length d)%nat then Some (<[Z.to_nat i := v]> d) else None.

(** [while (new_stride % align_stride != 0) new_stride++] *)
Fixpoint make_stride_aligned_loop (fuel : nat) (align_stride new_stride : Z) : option Z :=
  if new_stride mod align_stride =? 0 then Some new_stride
  else match fuel with
       | O => None
       | S fuel' => make_stride_aligned_loop fuel' align_stride (add32 new_stride 1)
       end.

Definition make_stride_aligned (row_stride align_stride : Z) : option Z :=
  make_stride_aligned_loop (Z.to_nat align_stride) align_stride row_stride.

(** The bounds test of [getPixel] and [setPixel]; [x] and [y] are
    [uint32_t], so [x < 0] and [y < 0] are never true. *)
Definition outside (self : BMP) (x y : Z) : bool :=
  (x <? 0) || (x >? u32 (BMP_width self)) || (y <? 0) || (y >? u32 (BMP_height self)).

(** [channels * (y * bmp_info_header.width + x)] in [uint32_t] *)
Definition pixel_pos (self : BMP) (x y : Z) : Z :=
  mul32 (channels self) (add32 (mul32 y (u32 (BMP_width self))) x).

Definition getPixel (self : BMP) (x y : Z) : Out Color :=
  _ ← when (outside self x y) (warn "setPixel error: Pixel is outside!\n");
  let pos := pixel_pos self x y in
  quiet (
    cr ← vget (data self) (add32 pos 2);
    cg ← vget (data self) (add32 pos 1);
    cb ← vget (data self) (add32 pos 0);
    let c := Color3 cr cg cb in
    if channels self =? 4 then
      ca ← vget (data self) (add32 pos 3);
      Some (mkColor (r c) (g c) (b c) ca)
    else Some c).

Definition setPixel (self : BMP) (x y : Z) (c : Color) : Out BMP :=
  _ ← when (outside self x y) (warn "setPixel error: Pixel is outside!\n");
  let pos := pixel_pos self x y in
  quiet (
    d ← vset (data self) (add32 pos 0) (b c);
    d ← vset d (add32 pos 1) (g c);
    d ← vset d (add32 pos 2) (r c);
    d ← (if channels self =? 4 then vset d (add32 pos 3) (alpha c) else Some d);
    Some (set_data self d)).

Definition clear (self : BMP) (c : Z) : BMP :=
  set_data self (replicate (length (data self)) c).

Definition CopyFrom (self image : BMP) : Out BMP :=
  if (channels image =? channels self) && (BMP_height image =? BMP_height self)
     && (BMP_width image =? BMP_width self)
  then mret (set_data self (data image))
  else _ ← warn "CopyFrom error!\n"; mret self.

(** ** Construction from dimensions: [BMP(int32_t width, int32_t height, bool has_alpha)] *)

Definition BMP_new (width height : Z) (has_alpha : bool) : Out BMP :=
  _ ← when ((width <=? 0) || (height <=? 0))
           (warn "The image width and height must be positive numbers.\n");
  if has_alpha then
    let offset := sizeof_BMPFileHeader + sizeof_BMPInfoHeader + sizeof_BMPColorHeader in
    let stride := u32 (muls32 width 4) in
    let d := resize (Z.to_nat (mul32 stride (u32 height))) 0 [] in
    mret (mkBMP
      (mkFileHeader 0x4D42 (u32 (offset + Z.of_nat (length d))) 0 0 offset)
      (mkInfoHeader (sizeof_BMPInfoHeader + sizeof_BMPColorHeader) width height 1 32 3 0 0 0 0 0)
      BMPColorHeader_init d (32 / 8) stride)
  else
    let offset := sizeof_BMPFileHeader + sizeof_BMPInfoHeader in
    let stride := u32 (muls32 width 3) in
    let d := resize (Z.to_nat (mul32 stride (u32 height))) 0 [] in
    quiet (
      new_stride ← make_stride_aligned stride 4;
      Some (mkBMP
        (mkFileHeader 0x4D42
           (u32 (offset + Z.of_nat (length d) + mul32 (u32 height) (sub32 new_stride stride)))
           0 0 offset)
        (mkInfoHeader sizeof_BMPInfoHeader width height 1 24 0 0 0 0 0 0)
        BMPColorHeader_init d (24 / 8) stride)).

(** ** Loops over a mutable buffer *)

Fixpoint for_each {A S : Type} (l : list A) (body : A → S → option S) (s : S) : option S :=
  match l with
  | [] => Some s
  | a :: l' => s' ← body a s; for_each l' body s'
  end.

(** ** Effects *)

(** The body shared by the inner loops of [FlipX] and [FlipY]: exchange the
    pixels stored at [pos1] and [pos2]. *)
Definition exchange (ch : Z) (pos1 pos2 : Z) (d : list Z) : option (list Z) :=
  aux_r ← vget d (add32 pos1 2);
  aux_g ← vget d (add32 pos1 1);
  aux_b ← vget d (add32 pos1 0);
  v ← vget d (add32 pos2 0); d ← vset d (add32 pos1 0) v;
  v ← vget d (add32 pos2 1); d ← vset d (add32 pos1 1) v;
  v ← vget d (add32 pos2 2); d ← vset d (add32 pos1 2) v;
  d ← vset d (add32 pos2 0) aux_b;
  d ← vset d (add32 pos2 1) aux_g;
  d ← vset d (add32 pos2 2) aux_r;
  if ch =? 4 then
    aux_alpha ← vget d (add32 pos1 3);
    v ← vget d (add32 pos2 3); d ← vset d (add32 pos1 3) v;
    vset d (add32 pos2 3) aux_alpha
  else Some d.

Definition FlipX_pos2 (self : BMP) (x y : Z) : Z :=
  let w := u32 (BMP_width self) in
  mul32 (channels self) (sub32 (sub32 (add32 (mul32 y w) w) 1) x).

Definition FlipX (self : BMP) : option BMP :=
  d ← for_each (seqZ 0 (u32 (BMP_height self))) (λ y,
         for_each (seqZ 0 (u32 (BMP_width self) / 2)) (λ x,
           exchange (channels self) (pixel_pos self x y) (FlipX_pos2 self x y)))
       (data self);
  Some (set_data self d).

Definition FlipY_pos2 (self : BMP) (x y : Z) : Z :=
  let w := u32 (BMP_width self) in
  mul32 (channels self)
        (add32 (mul32 (sub32 (u32 (subs32 (BMP_height self) 1)) y) w) x).

Definition FlipY (self : BMP) : option BMP :=
  d ← for_each (seqZ 0 (u32 (BMP_width self))) (λ x,
         for_each (seqZ 0 (u32 (BMP_height self) / 2)) (λ y,
           exchange (channels self) (pixel_pos self x y) (FlipY_pos2 self x y)))
       (data self);
  Some (set_data self d).

(** *** [float] arithmetic (IEEE 754 binary32) *)

Definition float : Type := spec_float.
Definition f32_prec : Z := 24.
Definition f32_emax : Z := 128.
Definition f32_of_int (z : Z) : float := binary_normalize f32_prec f32_emax z 0 false.
Definition f32_add : float → float → float := SFadd f32_prec f32_emax.
Definition f32_mul : float → float → float := SFmul f32_prec f32_emax.
Definition f32_gt (x y : float) : bool := SFltb y x.

(** Conversion of a [float] to [uint8_t]: the value is truncated towards
    zero; the behaviour is undefined when the truncated value does not fit. *)
Definition f32_trunc (f : float) : option Z :=
  match f with
  | S754_zero _ => Some 0
  | S754_finite s m e => Some (cond_Zopp s (Z.shiftl (Z.pos m) e))
  | _ => None
  end.

Definition f32_to_u8 (f : float) : option Z :=
  v ← f32_trunc f;
  if (0 <=? v) && (v <=? 255) then Some v else None.

Definition BlackWhite_pixel (pos : Z) (r g b : float) (d : list Z) : option (list Z) :=
  d0 ← vget d (add32 pos 0);
  d1 ← vget d (add32 pos 1);
  d2 ← vget d (add32 pos 2);
  grey ← f32_to_u8 (f32_add (f32_add (f32_mul (f32_of_int d0) b) (f32_mul (f32_of_int d1) g))
                            (f32_mul (f32_of_int d2) r));
  d ← vset d (add32 pos 0) grey;
  d ← vset d (add32 pos 1) grey;
  vset d (add32 pos 2) grey.

Definition BlackWhite (self : BMP) (r g b : float) : Out BMP :=
  _ ← when (f32_gt (f32_add (f32_add r g) b) (f32_of_int 1))
           (warn "BlackWhite error: Invalid grey scale\n");
  quiet (
    d ← for_each (seqZ 0 (u32 (BMP_height self))) (λ y,
           for_each (seqZ 0 (u32 (BMP_width self))) (λ x,
             BlackWhite_pixel (pixel_pos self x y) r g b))
         (data self);
    Some (set_data self d)).

(** ** class bmpDrawer

    The drawer never reads the image: a primitive is the sequence of its
    [drawPixel] calls, a function of the primitive's arguments alone, which
    are performed in order on the image. *)

#[global] Instance Point_eq_dec : EqDecision Point.
Proof. solve_decision. Defined.

Definition drawPixel (image : BMP) (x y : Z) (c : Color) : Out BMP := setPixel image x y c.

Fixpoint draw_all (image : BMP) (c : Color) (calls : list Point) : Out BMP :=
  match calls with
  | [] => mret image
  | p :: calls' => image' ← drawPixel image (px p) (py p) c; draw_all image' c calls'
  end.

(** [while (e >= 0) { y1 += sy; e -= (dx << 1); }]; the result is [(y1, e)] *)
Fixpoint drawLine_while (fuel : nat) (dx sy y1 e : Z) : option (Z * Z) :=
  if e >=? 0 then
    match fuel with
    | O => None
    | S fuel' => drawLine_while fuel' dx sy (adds32 y1 sy) (subs32 e (muls32 dx 2))
    end
  else Some (y1, e).

(** [for (int32_t i = 0; i < dx; ++i) { ... }], with [n] iterations left *)
Fixpoint drawLine_for (n : nat) (steep : bool) (dx dy sx sy x1 y1 e : Z) : option (list Point) :=
  match n with
  | O => Some []
  | S n' =>
    let p := if steep then mkPoint (u32 y1) (u32 x1) else mkPoint (u32 x1) (u32 y1) in
    '(y1', e') ← drawLine_while (S (Z.to_nat e)) dx sy y1 e;
    rest ← drawLine_for n' steep dx dy sx sy (adds32 x1 sx) y1' (adds32 e' (muls32 dy 2));
    Some (p :: rest)
  end.

(** The [drawPixel] calls of [drawLine(x1, y1, x2, y2, c)], in order; the
    arguments are [int32_t], the coordinates passed on are [uint32_t]. *)
Definition drawLine_calls (x1 y1 x2 y2 : Z) : option (list Point) :=
  if (x1 =? x2) && (y1 =? y2) then Some [mkPoint (u32 x1) (u32 y1)]
  else if y1 =? y2 then
    let '(x1, x2) := if x1 >? x2 then (x2, x1) else (x1, x2) in
    Some ((λ i, mkPoint (u32 (adds32 x1 i)) (u32 y1)) <$> seqZ 0 (subs32 x2 x1))
  else if x1 =? x2 then
    let '(y1, y2) := if y1 >? y2 then (y2, y1) else (y1, y2) in
    Some ((λ i, mkPoint (u32 x1) (u32 (adds32 y1 i))) <$> seqZ 0 (subs32 y2 y1))
  else
    let sx := if subs32 x2 x1 >? 0 then 1 else -1 in
    let sy := if subs32 y2 y1 >? 0 then 1 else -1 in
    let dx := s32 (Z.abs (subs32 x2 x1)) in
    let dy := s32 (Z.abs (subs32 y2 y1)) in
    let '(steep, x1', y1', dx, dy, sx, sy) :=
      if dy >? dx then (true, y1, x1, dy, dx, sy, sx) else (false, x1, y1, dx, dy, sx, sy) in
    let e := subs32 (muls32 2 dy) dx in
    loop ← drawLine_for (Z.to_nat dx) steep dx dy sx sy x1' y1' e;
    Some (loop ++ [mkPoint (u32 x2) (u32 y2)]).

Definition drawLine (image : BMP) (x1 y1 x2 y2 : Z) (c : Color) : Out BMP :=
  match drawLine_calls x1 y1 x2 y2 with
  | Some calls => draw_all image c calls
  | None => quiet None
  end.

(** [drawTriangle] takes [uint32_t] coordinates and passes them as [int32_t]. *)
Definition drawTriangle (image : BMP) (x1 y1 x2 y2 x3 y3 : Z) (c : Color) : Out BMP :=
  image ← drawLine image (s32 x1) (s32 y1) (s32 x2) (s32 y2) c;
  image ← drawLine image (s32 x2) (s32 y2) (s32 x3) (s32 y3) c;
  drawLine image (s32 x3) (s32 y3) (s32 x1) (s32 y1) c.

(** [while (radius >= 0) { ... }] of [drawCircle]: the [drawPixel] calls, in
    order.  [x_center + x] and the like are computed in [uint32_t]; the
    shifts of [int] values are multiplications by 2. *)
Fixpoint drawCircle_while (fuel : nat) (x_center y_center x d radius : Z)
  : option (list Point) :=
  if radius >=? 0 then
    match fuel with
    | O => None
    | S fuel' =>
      let calls :=
        [mkPoint (add32 x_center (u32 x)) (add32 y_center (u32 radius));
         mkPoint (add32 x_center (u32 x)) (sub32 y_center (u32 radius));
         mkPoint (sub32 x_center (u32 x)) (add32 y_center (u32 radius));
         mkPoint (sub32 x_center (u32 x)) (sub32 y_center (u32 radius))] in
      let '(radius, d) :=
        if adds32 d radius >? 0
        then let radius := subs32 radius 1 in
             (radius, subs32 d (subs32 (muls32 radius 2) 1))
        else (radius, d) in
      let '(x, d) :=
        if x >? d
        then let x := adds32 x 1 in (x, adds32 d (adds32 (muls32 x 2) 1))
        else (x, d) in
      rest ← drawCircle_while fuel' x_center y_center x d radius;
      Some (calls ++ rest)
    end
  else Some [].

(** The calls of [drawCircle(x_center, y_center, radius, c)]; every
    iteration of the loop decrements [radius] or increments [x], which
    [radius] bounds, so that [2 * radius + 2] iterations are enough. *)
Definition drawCircle_calls (x_center y_center radius : Z) : option (list Point) :=
  drawCircle_while (Z.to_nat (2 * radius + 2)) x_center y_center
    0 (muls32 (subs32 1 radius) 2) radius.

Definition drawCircle (image : BMP) (x_center y_center radius : Z) (c : Color) : Out BMP :=
  match drawCircle_calls x_center y_center radius with
  | Some calls => draw_all image c calls
  | None => quiet None
  end.

(** [for (yy = y; yy < y + h; ++yy) for (xx = x; xx < x + w; ++xx)] *)
Definition region_calls (x y w h : Z) : list Point :=
  yy ← seqZ y (add32 y h - y);
  xx ← seqZ x (add32 x w - x);
  [mkPoint xx yy].

Definition drawRegion (image : BMP) (x y w h : Z) (c : Color) : Out BMP :=
  draw_all image c (region_calls x y w h).

Definition erasePixel (image : BMP) (x y : Z) : Out BMP :=
  _ ← when (negb (Channels image =? 4)) (warn "erasePixel error: only for 32 bits/pixel\n");
  drawPixel image x y (mkColor 0 0 0 0).

Definition eraseRegion (image : BMP) (x y w h : Z) : Out BMP :=
  _ ← when (negb (Channels image =? 4)) (warn "erasePixel error: only for 32 bits/pixel\n");
  draw_all image (mkColor 0 0 0 0) (region_calls x y w h).

(** ** Byte images of the packed structs (little-endian) *)

Fixpoint le_bytes (n : nat) (z : Z) : list Z :=
  match n with
  | O => []
  | S n' => z mod 256 :: le_bytes n' (z / 256)
  end.

Definition le_value (l : list Z) : Z := foldr (λ byte acc, byte + 256 * acc) 0 l.

(** The field of [n] bytes at offset [off] of a byte image *)
Definition field (off n : nat) (l : list Z) : Z := le_value (take n (drop off l)).

Definition BMPFileHeader_bytes (h : BMPFileHeader) : list Z :=
  le_bytes 2 (file_type h) ++ le_bytes 4 (file_size h) ++ le_bytes 2 (reserved1 h)
  ++ le_bytes 2 (reserved2 h) ++ le_bytes 4 (offset_data h).

Definition BMPFileHeader_of_bytes (l : list Z) : BMPFileHeader :=
  mkFileHeader (field 0 2 l) (field 2 4 l) (field 6 2 l) (field 8 2 l) (field 10 4 l).

Definition BMPInfoHeader_bytes (h : BMPInfoHeader) : list Z :=
  le_bytes 4 (hdr_size h) ++ le_bytes 4 (width h) ++ le_bytes 4 (height h)
  ++ le_bytes 2 (planes h) ++ le_bytes 2 (bit_count h) ++ le_bytes 4 (compression h)
  ++ le_bytes 4 (size_image h) ++ le_bytes 4 (x_pixels_per_meter h)
  ++ le_bytes 4 (y_pixels_per_meter h) ++ le_bytes 4 (colors_used h)
  ++ le_bytes 4 (colors_important h).

Definition BMPInfoHeader_of_bytes (l : list Z) : BMPInfoHeader :=
  mkInfoHeader (field 0 4 l) (s32 (field 4 4 l)) (s32 (field 8 4 l))
    (field 12 2 l) (field 14 2 l) (field 16 4 l) (field 20 4 l)
    (s32 (field 24 4 l)) (s32 (field 28 4 l)) (field 32 4 l) (field 36 4 l).

Definition BMPColorHeader_bytes (h : BMPColorHeader) : list Z :=
  le_bytes 4 (red_mask h) ++ le_bytes 4 (green_mask h) ++ le_bytes 4 (blue_mask h)
  ++ le_bytes 4 (alpha_mask h) ++ le_bytes 4 (color_space_type h)
  ++ (unused h ≫= le_bytes 4).

Definition BMPColorHeader_of_bytes (l : list Z) : BMPColorHeader :=
  mkColorHeader (field 0 4 l) (field 4 4 l) (field 8 4 l) (field 12 4 l) (field 16 4 l)
    ((λ i, field (20 + 4 * i) 4 l) <$> seq 0 16).

(** ** File streams *)

(** [std::ifstream]: the bytes of the file, the get position, and whether
    the stream is still good ([false] once [failbit] is set; a stream that
    could not be opened starts that way). *)
Record ifstream : Type := mkIfstream { content : list Z; gpos : nat; good : bool }.

Definition open_in (bytes : list Z) : ifstream := mkIfstream bytes 0 true.

(** [inp.read(dst, n)]: the bytes obtained and the stream afterwards; a short
    read sets [eofbit | failbit], a failed stream reads nothing. *)
Definition stream_read (inp : ifstream) (n : nat) : list Z * ifstream :=
  if good inp then
    let got := take n (drop (gpos inp) (content inp)) in
    (got, mkIfstream (content inp) (gpos inp + length got) (bool_decide (length got = n)))
  else ([], inp).

(** [inp.seekg(off, inp.beg)] *)
Definition seekg (inp : ifstream) (off : Z) : ifstream :=
  if good inp then mkIfstream (content inp) (Z.to_nat off) true else inp.

(** The bytes [got] stored over the beginning of the object [old] *)
Definition overlay (got old : list Z) : list Z := got ++ drop (length got) old.

(** The bytes [got] of a read of [n] bytes stored at [data.data() + off] *)
Definition store_at (d : list Z) (off n : nat) (got : list Z) : option (list Z) :=
  if decide (off + n ≤ length d)%nat
  then Some (take off d ++ overlay got (drop off d))
  else None.

(** [std::ofstream]: whether it was opened, and the bytes written so far. *)
Record ofstream : Type := mkOfstream { is_open : bool; written : list Z }.

Definition open_out (opened : bool) : ofstream := mkOfstream opened [].

Definition stream_write (ofs : ofstream) (bytes : list Z) : ofstream :=
  if is_open ofs then mkOfstream true (written ofs ++ bytes) else ofs.

(** ** Reading and writing a BMP *)

Definition check_color_header (h : BMPColorHeader) : Out unit :=
  let expected_color_header := BMPColorHeader_init in
  _ ← when (negb (red_mask expected_color_header =? red_mask h)
            || negb (blue_mask expected_color_header =? blue_mask h)
            || negb (green_mask expected_color_header =? green_mask h)
            || negb (alpha_mask expected_color_header =? alpha_mask h))
      (warn "Unexpected color mask format! The program expects the pixel data to be in the BGRA format\n");
  when (negb (color_space_type expected_color_header =? color_space_type h))
      (warn "Unexpected color space type! The program expects sRGB values\n").

(** The rows of the padded branch of [read]:
    [for (int y = 0; y < height; ++y)] reads a row and its padding. *)
Fixpoint read_rows (ys : list Z) (stride padding : Z) (inp : ifstream) (d : list Z)
  : option (list Z * ifstream) :=
  match ys with
  | [] => Some (d, inp)
  | y :: ys' =>
    let '(row, inp) := stream_read inp (Z.to_nat stride) in
    d ← store_at d (Z.to_nat (mul32 stride (u32 y))) (Z.to_nat stride) row;
    let '(_, inp) := stream_read inp (Z.to_nat padding) in
    read_rows ys' stride padding inp d
  end.

(** [data.resize(n)] for an [int] expression [n]: a negative [n] converts to
    a [size_t] beyond [max_size()], and [resize] throws. *)
Definition resize_int (n : Z) (d : list Z) : option (list Z) :=
  if n <? 0 then None else Some (resize (Z.to_nat n) 0 d).

(** [read]; the message about the missing bit masks is given without the
    quoted file name. *)
Definition read (self : BMP) (inp : ifstream) : Out BMP :=
  if good inp then
    let '(got, inp) := stream_read inp (Z.to_nat sizeof_BMPFileHeader) in
    let fh := BMPFileHeader_of_bytes (overlay got (BMPFileHeader_bytes (file_header self))) in
    _ ← when (negb (file_type fh =? 0x4D42)) (warn "Error! Unrecognized file format.\n");
    let '(got, inp) := stream_read inp (Z.to_nat sizeof_BMPInfoHeader) in
    let ih := BMPInfoHeader_of_bytes (overlay got (BMPInfoHeader_bytes (bmp_info_header self))) in
    '(ch, inp) ←
      (if bit_count ih =? 32 then
         if hdr_size ih >=? sizeof_BMPInfoHeader + sizeof_BMPColorHeader then
           let '(got, inp) := stream_read inp (Z.to_nat sizeof_BMPColorHeader) in
           let ch := BMPColorHeader_of_bytes
                       (overlay got (BMPColorHeader_bytes (bmp_color_header self))) in
           _ ← check_color_header ch;
           mret (ch, inp)
         else
           _ ← warn "Error! The file does not seem to contain bit mask information\n";
           _ ← warn "Error! Unrecognized file format.\n";
           mret (bmp_color_header self, inp)
       else mret (bmp_color_header self, inp));
    let inp := seekg inp (offset_data fh) in
    let '(size, offset) :=
      if bit_count ih =? 32
      then (sizeof_BMPInfoHeader + sizeof_BMPColorHeader,
            sizeof_BMPFileHeader + sizeof_BMPInfoHeader + sizeof_BMPColorHeader)
      else (sizeof_BMPInfoHeader, sizeof_BMPFileHeader + sizeof_BMPInfoHeader) in
    let ih := mkInfoHeader size (width ih) (height ih) (planes ih) (bit_count ih)
                (compression ih) (size_image ih) (x_pixels_per_meter ih)
                (y_pixels_per_meter ih) (colors_used ih) (colors_important ih) in
    _ ← when (height ih <? 0)
          (warn "The program can treat only BMP images with the origin in the bottom left corner!\n");
    d ← quiet (resize_int (muls32 (muls32 (width ih) (height ih)) (bit_count ih) `quot` 8)
                          (data self));
    let len := Z.of_nat (length d) in
    if width ih `rem` 4 =? 0 then
      let '(got, inp) := stream_read inp (length d) in
      mret (mkBMP (mkFileHeader (file_type fh) (u32 (offset + len))
                                (reserved1 fh) (reserved2 fh) offset)
                  ih ch (overlay got d) (bit_count ih `quot` 8) (row_stride self))
    else
      let stride := u32 (muls32 (width ih) (bit_count ih) `quot` 8) in
      quiet (
        new_stride ← make_stride_aligned stride 4;
        let padding := sub32 new_stride stride in
        '(d, inp) ← read_rows (seqZ 0 (height ih)) stride padding inp d;
        Some (mkBMP (mkFileHeader (file_type fh) (u32 (offset + (len + height ih * padding)))
                                  (reserved1 fh) (reserved2 fh) offset)
                    ih ch d (bit_count ih `quot` 8) stride))
  else
    _ ← warn "Unable to open the input image file.\n";
    mret self.

(** [BMP(const char *fname)] *)
Definition BMP_open (junk : Z) (inp : ifstream) : Out BMP := read (BMP_init junk) inp.

Definition write_headers (self : BMP) (ofs : ofstream) : ofstream :=
  let ofs := stream_write ofs (BMPFileHeader_bytes (file_header self)) in
  let ofs := stream_write ofs (BMPInfoHeader_bytes (bmp_info_header self)) in
  if bit_count (bmp_info_header self) =? 32
  then stream_write ofs (BMPColorHeader_bytes (bmp_color_header self))
  else ofs.

Definition write_headers_and_data (self : BMP) (ofs : ofstream) : ofstream :=
  stream_write (write_headers self ofs) (data self).

(** [of.write(data.data() + off, n)] reads the vector; outside it the
    behaviour is undefined. *)
Definition load_at (d : list Z) (off n : nat) : option (list Z) :=
  if decide (off + n ≤ length d)%nat then Some (take n (drop off d)) else None.

Fixpoint write_rows (ys : list Z) (self : BMP) (padding : Z) (ofs : ofstream) : option ofstream :=
  match ys with
  | [] => Some ofs
  | y :: ys' =>
    row ← load_at (data self) (Z.to_nat (mul32 (row_stride self) (u32 y)))
                  (Z.to_nat (row_stride self));
    let ofs := stream_write ofs row in
    let ofs := stream_write ofs (replicate (Z.to_nat padding) 0) in
    write_rows ys' self padding ofs
  end.

Definition write (self : BMP) (ofs : ofstream) : Out ofstream :=
  if is_open ofs then
    if bit_count (bmp_info_header self) =? 32 then
      mret (write_headers_and_data self ofs)
    else if bit_count (bmp_info_header self) =? 24 then
      if BMP_width self `rem` 4 =? 0 then
        mret (write_headers_and_data self ofs)
      else
        quiet (
          new_stride ← make_stride_aligned (row_stride self) 4;
          let padding := sub32 new_stride (row_stride self) in
          write_rows (seqZ 0 (BMP_height self)) self padding (write_headers self ofs))
    else
      _ ← warn "The program can treat only 24 or 32 bits per pixel BMP files\n";
      mret ofs
  else
    _ ← warn "Unable to open the output image file.\n";
    mret ofs.

(** The file produced by [write] on a freshly opened stream, and the image
    obtained by constructing a [BMP] from those bytes. *)
Definition Encode (image : BMP) : Out (list Z) :=
  ofs ← write image (open_out true); mret (written ofs).

Definition Decode (junk : Z) (bytes : list Z) : Out BMP := BMP_open junk (open_in bytes).

(** The part of [read] that follows the headers, from the jump to the pixel
    data on, for the headers [fh], [ih] and [ch] obtained so far. *)
Definition read_data (self : BMP) (fh : BMPFileHeader) (ih : BMPInfoHeader)
    (ch : BMPColorHeader) (inp : ifstream) : Out BMP :=
  let inp := seekg inp (offset_data fh) in
  let '(size, offset) :=
    if bit_count ih =? 32
    then (sizeof_BMPInfoHeader + sizeof_BMPColorHeader,
          sizeof_BMPFileHeader + sizeof_BMPInfoHeader + sizeof_BMPColorHeader)
    else (sizeof_BMPInfoHeader, sizeof_BMPFileHeader + sizeof_BMPInfoHeader) in
  let ih := mkInfoHeader size (width ih) (height ih) (planes ih) (bit_count ih)
              (compression ih) (size_image ih) (x_pixels_per_meter ih)
              (y_pixels_per_meter ih) (colors_used ih) (colors_important ih) in
  _ ← when (height ih <? 0)
        (warn "The program can treat only BMP images with the origin in the bottom left corner!\n");
  d ← quiet (resize_int (muls32 (muls32 (width ih) (height ih)) (bit_count ih) `quot` 8)
                        (data self));
  let len := Z.of_nat (length d) in
  if width ih `rem` 4 =? 0 then
    let '(got, inp) := stream_read inp (length d) in
    mret (mkBMP (mkFileHeader (file_type fh) (u32 (offset + len))
                              (reserved1 fh) (reserved2 fh) offset)
                ih ch (overlay got d) (bit_count ih `quot` 8) (row_stride self))
  else
    let stride := u32 (muls32 (width ih) (bit_count ih) `quot` 8) in
    quiet (
      new_stride ← make_stride_aligned stride 4;
      let padding := sub32 new_stride stride in
      '(d, inp) ← read_rows (seqZ 0 (height ih)) stride padding inp d;
      Some (mkBMP (mkFileHeader (file_type fh) (u32 (offset + (len + height ih * padding)))
                                (reserved1 fh) (reserved2 fh) offset)
                  ih ch d (bit_count ih `quot` 8) stride)).

(** ** Invariants of an image

    [layout_ok]: the buffer holds [width * height * channels] bytes, with 3 or
    4 channels and positive dimensions; every buffer size of the source is a
    [uint32_t] or an [int]. *)
Definition layout_ok (self : BMP) : Prop :=
  (channels self = 3 ∨ channels self = 4)
  ∧ 0 < BMP_width self ∧ 0 < BMP_height self
  ∧ BMP_width self * BMP_height self * channels self < 2 ^ 32
  ∧ Z.of_nat (length (data self)) = BMP_width self * BMP_height self * channels self.

(** What [getPixel] reads back for a pixel stored by [setPixel(x, y, c)]:
    the alpha byte only exists with 4 channels. *)
Definition stored (self : BMP) (c : Color) : Color :=
  mkColor (r c) (g c) (b c) (if channels self =? 4 then alpha c else 255).

(** The buffer after the stores of [setPixel] at byte offset [pos], and the
    colour [getPixel] assembles from the bytes at [pos], when all the
    indices are inside the buffer. *)
Definition put_pixel (ch : Z) (pos : nat) (c : Color) (d : list Z) : list Z :=
  let d := <[(pos + 2)%nat := r c]> (<[(pos + 1)%nat := g c]> (<[pos := b c]> d)) in
  if ch =? 4 then <[(pos + 3)%nat := alpha c]> d else d.

Definition fetch_pixel (ch : Z) (pos : nat) (d : list Z) : option Color :=
  cr ← d !! (pos + 2)%nat;
  cg ← d !! (pos + 1)%nat;
  cb ← d !! pos;
  if ch =? 4 then ca ← d !! (pos + 3)%nat; Some (mkColor cr cg cb ca)
  else Some (Color3 cr cg cb).

(** A point of the image: [x < width] and [y < height] *)
Definition inside (self : BMP) (p : Point) : Prop :=
  0 <= px p < BMP_width self ∧ 0 <= py p < BMP_height self.

(** The pixel [getPixel(x, y)] finds in the buffer [d] of [self] *)
Definition pixel_of (self : BMP) (d : list Z) (p : Point) : option Color :=
  fetch_pixel (channels self) (Z.to_nat (pixel_pos self (px p) (py p))) d.

(** An axis-aligned line: along the row [k] from column [a] to column [b]
    when [horizontal], along the column [k] from row [a] to row [b]
    otherwise.  [axis_point] is the point at position [t] of the line,
    [on_segment] the half-open segment between [a] and [b]. *)
Definition axis_point (horizontal : bool) (k t : Z) : Point :=
  if horizontal then mkPoint t k else mkPoint k t.

Definition axis_line (self : BMP) (horizontal : bool) (a b k : Z) (c : Color) : Out BMP :=
  if horizontal then drawLine self a k b k c else drawLine self k a k b c.

Definition axis_calls (horizontal : bool) (a b k : Z) : option (list Point) :=
  if horizontal then drawLine_calls a k b k else drawLine_calls k a k b.

Definition on_segment (horizontal : bool) (a b k : Z) (q : Point) : Prop :=
  ∃ t, q = axis_point horizontal k t ∧ a `min` b <= t < a `max` b.

(** The extent of the image along the line and across it *)
Definition along (self : BMP) (horizontal : bool) : Z :=
  if horizontal then BMP_width self else BMP_height self.
Definition across (self : BMP) (horizontal : bool) : Z :=
  if horizontal then BMP_height self else BMP_width self.

(** The coordinate of a point along the axis [drawLine] iterates on: [y]
    for a steep line, [x] otherwise. *)
Definition major (steep : bool) (p : Point) : Z := if steep then py p else px p.

(** Where the byte at index [i] comes from when the blocks of [ch] bytes at
    [p1] and [p2] are exchanged *)
Definition swap_index (ch p1 p2 i : nat) : nat :=
  if decide (p1 ≤ i < p1 + ch)%nat then (i - p1 + p2)%nat
  else if decide (p2 ≤ i < p2 + ch)%nat then (i - p2 + p1)%nat
  else i.

(** [q] lies in the bounding box of the points [ps] *)
Definition in_box (ps : list Point) (q : Point) : Prop :=
  (∃ p, p ∈ ps ∧ px p <= px q) ∧ (∃ p, p ∈ ps ∧ px q <= px p)
  ∧ (∃ p, p ∈ ps ∧ py p <= py q) ∧ (∃ p, p ∈ ps ∧ py q <= py p).

(** A point near the circle of radius [radius] around the centre: with
    [dx] and [dy] its distances from the centre along the axes,
    [dx * dx + dy * dy - radius * radius] lies between [-(2 dx + dy + 1)] and [dx + 2 dy]. *)
Definition near_circle (x_center y_center radius : Z) (p : Point) : Prop :=
  let dx := Z.abs (px p - x_center) in
  let dy := Z.abs (py p - y_center) in
  dx <= radius ∧ dy <= radius
  ∧ - (2 * dx + dy + 1) <= dx * dx + dy * dy - radius * radius <= dx + 2 * dy.

(** The grey level [BlackWhite(r, g, b)] computes for a pixel of colour [c]:
    [blue * b + green * g + red * r] in [float], converted to [uint8_t]. *)
Definition grey_level (wr wg wb : float) (c : Color) : option Z :=
  f32_to_u8 (f32_add (f32_add (f32_mul (f32_of_int (b c)) wb) (f32_mul (f32_of_int (g c)) wg))
                     (f32_mul (f32_of_int (r c)) wr)).

(** ** Valid images

    [fields_in_range]: every header field holds a value of its C++ type.
    [canonical]: the size and offset fields have the values the constructor
    and [read] give them, the file type is "BM", and [row_stride] is set
    whenever [write] uses it.  A valid image is one whose buffer has the
    layout of its dimensions and whose headers are in range and canonical;
    these hold of every image [BMP_new] builds from positive dimensions with
    a buffer below 2^32 bytes. *)
Definition is_u16 (z : Z) : Prop := 0 <= z < 2 ^ 16.
Definition is_u32 (z : Z) : Prop := 0 <= z < 2 ^ 32.
Definition is_s32 (z : Z) : Prop := - 2 ^ 31 <= z < 2 ^ 31.

Definition fields_in_range (self : BMP) : Prop :=
  let fh := file_header self in
  let ih := bmp_info_header self in
  let ch := bmp_color_header self in
  (is_u16 (reserved1 fh) ∧ is_u16 (reserved2 fh))
  ∧ (is_u16 (planes ih) ∧ is_u32 (compression ih) ∧ is_u32 (size_image ih)
     ∧ is_s32 (x_pixels_per_meter ih) ∧ is_s32 (y_pixels_per_meter ih)
     ∧ is_u32 (colors_used ih) ∧ is_u32 (colors_important ih))
  ∧ (is_u32 (red_mask ch) ∧ is_u32 (green_mask ch) ∧ is_u32 (blue_mask ch)
     ∧ is_u32 (alpha_mask ch) ∧ is_u32 (color_space_type ch)
     ∧ length (unused ch) = 16%nat ∧ Forall is_u32 (unused ch)).

(** Bytes of padding after each row in the file *)
Definition row_padding (self : BMP) : Z := (- (BMP_width self * channels self)) mod 4.

Definition canonical (self : BMP) : Prop :=
  let fh := file_header self in
  let ih := bmp_info_header self in
  let headers := if channels self =? 4
                 then sizeof_BMPFileHeader + sizeof_BMPInfoHeader + sizeof_BMPColorHeader
                 else sizeof_BMPFileHeader + sizeof_BMPInfoHeader in
  file_type fh = 0x4D42
  ∧ bit_count ih = 8 * channels self
  ∧ offset_data fh = headers
  ∧ hdr_size ih = headers - sizeof_BMPFileHeader
  ∧ file_size fh = u32 (headers + Z.of_nat (length (data self))
                        + BMP_height self * row_padding self)
  ∧ (channels self = 3 → bmp_color_header self = BMPColorHeader_init)
  ∧ (channels self = 3 → BMP_width self mod 4 ≠ 0 → row_stride self = BMP_width self * 3).

Definition valid_image (self : BMP) : Prop :=
  layout_ok self ∧ fields_in_range self ∧ canonical self.

(** [read] computes the size of the buffer as
    [width * height * bit_count / 8] in [int]: the product
    [width * height * bit_count] has to fit. *)
Definition size_fits_int (self : BMP) : Prop :=
  BMP_width self * BMP_height self * bit_count (bmp_info_header self) < 2 ^ 31.

(** Headers whose fields hold values of their C++ types *)
Definition file_header_ok (h : BMPFileHeader) : Prop :=
  is_u16 (file_type h) ∧ is_u32 (file_size h) ∧ is_u16 (reserved1 h)
  ∧ is_u16 (reserved2 h) ∧ is_u32 (offset_data h).

Definition info_header_ok (h : BMPInfoHeader) : Prop :=
  is_u32 (hdr_size h) ∧ is_s32 (width h) ∧ is_s32 (height h) ∧ is_u16 (planes h)
  ∧ is_u16 (bit_count h) ∧ is_u32 (compression h) ∧ is_u32 (size_image h)
  ∧ is_s32 (x_pixels_per_meter h) ∧ is_s32 (y_pixels_per_meter h)
  ∧ is_u32 (colors_used h) ∧ is_u32 (colors_important h).

Definition color_header_ok (h : BMPColorHeader) : Prop :=
  is_u32 (red_mask h) ∧ is_u32 (green_mask h) ∧ is_u32 (blue_mask h)
  ∧ is_u32 (alpha_mask h) ∧ is_u32 (color_space_type h)
  ∧ length (unused h) = 16%nat ∧ Forall is_u32 (unused h).

(** The headers of a file that holds the image [self] with [gap] bytes
    between the headers and the pixel data: the size fields are what the
    writer of the file chose. *)
Definition file_header_with (self : BMP) (fsz off : Z) : BMPFileHeader :=
  mkFileHeader (file_type (file_header self)) fsz (reserved1 (file_header self))
    (reserved2 (file_header self)) off.


(** The image [read] leaves when it reads an image back: [row_stride] is
    only stored when the rows are read one by one. *)
Definition reread (junk : Z) (self : BMP) : BMP :=
  mkBMP (file_header self) (bmp_info_header self) (bmp_color_header self) (data self)
        (channels self)
        (if BMP_width self mod 4 =? 0 then row_stride (BMP_init junk)
         else BMP_width self * channels self).

(** The bytes of the rows [k], ..., [k + m - 1] of the buffer [src] in the
    file: each row of [stride] bytes is followed by [padding] zero bytes. *)
Definition file_rows (stride padding : nat) (src : list Z) (k m : nat) : list Z :=
  y ← seq k m; take stride (drop (y * stride) src) ++ replicate padding 0.

(** The bytes [write] produces for a valid image: the headers, then the
    buffer, row by row with padding when the rows of a 24-bit image are not
    a multiple of 4 bytes long. *)
Definition headers_bytes (self : BMP) : list Z :=
  BMPFileHeader_bytes (file_header self) ++ BMPInfoHeader_bytes (bmp_info_header self)
  ++ (if channels self =? 4 then BMPColorHeader_bytes (bmp_color_header self) else []).

Definition pixel_bytes (self : BMP) : list Z :=
  if (channels self =? 4) || (BMP_width self mod 4 =? 0) then data self
  else file_rows (Z.to_nat (BMP_width self * 3)) (Z.to_nat (row_padding self)) (data self)
                 0 (Z.to_nat (BMP_height self)).

(** The point [drawLine] draws for the coordinate [a] along the dominant
    axis and [b] across it *)
Definition line_point (steep : bool) (a b : Z) : Point :=
  if steep then mkPoint (u32 b) (u32 a) else mkPoint (u32 a) (u32 b).

(** ** Sample values

    [one_pixel]: the 24-bit image of one pixel with blue 10, green 20 and red
    30, as [BMP(1, 1, false)] followed by [setPixel(0, 0, Color(30, 20, 10))]
    leaves it.  [bad_magic_file]: the file [write] produces for it, with the
    first byte ['B'] replaced by ['X'].  [half]: the [float] 0.5. *)
Definition one_pixel : BMP :=
  mkBMP (mkFileHeader 0x4D42 58 0 0 54) (mkInfoHeader 40 1 1 1 24 0 0 0 0 0 0)
        BMPColorHeader_init [10; 20; 30] 3 3.

Definition bad_magic_file : list Z :=
  [88; 77; 58; 0; 0; 0; 0; 0; 0; 0; 54; 0; 0; 0; 40; 0; 0; 0; 1; 0; 0; 0; 1; 0; 0; 0;
   1; 0; 24; 0; 0; 0; 0; 0; 0; 0; 0; 0; 0; 0; 0; 0; 0; 0; 0; 0; 0; 0; 0; 0; 0; 0; 0; 0;
   10; 20; 30; 0].

Definition half : float := S754_finite false 8388608 (-24).

(** [two_by_two]: a 32-bit image of 2 x 2 pixels with the bytes 1 ... 16.
    [canvas]: the 24-bit image of 8 x 2 pixels [BMP(8, 2, false)] builds. *)
Definition two_by_two : BMP :=
  mkBMP (mkFileHeader 0x4D42 154 0 0 138) (mkInfoHeader 124 2 2 1 32 3 0 0 0 0 0)
        BMPColorHeader_init [1; 2; 3; 4; 5; 6; 7; 8; 9; 10; 11; 12; 13; 14; 15; 16] 4 8.

Definition canvas : BMP :=
  mkBMP (mkFileHeader 0x4D42 102 0 0 54) (mkInfoHeader 40 8 2 1 24 0 0 0 0 0 0)
        BMPColorHeader_init (replicate 48 0) 3 24.

(** [board]: a 32-bit image of 8 x 8 pixels, all zero. *)
Definition board : BMP :=
  mkBMP (mkFileHeader 0x4D42 394 0 0 138) (mkInfoHeader 124 8 8 1 32 3 0 0 0 0 0)
        BMPColorHeader_init (replicate 256 0) 4 32.

(** [large_image]: the 32-bit image of 16384 x 8192 pixels, as
    [BMP(16384, 8192, true)] builds it: a buffer of 2^29 zero bytes after
    138 bytes of headers.  [large_image_with d] is that image with the
    buffer [d]. *)
Definition large_image_with (d : list Z) : BMP :=
  mkBMP (mkFileHeader 0x4D42 536871050 0 0 138)
        (mkInfoHeader 124 16384 8192 1 32 3 0 0 0 0 0)
        BMPColorHeader_init d 4 65536.

Definition large_image : BMP := large_image_with (replicate (Z.to_nat (2 ^ 29)) 0).

(** * Properties *)

(** ** Fixed-width arithmetic *)

Lemma u32_range z : 0 <= u32 z < 2 ^ 32.
Proof. unfold u32. apply Z.mod_pos_bound. lia. Qed.

Lemma u32_id z : 0 <= z < 2 ^ 32 → u32 z = z.
Proof. intros. unfold u32. by apply Z.mod_small. Qed.

Lemma s32_id z : - 2 ^ 31 <= z < 2 ^ 31 → s32 z = z.
Proof. intros. unfold s32. rewrite Z.mod_small; lia. Qed.

Ltac wrap_arith :=
  unfold add32, sub32, mul32, adds32, subs32, muls32, u32, s32, u16, u8 in *;
  change (2 ^ 32) with 4294967296 in *; change (2 ^ 31) with 2147483648 in *;
  change (2 ^ 16) with 65536 in *; change (2 ^ 8) with 256 in *;
  Z.to_euclidean_division_equations; lia.

Lemma u32_mod4 z : u32 z mod 4 = z mod 4.
Proof. wrap_arith. Qed.

Lemma add32_u32_l a b : add32 (u32 a) b = u32 (a + b).
Proof. unfold add32, u32. by rewrite Zplus_mod_idemp_l. Qed.

(** [make_stride_aligned(4)] rounds a stride up to the next multiple of 4
    (modulo 2^32). *)
Lemma make_stride_aligned_loop_4 fuel s :
  ((- s) mod 4 <= Z.of_nat fuel) →
  make_stride_aligned_loop fuel 4 (u32 s) = Some (u32 (s + (- s) mod 4)).
Proof.
  revert s. induction fuel as [|fuel IH]; intros s Hk; cbn [make_stride_aligned_loop];
    rewrite u32_mod4; destruct (Z.eqb_spec (s mod 4) 0) as [E|E].
  - do 2 f_equal. wrap_arith.
  - exfalso. wrap_arith.
  - do 2 f_equal. wrap_arith.
  - rewrite add32_u32_l, IH; [do 2 f_equal|]; wrap_arith.
Qed.

Lemma make_stride_aligned_4 s :
  0 <= s < 2 ^ 32 →
  make_stride_aligned s 4 = Some (u32 (s + (- s) mod 4)).
Proof.
  intros Hs. unfold make_stride_aligned.
  rewrite <- (u32_id s) at 1 by done.
  apply make_stride_aligned_loop_4. change (Z.of_nat (Z.to_nat 4)) with 4.
  pose proof (Z.mod_pos_bound (- s) 4). lia.
Qed.

Lemma padding_4 s : 0 <= s < 2 ^ 32 → sub32 (u32 (s + (- s) mod 4)) s = (- s) mod 4.
Proof. intros. wrap_arith. Qed.

(** ** Pixel access *)

Lemma layout_bounds self :
  layout_ok self →
  3 <= channels self <= 4
  ∧ 0 < BMP_width self < 2 ^ 31 ∧ 0 < BMP_height self < 2 ^ 31
  ∧ 0 < BMP_width self * BMP_height self
  ∧ BMP_width self * BMP_height self * channels self < 2 ^ 32
  ∧ Z.of_nat (length (data self)) = BMP_width self * BMP_height self * channels self.
Proof.
  intros (Hch & Hw & Hh & Hlt & Hlen).
  assert (3 <= channels self <= 4) by lia.
  repeat split; try lia; nia.
Qed.

Section pixel_access.
Context (self : BMP) (Hok : layout_ok self).
Context (x y : Z) (Hx : 0 <= x < BMP_width self) (Hy : 0 <= y < BMP_height self).

Lemma inside_quiet : outside self x y = false.
Proof.
  destruct (layout_bounds _ Hok) as (_ & Hw & Hh & _).
  unfold outside. rewrite !u32_id by lia.
  repeat (apply orb_false_intro); lia.
Qed.

Lemma pixel_index_bound :
  0 <= y * BMP_width self + x < BMP_width self * BMP_height self.
Proof. nia. Qed.

Lemma pixel_pos_exact :
  pixel_pos self x y = channels self * (y * BMP_width self + x).
Proof.
  destruct (layout_bounds _ Hok) as (Hch & Hw & Hh & Hwh & Hlt & _).
  pose proof pixel_index_bound.
  unfold pixel_pos, mul32, add32. rewrite (u32_id (BMP_width self)) by lia.
  rewrite (u32_id (y * _)) by nia. rewrite (u32_id (_ + x)) by nia.
  apply u32_id. nia.
Qed.

Lemma pixel_pos_bound :
  0 <= pixel_pos self x y
  ∧ pixel_pos self x y + channels self <= Z.of_nat (length (data self)).
Proof.
  rewrite pixel_pos_exact.
  destruct (layout_bounds _ Hok) as (Hch & Hw & Hh & Hwh & Hlt & ->).
  pose proof pixel_index_bound. nia.
Qed.

Lemma pixel_byte k :
  0 <= k < channels self →
  Z.to_nat (add32 (pixel_pos self x y) k) = (Z.to_nat (pixel_pos self x y) + Z.to_nat k)%nat
  ∧ (Z.to_nat (pixel_pos self x y) + Z.to_nat k < length (data self))%nat.
Proof.
  intros Hk. pose proof pixel_pos_bound as [??].
  destruct (layout_bounds _ Hok) as (Hch & Hw & Hh & Hwh & Hlt & Hlen).
  unfold add32. rewrite u32_id by lia. lia.
Qed.
End pixel_access.

Lemma length_put_pixel ch pos c d : length (put_pixel ch pos c d) = length d.
Proof. unfold put_pixel. destruct (ch =? 4); by rewrite !length_insert. Qed.

Lemma put_pixel_lookup_ne ch pos c d (i : nat) :
  (i < pos ∨ pos + Z.to_nat ch ≤ i)%nat → 3 <= ch <= 4 →
  put_pixel ch pos c d !! i = d !! i.
Proof.
  intros Hi Hch. unfold put_pixel.
  destruct (Z.eqb_spec ch 4); rewrite !list_lookup_insert_ne by lia; done.
Qed.

Lemma fetch_put_pixel ch pos c d :
  3 <= ch <= 4 → (pos + Z.to_nat ch ≤ length d)%nat →
  fetch_pixel ch pos (put_pixel ch pos c d)
  = Some (mkColor (r c) (g c) (b c) (if ch =? 4 then alpha c else 255)).
Proof.
  intros Hch Hlen. unfold fetch_pixel, put_pixel.
  destruct (Z.eqb_spec ch 4) as [->|Hne];
    rewrite ?list_lookup_insert, ?length_insert;
    repeat (case_decide; try lia); done.
Qed.

Lemma fetch_pixel_ext ch pos d d' :
  3 <= ch <= 4 →
  (∀ i, (pos ≤ i < pos + Z.to_nat ch)%nat → d' !! i = d !! i) →
  fetch_pixel ch pos d' = fetch_pixel ch pos d.
Proof.
  intros Hch Heq. unfold fetch_pixel.
  rewrite !(Heq (pos + 2)%nat), !(Heq (pos + 1)%nat), !(Heq pos) by lia.
  destruct (Z.eqb_spec ch 4) as [->|]; [|done].
  by rewrite !(Heq (pos + 3)%nat) by lia.
Qed.

Section pixel_access_ops.
Context (self : BMP) (Hok : layout_ok self).
Context (x y : Z) (Hx : 0 <= x < BMP_width self) (Hy : 0 <= y < BMP_height self).

Lemma setPixel_inside c :
  setPixel self x y c
  = mkOut [] (Some (set_data self
      (put_pixel (channels self) (Z.to_nat (pixel_pos self x y)) c (data self)))).
Proof.
  destruct (layout_bounds _ Hok) as (Hch & _).
  unfold setPixel. rewrite inside_quiet by done. cbn.
  unfold vset, put_pixel.
  destruct (pixel_byte self Hok x y Hx Hy 0 ltac:(lia)) as [-> ?].
  destruct (pixel_byte self Hok x y Hx Hy 1 ltac:(lia)) as [-> ?].
  destruct (pixel_byte self Hok x y Hx Hy 2 ltac:(lia)) as [-> ?].
  change (Z.to_nat 0) with 0%nat in *. rewrite Nat.add_0_r in *.
  change (Z.to_nat 1) with 1%nat in *. change (Z.to_nat 2) with 2%nat in *.
  rewrite decide_True by done. cbn.
  rewrite decide_True by (by rewrite length_insert). cbn.
  rewrite decide_True by (by rewrite !length_insert). cbn.
  destruct (Z.eqb_spec (channels self) 4) as [E|E]; [|done].
  destruct (pixel_byte self Hok x y Hx Hy 3 ltac:(lia)) as [-> ?].
  change (Z.to_nat 3) with 3%nat in *.
  rewrite decide_True by (by rewrite !length_insert). done.
Qed.

Lemma getPixel_inside :
  getPixel self x y
  = mkOut [] (fetch_pixel (channels self) (Z.to_nat (pixel_pos self x y)) (data self)).
Proof.
  destruct (layout_bounds _ Hok) as (Hch & _).
  unfold getPixel. rewrite inside_quiet by done. cbn.
  unfold vget, fetch_pixel, quiet. f_equal.
  destruct (pixel_byte self Hok x y Hx Hy 0 ltac:(lia)) as [-> ?].
  destruct (pixel_byte self Hok x y Hx Hy 1 ltac:(lia)) as [-> ?].
  destruct (pixel_byte self Hok x y Hx Hy 2 ltac:(lia)) as [-> ?].
  change (Z.to_nat 0) with 0%nat. rewrite Nat.add_0_r.
  change (Z.to_nat 1) with 1%nat. change (Z.to_nat 2) with 2%nat.
  destruct (Z.eqb_spec (channels self) 4) as [E|E]; [|done].
  destruct (pixel_byte self Hok x y Hx Hy 3 ltac:(lia)) as [-> ?].
  done.
Qed.
End pixel_access_ops.

Lemma set_data_back self d : set_data (set_data self d) (data self) = self.
Proof. by destruct self. Qed.

Lemma layout_ok_set_data self d :
  layout_ok self → length d = length (data self) → layout_ok (set_data self d).
Proof. unfold layout_ok. cbn. intros (?&?&?&?&?) ->. done. Qed.

(** C10: with [x < width] and [y < height], [getPixel(x, y)] right after
    [setPixel(x, y, c)] returns the red, green and blue of [c]; the alpha of
    [c] on a 4-channel image, and 255 on a 3-channel image. *)
Theorem getPixel_after_setPixel (self : BMP) (x y : Z) (c : Color) :
  layout_ok self → 0 <= x < BMP_width self → 0 <= y < BMP_height self →
  ∃ self',
    setPixel self x y c = mkOut [] (Some self')
    ∧ getPixel self' x y
      = mkOut [] (Some (mkColor (r c) (g c) (b c)
                                (if channels self =? 4 then alpha c else 255))).
Proof.
  intros Hok Hx Hy. eexists. split; [by apply setPixel_inside|].
  destruct (layout_bounds _ Hok) as (Hch & _).
  pose proof (pixel_pos_bound self Hok x y Hx Hy) as [??].
  rewrite getPixel_inside; [|by apply layout_ok_set_data, length_put_pixel|done..].
  cbn. f_equal. apply fetch_put_pixel; [done|lia].
Qed.

(** ** Construction from dimensions *)

Lemma BMP_new_data (w h : Z) (a : bool) :
  let ch := if a then 4 else 3 in
  ∃ img, result (BMP_new w h a) = Some img
       ∧ data img = replicate (Z.to_nat (mul32 (u32 (muls32 w ch)) (u32 h))) 0
       ∧ BMP_width img = w ∧ BMP_height img = h ∧ channels img = ch.
Proof.
  unfold BMP_new. destruct a; cbn -[u32 mul32 muls32 sub32 Z.mul make_stride_aligned].
  - destruct ((w <=? 0) || (h <=? 0)); cbn -[u32 mul32 muls32 Z.mul];
      rewrite resize_nil; eauto 10.
  - rewrite make_stride_aligned_4 by apply u32_range.
    destruct ((w <=? 0) || (h <=? 0)); cbn -[u32 mul32 muls32 sub32 Z.mul];
      rewrite resize_nil; eauto 10.
Qed.

Lemma BMP_new_positive (w h : Z) (a : bool) :
  0 < w → 0 < h →
  w * (if a then 4 else 3) < 2 ^ 31 →
  w * h * (if a then 4 else 3) < 2 ^ 32 →
  ∃ img, BMP_new w h a = mkOut [] (Some img)
       ∧ data img = replicate (Z.to_nat (w * h * (if a then 4 else 3))) 0.
Proof.
  intros Hw Hh Hs Hlt.
  destruct (BMP_new_data w h a) as (img & Hres & Hd & _).
  exists img. split.
  - assert (cerr (BMP_new w h a) = []) as Hlog.
    { unfold BMP_new.
      replace ((w <=? 0) || (h <=? 0)) with false by (symmetry; apply orb_false_intro; lia).
      by destruct a; cbn -[make_stride_aligned]. }
    destruct (BMP_new w h a) as [log res]. cbn in Hres, Hlog. by subst.
  - rewrite Hd. do 2 f_equal.
    unfold muls32, mul32. rewrite s32_id by (destruct a; lia).
    rewrite (u32_id (w * _)) by (destruct a; lia).
    assert (h < 2 ^ 32) by (destruct a; nia).
    rewrite (u32_id h) by lia. rewrite u32_id by (destruct a; nia). lia.
Qed.

(** C7 (amended): for [w > 0] and [h > 0] whose row stride fits [int32_t] and
    whose buffer size is below 2^32, the constructor yields, without any
    diagnostic, a buffer of [w * h * 4] zero bytes with alpha and of
    [w * h * 3] zero bytes without. *)
Theorem BMP_new_zero_buffer (w h : Z) :
  0 < w → 0 < h →
  (w * 4 < 2 ^ 31 → w * h * 4 < 2 ^ 32 →
   ∃ img, BMP_new w h true = mkOut [] (Some img)
        ∧ data img = replicate (Z.to_nat (w * h * 4)) 0)
  ∧ (w * 3 < 2 ^ 31 → w * h * 3 < 2 ^ 32 →
     ∃ img, BMP_new w h false = mkOut [] (Some img)
          ∧ data img = replicate (Z.to_nat (w * h * 3)) 0).
Proof.
  intros Hw Hh. split; intros Hs Hlt.
  - by apply (BMP_new_positive w h true).
  - by apply (BMP_new_positive w h false).
Qed.

(** The constructor never fails: whatever the dimensions, it returns an
    image carrying them. *)
Lemma BMP_new_total (w h : Z) (a : bool) :
  ∃ img, result (BMP_new w h a) = Some img ∧ BMP_width img = w ∧ BMP_height img = h.
Proof. destruct (BMP_new_data w h a) as (img & ? & _ & ? & ? & _). eauto. Qed.

(** C7, as stated, fails: for [w = h = 65536] the size [row_stride * height]
    wraps around in [uint32_t] and the buffer is empty. *)
Lemma BMP_new_zero_buffer_wraps :
  ∃ img, BMP_new 65536 65536 true = mkOut [] (Some img)
       ∧ data img = []
       ∧ Z.of_nat (length (data img)) ≠ 65536 * 65536 * 4.
Proof. eexists. split; [vm_compute; reflexivity|]. split; [reflexivity|]. cbn. lia. Qed.

(** C8: the constructor does not reject non-positive dimensions.  For
    [BMP(0, 5, true)] it writes its message to [std::cerr] and goes on to
    build the image; for [BMP(-1, -1, true)] the image built has a buffer of
    4 bytes, on which [setPixel(0, 0, c)] then works without any diagnostic. *)
Theorem BMP_new_nonpositive_constructs :
  BMP_new 0 5 true
  = mkOut ["The image width and height must be positive numbers.\n"%string]
      (Some (mkBMP (mkFileHeader 0x4D42 138 0 0 138)
                   (mkInfoHeader 124 0 5 1 32 3 0 0 0 0 0)
                   BMPColorHeader_init [] 4 0))
  ∧ ∃ img,
      BMP_new (-1) (-1) true
      = mkOut ["The image width and height must be positive numbers.\n"%string] (Some img)
      ∧ BMP_width img = -1 ∧ BMP_height img = -1 ∧ data img = [0; 0; 0; 0]
      ∧ setPixel img 0 0 (mkColor 1 2 3 4) = mkOut [] (Some (set_data img [3; 2; 1; 4])).
Proof.
  split; [vm_compute; reflexivity|].
  eexists. split; [vm_compute; reflexivity|]. by vm_compute.
Qed.

(** ** Erasing on an image without alpha channel *)

(** The test on the channels only adds a message: [eraseRegion] then draws
    the region as [drawRegion] does. *)
Lemma eraseRegion_draws image x y w h :
  result (eraseRegion image x y w h)
  = result (drawRegion image x y w h (mkColor 0 0 0 0)).
Proof.
  unfold eraseRegion, drawRegion, when, warn.
  destruct (negb _); cbn; by destruct (draw_all _ _ _).
Qed.

(** C2: [eraseRegion] on a 24-bit image prints its error and then writes the
    pixels all the same: on [one_pixel], [eraseRegion(0, 0, 1, 1)] turns the
    buffer [10; 20; 30] into [0; 0; 0]. *)
Theorem eraseRegion_24bit_writes :
  Channels one_pixel = 3
  ∧ eraseRegion one_pixel 0 0 1 1
    = mkOut ["erasePixel error: only for 32 bits/pixel\n"%string]
            (Some (set_data one_pixel [0; 0; 0])).
Proof. split; [reflexivity|]. vm_compute. reflexivity. Qed.

(** ** Grey scale with weights above 1 *)

(** The test on the weights only adds a message: the buffer [BlackWhite]
    leaves is that of its loops, whatever the weights. *)
Lemma BlackWhite_result self r g b :
  result (BlackWhite self r g b)
  = d ← for_each (seqZ 0 (u32 (BMP_height self))) (λ y,
           for_each (seqZ 0 (u32 (BMP_width self))) (λ x,
             BlackWhite_pixel (pixel_pos self x y) r g b))
         (data self);
    Some (set_data self d).
Proof. unfold BlackWhite, when, warn. by destruct (f32_gt _ _). Qed.

(** C1: [BlackWhite] with weights that sum to more than 1 prints its error
    and then transforms the buffer all the same: on [one_pixel] with the
    weights 0.5, 0.5, 0.5 the buffer [10; 20; 30] becomes [30; 30; 30]. *)
Theorem BlackWhite_invalid_weights_applied :
  f32_gt (f32_add (f32_add half half) half) (f32_of_int 1) = true
  ∧ BlackWhite one_pixel half half half
    = mkOut ["BlackWhite error: Invalid grey scale\n"%string]
            (Some (set_data one_pixel [30; 30; 30])).
Proof. split; vm_compute; reflexivity. Qed.

(** ** Reading a file without the BM signature *)

(** C3: [read] does not stop at a wrong file type: on [bad_magic_file], whose
    type field is 0x4D58, it prints its error and then reads the headers and
    the pixel row as for any other file. *)
Theorem read_bad_magic_proceeds (junk : Z) :
  field 0 2 bad_magic_file = 0x4D58
  ∧ Decode junk bad_magic_file
    = mkOut ["Error! Unrecognized file format.\n"%string]
        (Some (mkBMP (mkFileHeader 0x4D58 58 0 0 54)
                     (mkInfoHeader 40 1 1 1 24 0 0 0 0 0 0)
                     BMPColorHeader_init [10; 20; 30] 3 3)).
Proof. split; vm_compute; reflexivity. Qed.

(** ** Drawing a list of points *)

Lemma pixel_index_inj (w x y x' y' : Z) :
  0 <= x < w → 0 <= x' < w → y * w + x = y' * w + x' → x = x' ∧ y = y'.
Proof. intros Hx Hx' E. assert (y = y') by nia. subst. lia. Qed.

Lemma pixel_disjoint self p q :
  layout_ok self → inside self p → inside self q → p ≠ q →
  pixel_pos self (px q) (py q) + channels self <= pixel_pos self (px p) (py p)
  ∨ pixel_pos self (px p) (py p) + channels self <= pixel_pos self (px q) (py q).
Proof.
  intros Hok [Hpx Hpy] [Hqx Hqy] Hne.
  rewrite !pixel_pos_exact by done.
  destruct (layout_bounds _ Hok) as (Hch & _).
  destruct (Z.lt_trichotomy (py p * BMP_width self + px p) (py q * BMP_width self + px q))
    as [?|[E|?]]; [right; nia| |left; nia].
  apply pixel_index_inj in E as [??]; [|done..].
  destruct p, q; cbn in *; congruence.
Qed.

Lemma pixel_pos_set_data self d x y : pixel_pos (set_data self d) x y = pixel_pos self x y.
Proof. done. Qed.

Lemma getPixel_pixel_of self p :
  layout_ok self → inside self p →
  getPixel self (px p) (py p) = mkOut [] (pixel_of self (data self) p).
Proof. intros Hok [??]. by apply getPixel_inside. Qed.

(** One [setPixel] inside the image: the pixel is stored, the others stay. *)
Lemma setPixel_pixel_of self p c :
  layout_ok self → inside self p →
  ∃ d, setPixel self (px p) (py p) c = mkOut [] (Some (set_data self d))
     ∧ length d = length (data self)
     ∧ pixel_of self d p = Some (stored self c)
     ∧ ∀ q, inside self q → q ≠ p → pixel_of self d q = pixel_of self (data self) q.
Proof.
  intros Hok Hp. pose proof Hp as [Hx Hy].
  destruct (layout_bounds _ Hok) as (Hch & _).
  pose proof (pixel_pos_bound self Hok _ _ Hx Hy) as [??].
  eexists. split; [by apply setPixel_inside|].
  split; [apply length_put_pixel|]. split.
  - apply fetch_put_pixel; [done|lia].
  - intros q Hq Hne. pose proof Hq as [Hqx Hqy].
    pose proof (pixel_pos_bound self Hok _ _ Hqx Hqy) as [??].
    apply fetch_pixel_ext; [done|]. intros i Hi.
    apply put_pixel_lookup_ne; [|done].
    destruct (pixel_disjoint self p q Hok Hp Hq ltac:(done)); lia.
Qed.

(** A sequence of [drawPixel] calls inside the image: no diagnostic, the
    headers stay, and exactly the listed pixels are stored. *)
Lemma draw_all_inside self c calls :
  layout_ok self → Forall (inside self) calls →
  ∃ d, draw_all self c calls = mkOut [] (Some (set_data self d))
     ∧ length d = length (data self)
     ∧ ∀ q, inside self q →
         pixel_of self d q
         = if decide (q ∈ calls) then Some (stored self c) else pixel_of self (data self) q.
Proof.
  intros Hok Hall. revert self Hok Hall.
  induction calls as [|p calls IH]; intros self Hok Hall.
  - exists (data self). split; [by destruct self|]. split; [done|].
    intros q _. rewrite decide_False; [done|]. by intros ?%elem_of_nil.
  - apply Forall_cons_1 in Hall as [Hp Hall].
    destruct (setPixel_pixel_of self p c Hok Hp) as (d1 & Hset & Hlen1 & Hsame & Hother).
    destruct (IH (set_data self d1)) as (d2 & Hdraw & Hlen2 & Hpix).
    { by apply layout_ok_set_data. }
    { done. }
    exists d2. split; [|split].
    + cbn [draw_all]. unfold drawPixel. rewrite Hset. cbn.
      unfold mbind, Out_mbind, Out_bind. cbn. by rewrite Hdraw.
    + cbn in Hlen2. congruence.
    + intros q Hq. specialize (Hpix q Hq).
      change (pixel_of self d2 q
              = if decide (q ∈ calls) then Some (stored self c) else pixel_of self d1 q)
        in Hpix.
      rewrite Hpix. destruct (decide (q ∈ calls)) as [Hin|Hin].
      * rewrite decide_True; [done|]. by right.
      * destruct (decide (q = p)) as [->|Hne].
        -- rewrite decide_True; [done|]. by left.
        -- rewrite decide_False by (intros [?|?]%elem_of_cons; done).
           by apply Hother.
Qed.

(** ** Horizontal and vertical lines *)

Lemma fmap_offset_seqZ {B : Type} (f : Z → B) (a n : Z) :
  0 <= a → a + n <= 2 ^ 31 →
  (λ i, f (u32 (adds32 a i))) <$> seqZ 0 n = f <$> seqZ a n.
Proof.
  intros Ha Hn.
  replace (seqZ a n) with (Z.add a <$> seqZ 0 n)
    by (rewrite fmap_add_seqZ; f_equal; lia).
  rewrite <- list_fmap_compose. apply Forall_fmap_ext_1, Forall_seqZ.
  intros i Hi. cbn. f_equal. unfold adds32. rewrite s32_id, u32_id; lia.
Qed.

Lemma axis_calls_segment (horizontal : bool) (a b k : Z) :
  0 <= a < 2 ^ 31 → 0 <= b < 2 ^ 31 → 0 <= k < 2 ^ 31 → a ≠ b →
  axis_calls horizontal a b k
  = Some (axis_point horizontal k <$> seqZ (a `min` b) (a `max` b - a `min` b)).
Proof.
  intros Ha Hb Hk Hne. unfold axis_calls, drawLine_calls.
  destruct horizontal.
  - rewrite (proj2 (Z.eqb_neq a b)), Z.eqb_refl by done. cbn [andb].
    destruct (Z.gtb_spec a b); unfold subs32; rewrite s32_id by lia; f_equal;
      rewrite (u32_id k) by lia.
    + rewrite Z.min_r, Z.max_l by lia.
      apply (fmap_offset_seqZ (λ t, mkPoint t k)); lia.
    + rewrite Z.min_l, Z.max_r by lia.
      apply (fmap_offset_seqZ (λ t, mkPoint t k)); lia.
  - rewrite Z.eqb_refl, (proj2 (Z.eqb_neq a b)) by done. cbn [andb].
    destruct (Z.gtb_spec a b); unfold subs32; rewrite s32_id by lia; f_equal;
      rewrite (u32_id k) by lia.
    + rewrite Z.min_r, Z.max_l by lia.
      apply (fmap_offset_seqZ (λ t, mkPoint k t)); lia.
    + rewrite Z.min_l, Z.max_r by lia.
      apply (fmap_offset_seqZ (λ t, mkPoint k t)); lia.
Qed.

Lemma elem_of_axis_segment (horizontal : bool) (a b k : Z) (q : Point) :
  q ∈ axis_point horizontal k <$> seqZ (a `min` b) (a `max` b - a `min` b)
  ↔ on_segment horizontal a b k q.
Proof.
  rewrite list_elem_of_fmap. unfold on_segment.
  setoid_rewrite elem_of_seqZ. split; intros (t & ? & ?); exists t; split; (done || lia).
Qed.

(** C5: a horizontal line ([y1 = y2], [x1 ≠ x2]) sets exactly the pixels of
    row [y1] with [x] in the half-open interval [min(x1,x2), max(x1,x2));
    a vertical line sets exactly the pixels of column [x1] with [y] in
    [min(y1,y2), max(y1,y2)).  The calls are made in increasing order, there
    is no diagnostic, the headers stay, the pixels of the segment read back
    as [c] and every other pixel of the image reads back as before. *)
Theorem drawLine_axis_aligned (self : BMP) (horizontal : bool) (a b k : Z) (c : Color) :
  layout_ok self →
  0 <= a <= along self horizontal → 0 <= b <= along self horizontal → a ≠ b →
  0 <= k < across self horizontal →
  axis_calls horizontal a b k
  = Some (axis_point horizontal k <$> seqZ (a `min` b) (a `max` b - a `min` b))
  ∧ ∃ drawn,
      axis_line self horizontal a b k c = mkOut [] (Some drawn)
      ∧ set_data drawn (data self) = self
      ∧ ∀ q, inside self q →
          (on_segment horizontal a b k q →
           getPixel drawn (px q) (py q) = mkOut [] (Some (stored self c)))
          ∧ (¬ on_segment horizontal a b k q →
             getPixel drawn (px q) (py q) = getPixel self (px q) (py q)).
Proof.
  intros Hok Ha Hb Hne Hk.
  destruct (layout_bounds _ Hok) as (_ & Hw & Hh & _).
  assert (along self horizontal < 2 ^ 31 ∧ across self horizontal < 2 ^ 31) as [??]
    by (destruct horizontal; cbn; lia).
  pose proof (axis_calls_segment horizontal a b k) as Hcalls.
  rewrite Hcalls by lia. split; [done|].
  set (calls := axis_point horizontal k <$> _) in *.
  assert (Forall (inside self) calls) as Hin.
  { apply Forall_fmap, Forall_seqZ. intros t Ht.
    destruct horizontal; cbn in *; split; cbn; lia. }
  destruct (draw_all_inside self c calls Hok Hin) as (d & Hdraw & Hlen & Hpix).
  exists (set_data self d). split; [|split; [apply set_data_back|] ].
  - unfold axis_line, drawLine. unfold axis_calls in Hcalls.
    destruct horizontal; by rewrite Hcalls by lia.
  - intros q Hq.
    rewrite (getPixel_pixel_of (set_data self d)), (getPixel_pixel_of self);
      [|done|done|by apply layout_ok_set_data|done].
    change (pixel_of (set_data self d) (data (set_data self d)) q) with (pixel_of self d q).
    rewrite (Hpix q Hq). unfold calls.
    split; intros Hseg.
    + rewrite decide_True; [done|]. by apply elem_of_axis_segment.
    + rewrite decide_False; [done|]. by rewrite elem_of_axis_segment.
Qed.

(** [drawLine(0, 0, 5, 0, c)] calls [drawPixel] on (0,0) ... (4,0), and
    [drawLine(2, 4, 2, 1, c)] on (2,1), (2,2), (2,3). *)
Example drawLine_calls_examples :
  drawLine_calls 0 0 5 0
  = Some [mkPoint 0 0; mkPoint 1 0; mkPoint 2 0; mkPoint 3 0; mkPoint 4 0]
  ∧ drawLine_calls 2 4 2 1 = Some [mkPoint 2 1; mkPoint 2 2; mkPoint 2 3].
Proof. split; reflexivity. Qed.

(** ** The general case of [drawLine] *)

Lemma drawLine_while_once fuel dx sy y1 e :
  0 < dx < 2 ^ 30 → - 2 * dx <= e < 2 * dx → -1 <= sy <= 1 →
  - 2 ^ 31 < y1 < 2 ^ 31 - 1 →
  drawLine_while (S fuel) dx sy y1 e
  = Some (if e >=? 0 then (y1 + sy, e - 2 * dx) else (y1, e)).
Proof.
  intros Hdx He Hsy Hy. cbn [drawLine_while].
  destruct (Z.geb_spec e 0); [|done].
  unfold adds32, subs32, muls32. rewrite (s32_id (dx * 2)) by lia.
  rewrite !s32_id by lia.
  destruct fuel; cbn [drawLine_while];
    (destruct (Z.geb_spec (e - dx * 2) 0); [lia|]); do 2 f_equal; lia.
Qed.

(** The loop of the general case, entered for the [i]-th time after [k]
    steps across: the decision variable is [2 dy (i + 1) - dx - 2 dx k], and
    every point drawn lies [i + j] steps along and between 0 and [dy] steps
    across from the start. *)
Lemma drawLine_for_spec n steep dx dy sx sy x0 y0 i k e :
  0 < dx < 2 ^ 30 → 0 <= dy <= dx → (sx = 1 ∨ sx = -1) → (sy = 1 ∨ sy = -1) →
  - 2 ^ 30 <= x0 < 2 ^ 30 → - 2 ^ 30 <= y0 < 2 ^ 30 →
  0 <= i → i + Z.of_nat n = dx →
  e = 2 * dy * (i + 1) - dx - 2 * dx * k → - 2 * dx <= e < 2 * dy →
  ∃ calls,
    drawLine_for n steep dx dy sx sy (x0 + i * sx) (y0 + k * sy) e = Some calls
    ∧ length calls = n
    ∧ ∀ j p, calls !! j = Some p →
        ∃ k', 0 <= k' <= dy ∧ (j = O → k' = k)
              ∧ p = line_point steep (x0 + (i + Z.of_nat j) * sx) (y0 + k' * sy).
Proof.
  intros Hdx Hdy Hsx Hsy Hx0 Hy0. revert i k e.
  induction n as [|n IH]; intros i k e Hi Hn He Hrange.
  - exists []. repeat split. intros j p. by rewrite lookup_nil.
  - assert (0 <= k <= dy) as Hk by nia.
    cbn [drawLine_for].
    rewrite drawLine_while_once by nia. cbn.
    set (k1 := if e >=? 0 then k + 1 else k).
    set (e1 := if e >=? 0 then e - 2 * dx else e).
    replace (if e >=? 0 then (y0 + k * sy + sy, e - 2 * dx) else (y0 + k * sy, e))
      with (y0 + k1 * sy, e1)
      by (unfold k1, e1; destruct (e >=? 0); f_equal; lia).
    cbn.
    assert (- 2 * dx <= e1 < 0) by (unfold e1; destruct (Z.geb_spec e 0); lia).
    assert (e1 = 2 * dy * (i + 1) - dx - 2 * dx * k1)
      by (unfold e1, k1; destruct (Z.geb_spec e 0); lia).
    unfold adds32, muls32. rewrite (s32_id (dy * 2)) by lia.
    rewrite (s32_id (x0 + i * sx + sx)), (s32_id (e1 + _)) by nia.
    replace (x0 + i * sx + sx) with (x0 + (i + 1) * sx) by lia.
    destruct (IH (i + 1) k1 (e1 + dy * 2)) as (calls & -> & Hlen & Hcalls); [lia..|].
    cbn. eexists. split; [done|]. split; [cbn; by rewrite Hlen|].
    intros [|j] p Hp; cbn in Hp.
    + injection Hp as <-. exists k. split; [done|]. split; [done|].
      unfold line_point. rewrite Z.add_0_r. by destruct steep.
    + destruct (Hcalls j p Hp) as (k' & ? & _ & ->).
      exists k'. split; [done|]. split; [done|]. do 3 f_equal. lia.
Qed.

Lemma u32_inj a b :
  - 2 ^ 31 <= a < 2 ^ 31 → - 2 ^ 31 <= b < 2 ^ 31 → u32 a = u32 b → a = b.
Proof. intros. wrap_arith. Qed.

(** A list of calls whose major coordinates are [m0, m0 + s, m0 + 2s, ...]
    contains each of its points once. *)
Lemma arithmetic_majors_count steep (calls : list Point) (m0 s : Z) (p : Point) :
  (s = 1 ∨ s = -1) →
  - 2 ^ 30 <= m0 < 2 ^ 30 → Z.of_nat (length calls) <= 2 ^ 30 →
  major steep <$> calls = (λ i, u32 (m0 + i * s)) <$> seqZ 0 (Z.of_nat (length calls)) →
  p ∈ calls →
  count_occ Point_eq_dec calls p = 1%nat.
Proof.
  intros Hs Hm Hlen Hmajor Hin.
  assert (NoDup calls) as Hnd.
  { apply (NoDup_fmap_1 (major steep)). rewrite Hmajor.
    apply NoDup_fmap_2_strong; [|apply NoDup_seqZ].
    intros i j Hi%elem_of_seqZ Hj%elem_of_seqZ E.
    apply u32_inj in E; [|lia..]. lia. }
  apply NoDup_ListNoDup in Hnd.
  apply (proj1 (NoDup_count_occ' Point_eq_dec calls) Hnd). by apply list_elem_of_In.
Qed.

(** The calls of the general case, for coordinates in [-2^30, 2^30) that
    differ by less than 2^30: the loop makes one call per step along the
    dominant axis, starting at the first endpoint and staying between the
    endpoints, and the second endpoint is drawn after the loop. *)
Lemma drawLine_general_loop (x1 y1 x2 y2 : Z) :
  - 2 ^ 30 <= x1 < 2 ^ 30 → - 2 ^ 30 <= y1 < 2 ^ 30 →
  - 2 ^ 30 <= x2 < 2 ^ 30 → - 2 ^ 30 <= y2 < 2 ^ 30 →
  Z.abs (x2 - x1) < 2 ^ 30 → Z.abs (y2 - y1) < 2 ^ 30 →
  x1 ≠ x2 → y1 ≠ y2 →
  let steep := bool_decide (Z.abs (x2 - x1) < Z.abs (y2 - y1)) in
  let steps := Z.abs (x2 - x1) `max` Z.abs (y2 - y1) in
  let across := Z.abs (x2 - x1) `min` Z.abs (y2 - y1) in
  let m0 := if steep then y1 else x1 in
  let s := if steep then Z.sgn (y2 - y1) else Z.sgn (x2 - x1) in
  let n0 := if steep then x1 else y1 in
  let t := if steep then Z.sgn (x2 - x1) else Z.sgn (y2 - y1) in
  ∃ loop,
    drawLine_calls x1 y1 x2 y2 = Some (loop ++ [mkPoint (u32 x2) (u32 y2)])
    ∧ length loop = Z.to_nat steps
    ∧ ∀ j p, loop !! j = Some p →
        ∃ k, 0 <= k <= across ∧ (j = O → k = 0)
             ∧ p = line_point steep (m0 + Z.of_nat j * s) (n0 + k * t).
Proof.
  intros Hx1 Hy1 Hx2 Hy2 Hdx Hdy Hx Hy steep steps across m0 s n0 t.
  unfold drawLine_calls.
  rewrite (proj2 (Z.eqb_neq x1 x2)), (proj2 (Z.eqb_neq y1 y2)) by done. cbn [andb].
  unfold subs32. rewrite (s32_id (x2 - x1)), (s32_id (y2 - y1)) by lia.
  rewrite !s32_id by lia.
  unfold t, n0, s, m0, across, steps, steep.
  destruct (Z.gtb_spec (Z.abs (y2 - y1)) (Z.abs (x2 - x1))) as [Hgt|Hle].
  - rewrite bool_decide_true by lia.
    unfold muls32. rewrite (s32_id (2 * _)), s32_id by lia.
    edestruct (drawLine_for_spec (Z.to_nat (Z.abs (y2 - y1))) true (Z.abs (y2 - y1))
                 (Z.abs (x2 - x1)) (if y2 - y1 >? 0 then 1 else -1)
                 (if x2 - x1 >? 0 then 1 else -1) y1 x1 0 0
                 (2 * Z.abs (x2 - x1) - Z.abs (y2 - y1)))
      as (loop & Hloop & Hlen & Hcalls);
      [lia|lia|destruct (_ >? _); auto|destruct (_ >? _); auto|lia..|].
    rewrite !Z.mul_0_l, !Z.add_0_r in Hloop. rewrite Hloop.
    exists loop. cbn. split; [done|]. split; [rewrite Hlen; lia|].
    intros j p Hp. destruct (Hcalls j p Hp) as (k & ? & ? & ->).
    exists k. split; [lia|]. split; [done|]. rewrite Z.add_0_l.
    unfold line_point.
    destruct (Z.gtb_spec (y2 - y1) 0), (Z.gtb_spec (x2 - x1) 0); do 2 f_equal; lia.
  - rewrite bool_decide_false by lia.
    unfold muls32. rewrite (s32_id (2 * _)), s32_id by lia.
    edestruct (drawLine_for_spec (Z.to_nat (Z.abs (x2 - x1))) false (Z.abs (x2 - x1))
                 (Z.abs (y2 - y1)) (if x2 - x1 >? 0 then 1 else -1)
                 (if y2 - y1 >? 0 then 1 else -1) x1 y1 0 0
                 (2 * Z.abs (y2 - y1) - Z.abs (x2 - x1)))
      as (loop & Hloop & Hlen & Hcalls);
      [lia|lia|destruct (_ >? _); auto|destruct (_ >? _); auto|lia..|].
    rewrite !Z.mul_0_l, !Z.add_0_r in Hloop. rewrite Hloop.
    exists loop. cbn. split; [done|]. split; [rewrite Hlen; lia|].
    intros j p Hp. destruct (Hcalls j p Hp) as (k & ? & ? & ->).
    exists k. split; [lia|]. split; [done|]. rewrite Z.add_0_l.
    unfold line_point.
    destruct (Z.gtb_spec (y2 - y1) 0), (Z.gtb_spec (x2 - x1) 0); do 2 f_equal; lia.
Qed.

(** C6: in the general case ([x1 ≠ x2] and [y1 ≠ y2]) of a line between two
    points of the image, [drawLine] makes [max(|x2-x1|, |y2-y1|) + 1] calls
    whose coordinate along the dominant axis ([y] when [|y2-y1| > |x2-x1|],
    [x] otherwise) advances by one step per call from the first endpoint to
    the second; the computation is on integers only, each of the endpoints
    [(x1,y1)] and [(x2,y2)] is drawn exactly once, there is no diagnostic,
    and both endpoints read back as [c]. *)
Theorem drawLine_general (self : BMP) (x1 y1 x2 y2 : Z) (c : Color) :
  layout_ok self → inside self (mkPoint x1 y1) → inside self (mkPoint x2 y2) →
  x1 ≠ x2 → y1 ≠ y2 →
  let steep := bool_decide (Z.abs (x2 - x1) < Z.abs (y2 - y1)) in
  let steps := Z.abs (x2 - x1) `max` Z.abs (y2 - y1) in
  ∃ calls drawn,
    drawLine_calls x1 y1 x2 y2 = Some calls
    ∧ major steep <$> calls
      = (λ i, if steep then y1 + i * Z.sgn (y2 - y1) else x1 + i * Z.sgn (x2 - x1))
        <$> seqZ 0 (steps + 1)
    ∧ count_occ Point_eq_dec calls (mkPoint x1 y1) = 1%nat
    ∧ count_occ Point_eq_dec calls (mkPoint x2 y2) = 1%nat
    ∧ drawLine self x1 y1 x2 y2 c = mkOut [] (Some drawn)
    ∧ getPixel drawn x1 y1 = mkOut [] (Some (stored self c))
    ∧ getPixel drawn x2 y2 = mkOut [] (Some (stored self c)).
Proof.
  intros Hok [Hx1 Hy1] [Hx2 Hy2] Hx Hy steep steps. cbn in Hx1, Hy1, Hx2, Hy2.
  destruct (layout_bounds _ Hok) as (Hch & Hw & Hh & Hwh & Hlt & _).
  assert (BMP_width self < 2 ^ 30 ∧ BMP_height self < 2 ^ 30) as [Hw30 Hh30] by nia.
  destruct (drawLine_general_loop x1 y1 x2 y2) as (loop & Hcalls & Hlen & Hloop);
    [lia..|done|done|].
  fold steep steps in Hlen, Hloop. cbv zeta in Hloop.
  rewrite (u32_id x2), (u32_id y2) in Hcalls by lia.
  set (m0 := if steep then y1 else x1) in *.
  set (s := if steep then Z.sgn (y2 - y1) else Z.sgn (x2 - x1)) in *.
  set (n0 := if steep then x1 else y1) in *.
  set (t := if steep then Z.sgn (x2 - x1) else Z.sgn (y2 - y1)) in *.
  set (calls := loop ++ [mkPoint x2 y2]) in *.
  assert (0 < steps < 2 ^ 30) as Hsteps by (unfold steps; lia).
  assert (s = 1 ∨ s = -1) as Hs by (unfold s; destruct steep; lia).
  assert (- 2 ^ 30 <= m0 < 2 ^ 30) as Hm0 by (unfold m0; destruct steep; lia).
  assert (mkPoint x2 y2 = line_point steep (m0 + steps * s) (if steep then x2 else y2)) as Hend.
  { unfold line_point, m0, s, steps, steep.
    case_bool_decide; rewrite !u32_id by lia; f_equal; lia. }
  (* every call is a point of the image between the endpoints *)
  assert (∀ j p, calls !! j = Some p →
            ∃ a b, p = line_point steep a b ∧ a = m0 + Z.of_nat j * s
                   ∧ Z.of_nat j <= steps
                   ∧ (if steep then 0 <= a < BMP_height self ∧ 0 <= b < BMP_width self
                      else 0 <= a < BMP_width self ∧ 0 <= b < BMP_height self)) as Hall.
  { intros j p Hp. unfold calls in Hp.
    destruct (decide (j < length loop)%nat) as [Hj|Hj].
    - rewrite lookup_app_l in Hp by done.
      destruct (Hloop j p Hp) as (k & Hk & _ & ->).
      eexists _, _. split; [done|]. split; [done|]. split; [lia|].
      assert (Z.of_nat j < steps) by lia.
      unfold m0, s, n0, t, steps, steep in *.
      case_bool_decide; split; nia.
    - rewrite lookup_app_r in Hp by lia.
      destruct (j - length loop)%nat as [|?] eqn:E; [|done].
      injection Hp as <-. rewrite Hend.
      eexists _, _. split; [done|]. split; [f_equal; lia|]. split; [lia|].
      unfold m0, s, steps, steep in *.
      case_bool_decide; split; lia. }
  assert (Z.of_nat (length calls) = steps + 1) as Hlen'.
  { unfold calls. rewrite length_app, Hlen. cbn. lia. }
  assert (major steep <$> calls = (λ i, u32 (m0 + i * s)) <$> seqZ 0 (steps + 1)) as Hmajors.
  { apply list_eq. intros j. rewrite !list_lookup_fmap.
    destruct (calls !! j) as [p|] eqn:Hp.
    - destruct (Hall j p Hp) as (a & b0 & -> & -> & Hj & _).
      rewrite lookup_seqZ_lt by lia. cbn. f_equal.
      unfold line_point, major. by destruct steep.
    - apply lookup_ge_None in Hp. rewrite lookup_seqZ_ge by lia. done. }
  assert (Forall (inside self) calls) as Hinside.
  { apply Forall_lookup. intros j p Hp.
    destruct (Hall j p Hp) as (a & b0 & -> & _ & _ & Hab).
    unfold line_point, inside. destruct steep; cbn; rewrite !u32_id by lia; lia. }
  assert (mkPoint x1 y1 ∈ calls) as Hfirst.
  { apply list_elem_of_lookup. exists O. unfold calls.
    destruct loop as [|p loop']; [cbn in Hlen; lia|]. cbn.
    destruct (Hloop O p eq_refl) as (k & _ & Hk0 & ->). rewrite (Hk0 eq_refl).
    unfold line_point, m0, n0. cbn.
    destruct steep; rewrite !Z.add_0_r, !u32_id by lia; done. }
  assert (mkPoint x2 y2 ∈ calls) as Hlast.
  { unfold calls. apply elem_of_app. right. by left. }
  destruct (draw_all_inside self c calls Hok Hinside) as (d & Hdraw & Hd & Hpix).
  exists calls, (set_data self d).
  split; [done|]. split; [|split; [|split; [|split; [|split] ] ] ].
  - rewrite Hmajors. apply Forall_fmap_ext_1, Forall_seqZ. intros i Hi. cbn.
    unfold m0, s, steps, steep in *. case_bool_decide; apply u32_id; nia.
  - apply (arithmetic_majors_count steep calls m0 s); [done|done|lia|by rewrite Hlen'|done].
  - apply (arithmetic_majors_count steep calls m0 s); [done|done|lia|by rewrite Hlen'|done].
  - unfold drawLine. by rewrite Hcalls.
  - pose proof (getPixel_pixel_of (set_data self d) (mkPoint x1 y1)) as G.
    cbn [px py] in G. rewrite G; [|by apply layout_ok_set_data|by split].
    change (pixel_of (set_data self d) (data (set_data self d)) (mkPoint x1 y1))
      with (pixel_of self d (mkPoint x1 y1)).
    rewrite Hpix by (by split). by rewrite decide_True.
  - pose proof (getPixel_pixel_of (set_data self d) (mkPoint x2 y2)) as G.
    cbn [px py] in G. rewrite G; [|by apply layout_ok_set_data|by split].
    change (pixel_of (set_data self d) (data (set_data self d)) (mkPoint x2 y2))
      with (pixel_of self d (mkPoint x2 y2)).
    rewrite Hpix by (by split). by rewrite decide_True.
Qed.

(** ** Loops whose steps are commuting involutions *)

Lemma for_each_app {A S : Type} (l1 l2 : list A) (body : A → S → option S) (s : S) :
  for_each (l1 ++ l2) body s = for_each l1 body s ≫= for_each l2 body.
Proof.
  revert s. induction l1 as [|a l1 IH]; intros s; cbn; [done|].
  destruct (body a s) as [s'|]; cbn; [apply IH|done].
Qed.

(** Nested loops are one loop over the pairs of indices. *)
Lemma for_each_nested {A B S : Type} (l : list A) (inner : list B)
    (body : A → B → S → option S) (s : S) :
  for_each l (λ a, for_each inner (body a)) s
  = for_each (a ← l; (λ b, (a, b)) <$> inner) (λ ab, body ab.1 ab.2) s.
Proof.
  revert s. induction l as [|a l IH]; intros s; [done|].
  cbn [for_each]. rewrite bind_cons, for_each_app.
  assert (∀ t, for_each ((λ b, (a, b)) <$> inner) (λ ab, body ab.1 ab.2) t
               = for_each inner (body a) t) as ->.
  { clear IH. induction inner as [|j inner IHi]; intros t; cbn; [done|].
    destruct (body a j t); cbn; [apply IHi|done]. }
  destruct (for_each inner (body a) s); cbn; [apply IH|done].
Qed.

Section commuting_involutions.
Context {A S : Type} (body : A → S → option S).
Context (Inv : S → Prop) (Good : A → Prop).
Hypothesis step_total : ∀ a s, Good a → Inv s → ∃ s', body a s = Some s' ∧ Inv s'.
Hypothesis step_invol : ∀ a s s', Good a → Inv s → body a s = Some s' → body a s' = Some s.
Hypothesis step_comm : ∀ a a' s, Good a → Good a' → Inv s →
  body a s ≫= body a' = body a' s ≫= body a.

Lemma for_each_total l s :
  Forall Good l → Inv s → ∃ s', for_each l body s = Some s' ∧ Inv s'.
Proof.
  intros Hl. revert s. induction Hl as [|a l Ha Hl IH]; intros s Hs; cbn; [eauto|].
  destruct (step_total a s Ha Hs) as (s1 & -> & Hs1). cbn. by apply IH.
Qed.

Lemma for_each_comm a l s :
  Good a → Forall Good l → Inv s →
  body a s ≫= for_each l body = for_each l body s ≫= body a.
Proof.
  intros Ha Hl. revert s. induction Hl as [|a' l Ha' Hl IH]; intros s Hs; cbn.
  - by destruct (body a s).
  - destruct (step_total a s Ha Hs) as (s1 & E1 & Hs1).
    destruct (step_total a' s Ha' Hs) as (s2 & E2 & Hs2).
    pose proof (step_comm a a' s Ha Ha' Hs) as Hc.
    rewrite E1, E2 in Hc |- *. cbn in Hc |- *.
    rewrite Hc. destruct (step_total a s2 Ha Hs2) as (s3 & E3 & Hs3).
    rewrite <- IH by done. rewrite E3. cbn.
    destruct (step_total a' s1 Ha' Hs1) as (s4 & E4 & Hs4).
    rewrite E4 in Hc. rewrite E3 in Hc. by simplify_eq.
Qed.

Lemma for_each_involution l s :
  Forall Good l → Inv s →
  ∃ s', for_each l body s = Some s' ∧ Inv s' ∧ for_each l body s' = Some s.
Proof.
  intros Hl. revert s. induction Hl as [|a l Ha Hl IH]; intros s Hs; cbn; [eauto|].
  destruct (step_total a s Ha Hs) as (s1 & E1 & Hs1). rewrite E1. cbn.
  destruct (IH s1 Hs1) as (s2 & E2 & Hs2 & Eback).
  exists s2. split; [done|]. split; [done|].
  rewrite for_each_comm by done. rewrite Eback. cbn. by eapply step_invol.
Qed.
End commuting_involutions.

(** ** Exchanging two pixels *)

Lemma vget_nat d (p : nat) (k : Z) :
  0 <= k → Z.of_nat p + k < 2 ^ 32 →
  vget d (add32 (Z.of_nat p) k) = d !! (p + Z.to_nat k)%nat.
Proof. intros. unfold vget, add32. rewrite u32_id by lia. f_equal. lia. Qed.

Lemma vset_nat d (p : nat) (k v : Z) :
  0 <= k → Z.of_nat p + k < 2 ^ 32 → (p + Z.to_nat k < length d)%nat →
  vset d (add32 (Z.of_nat p) k) v = Some (<[(p + Z.to_nat k)%nat := v]> d).
Proof.
  intros. unfold vset, add32. rewrite u32_id by lia.
  replace (Z.to_nat (Z.of_nat p + k)) with (p + Z.to_nat k)%nat by lia.
  by rewrite decide_True.
Qed.

Ltac exchange_step :=
  first
    [ rewrite vget_nat by lia
    | rewrite vset_nat by (rewrite ?length_insert; lia)
    | progress change (Z.to_nat 0) with 0%nat
    | progress change (Z.to_nat 1) with 1%nat
    | progress change (Z.to_nat 2) with 2%nat
    | progress change (Z.to_nat 3) with 3%nat
    | rewrite Nat.add_0_r
    | rewrite list_lookup_insert_ne by lia
    | match goal with
      | H : ?d !! ?i = Some _ |- context [?d !! ?i] => rewrite H
      end
    | progress cbn [mbind option_bind] ].

Lemma exchange_spec (ch : Z) (p1 p2 : nat) (d : list Z) :
  (ch = 3 ∨ ch = 4) →
  (p1 + Z.to_nat ch ≤ length d)%nat → (p2 + Z.to_nat ch ≤ length d)%nat →
  Z.of_nat (length d) <= 2 ^ 32 →
  (p1 + Z.to_nat ch ≤ p2 ∨ p2 + Z.to_nat ch ≤ p1)%nat →
  ∃ d', exchange ch (Z.of_nat p1) (Z.of_nat p2) d = Some d'
      ∧ length d' = length d
      ∧ ∀ i, d' !! i = d !! swap_index (Z.to_nat ch) p1 p2 i.
Proof.
  intros Hch H1 H2 Hlen Hdis.
  destruct (lookup_lt_is_Some_2 d p1) as [a0 Ha0]; [lia|].
  destruct (lookup_lt_is_Some_2 d (p1 + 1)) as [a1 Ha1]; [lia|].
  destruct (lookup_lt_is_Some_2 d (p1 + 2)) as [a2 Ha2]; [lia|].
  destruct (lookup_lt_is_Some_2 d p2) as [b0 Hb0]; [lia|].
  destruct (lookup_lt_is_Some_2 d (p2 + 1)) as [b1 Hb1]; [lia|].
  destruct (lookup_lt_is_Some_2 d (p2 + 2)) as [b2 Hb2]; [lia|].
  unfold exchange.
  change (Z.to_nat 0) with 0%nat in *. 
  destruct Hch as [-> | ->].
  - change (3 =? 4) with false. cbn iota.
    repeat exchange_step.
    eexists. split; [done|]. split; [by rewrite !length_insert|].
    intros i. unfold swap_index. change (Z.to_nat 3) with 3%nat in *.
    rewrite !list_lookup_insert, !length_insert.
    repeat case_decide; try lia; simplify_eq;
      first [ rewrite <- Ha0 | rewrite <- Ha1 | rewrite <- Ha2
            | rewrite <- Hb0 | rewrite <- Hb1 | rewrite <- Hb2 | idtac ];
      f_equal; lia.
  - destruct (lookup_lt_is_Some_2 d (p1 + 3)) as [a3 Ha3]; [lia|].
    destruct (lookup_lt_is_Some_2 d (p2 + 3)) as [b3 Hb3]; [lia|].
    change (4 =? 4) with true. cbn iota.
    repeat exchange_step.
    eexists. split; [done|]. split; [by rewrite !length_insert|].
    intros i. unfold swap_index. change (Z.to_nat 4) with 4%nat in *.
    rewrite !list_lookup_insert, !length_insert.
    repeat case_decide; try lia; simplify_eq;
      first [ rewrite <- Ha0 | rewrite <- Ha1 | rewrite <- Ha2 | rewrite <- Ha3
            | rewrite <- Hb0 | rewrite <- Hb1 | rewrite <- Hb2 | rewrite <- Hb3 | idtac ];
      f_equal; lia.
Qed.

Lemma swap_index_involutive (ch p1 p2 i : nat) :
  (p1 + ch ≤ p2 ∨ p2 + ch ≤ p1)%nat →
  swap_index ch p1 p2 (swap_index ch p1 p2 i) = i.
Proof. intros. unfold swap_index. repeat case_decide; lia. Qed.

Lemma swap_index_first (ch p1 p2 i : nat) :
  (p1 ≤ i < p1 + ch)%nat → swap_index ch p1 p2 i = (i - p1 + p2)%nat.
Proof. intros. unfold swap_index. by rewrite decide_True. Qed.

Lemma swap_index_second (ch p1 p2 i : nat) :
  (p1 + ch ≤ p2 ∨ p2 + ch ≤ p1)%nat →
  (p2 ≤ i < p2 + ch)%nat → swap_index ch p1 p2 i = (i - p2 + p1)%nat.
Proof. intros. unfold swap_index. rewrite decide_False, decide_True by lia. done. Qed.

Lemma swap_index_other (ch p1 p2 i : nat) :
  ¬ (p1 ≤ i < p1 + ch)%nat → ¬ (p2 ≤ i < p2 + ch)%nat → swap_index ch p1 p2 i = i.
Proof. intros. unfold swap_index. by rewrite !decide_False. Qed.

Lemma swap_index_comm (ch p1 p2 q1 q2 i : nat) :
  (p1 + ch ≤ p2 ∨ p2 + ch ≤ p1)%nat → (q1 + ch ≤ q2 ∨ q2 + ch ≤ q1)%nat →
  (p1 + ch ≤ q1 ∨ q1 + ch ≤ p1)%nat → (p1 + ch ≤ q2 ∨ q2 + ch ≤ p1)%nat →
  (p2 + ch ≤ q1 ∨ q1 + ch ≤ p2)%nat → (p2 + ch ≤ q2 ∨ q2 + ch ≤ p2)%nat →
  swap_index ch p1 p2 (swap_index ch q1 q2 i) = swap_index ch q1 q2 (swap_index ch p1 p2 i).
Proof.
  intros Hp Hq H11 H12 H21 H22.
  destruct (decide (p1 ≤ i < p1 + ch)%nat) as [I1|I1].
  { rewrite (swap_index_other ch q1 q2 i) by lia.
    rewrite (swap_index_first ch p1 p2 i) by done.
    by rewrite swap_index_other by lia. }
  destruct (decide (p2 ≤ i < p2 + ch)%nat) as [I2|I2].
  { rewrite (swap_index_other ch q1 q2 i) by lia.
    rewrite (swap_index_second ch p1 p2 i) by done.
    by rewrite swap_index_other by lia. }
  rewrite (swap_index_other ch p1 p2 i) by done.
  destruct (decide (q1 ≤ i < q1 + ch)%nat) as [J1|J1].
  { rewrite (swap_index_first ch q1 q2 i) by done.
    by rewrite swap_index_other by lia. }
  destruct (decide (q2 ≤ i < q2 + ch)%nat) as [J2|J2].
  { rewrite (swap_index_second ch q1 q2 i) by done.
    by rewrite swap_index_other by lia. }
  rewrite (swap_index_other ch q1 q2 i) by done.
  by rewrite swap_index_other by done.
Qed.

Section exchange_pixels.
Context (self : BMP) (Hok : layout_ok self).

Let ch : nat := Z.to_nat (channels self).
Let pos (p : Point) : nat := Z.to_nat (pixel_pos self (px p) (py p)).
Let step (p q : Point) : list Z → option (list Z) :=
  exchange (channels self) (pixel_pos self (px p) (py p)) (pixel_pos self (px q) (py q)).
Let Inv (d : list Z) : Prop := length d = length (data self).

Lemma pos_block p : inside self p → (pos p + ch ≤ length (data self))%nat.
Proof.
  intros [Hx Hy]. destruct (layout_bounds _ Hok) as (Hch & _).
  pose proof (pixel_pos_bound self Hok _ _ Hx Hy). unfold pos, ch. lia.
Qed.

Lemma pos_disjoint p q :
  inside self p → inside self q → p ≠ q → (pos p + ch ≤ pos q ∨ pos q + ch ≤ pos p)%nat.
Proof.
  intros Hp Hq Hne. destruct (layout_bounds _ Hok) as (Hch & _).
  pose proof Hp as [Hx Hy]. pose proof Hq as [Hx' Hy'].
  pose proof (pixel_pos_bound self Hok _ _ Hx Hy).
  pose proof (pixel_pos_bound self Hok _ _ Hx' Hy').
  unfold pos, ch. destruct (pixel_disjoint self p q Hok Hp Hq Hne); lia.
Qed.

Lemma step_spec p q d :
  inside self p → inside self q → p ≠ q → Inv d →
  ∃ d', step p q d = Some d' ∧ Inv d' ∧ ∀ i, d' !! i = d !! swap_index ch (pos p) (pos q) i.
Proof.
  intros Hp Hq Hne Hd. unfold Inv in *.
  destruct (layout_bounds _ Hok) as (Hch & _ & _ & _ & Hlt & Hlen).
  pose proof (pos_block p Hp). pose proof (pos_block q Hq).
  pose proof (pos_disjoint p q Hp Hq Hne).
  pose proof Hp as [Hx Hy]. pose proof Hq as [Hx' Hy'].
  pose proof (pixel_pos_bound self Hok _ _ Hx Hy) as [??].
  pose proof (pixel_pos_bound self Hok _ _ Hx' Hy') as [??].
  destruct (exchange_spec (channels self) (pos p) (pos q) d) as (d' & E & Hlen' & Hd');
    [lia|unfold ch in *; lia..|].
  exists d'. split; [|split; [congruence|done] ].
  unfold step, pos in *. by rewrite !Z2Nat.id in E by lia.
Qed.

Lemma step_involutive p q d d' :
  inside self p → inside self q → p ≠ q → Inv d →
  step p q d = Some d' → step p q d' = Some d.
Proof.
  intros Hp Hq Hne Hd E.
  destruct (step_spec p q d Hp Hq Hne Hd) as (d1 & E1 & Hd1 & Hix1).
  assert (d1 = d') as -> by congruence.
  destruct (step_spec p q d' Hp Hq Hne Hd1) as (d2 & E2 & Hd2 & Hix2).
  rewrite E2. f_equal. apply list_eq. intros i.
  rewrite Hix2, Hix1, swap_index_involutive; [done|]. by apply pos_disjoint.
Qed.

Lemma step_commute p q p' q' d :
  inside self p → inside self q → p ≠ q →
  inside self p' → inside self q' → p' ≠ q' →
  (p = p' ∧ q = q') ∨ (p ≠ p' ∧ p ≠ q' ∧ q ≠ p' ∧ q ≠ q') →
  Inv d →
  step p q d ≫= step p' q' = step p' q' d ≫= step p q.
Proof.
  intros Hp Hq Hne Hp' Hq' Hne' [[-> ->]|(?&?&?&?)] Hd; [done|].
  destruct (step_spec p q d) as (d1 & E1 & Hd1 & Hix1); [done..|].
  destruct (step_spec p' q' d) as (d2 & E2 & Hd2 & Hix2); [done..|].
  destruct (step_spec p' q' d1) as (d3 & E3 & Hd3 & Hix3); [done..|].
  destruct (step_spec p q d2) as (d4 & E4 & Hd4 & Hix4); [done..|].
  rewrite E1, E2. cbn. rewrite E3, E4. f_equal. apply list_eq. intros i.
  rewrite Hix3, Hix1, Hix4, Hix2.
  f_equal. symmetry. apply swap_index_comm; by apply pos_disjoint.
Qed.
End exchange_pixels.

(** ** The flips *)

Lemma pixel_exchanges_involution (self : BMP) (Good : Z * Z → Prop)
    (src dst : Z * Z → Point) (body : Z * Z → list Z → option (list Z))
    (steps : list (Z * Z)) (d : list Z) :
  layout_ok self →
  (∀ a, Good a → inside self (src a) ∧ inside self (dst a) ∧ src a ≠ dst a) →
  (∀ a a', Good a → Good a' → a ≠ a' →
     src a ≠ src a' ∧ src a ≠ dst a' ∧ dst a ≠ src a' ∧ dst a ≠ dst a') →
  (∀ a, Good a →
     body a = exchange (channels self)
                (pixel_pos self (px (src a)) (py (src a)))
                (pixel_pos self (px (dst a)) (py (dst a)))) →
  Forall Good steps → length d = length (data self) →
  ∃ d', for_each steps body d = Some d'
      ∧ length d' = length (data self)
      ∧ for_each steps body d' = Some d.
Proof.
  intros Hok Hin Hdis Hbody Hsteps Hd.
  apply (for_each_involution body (λ d, length d = length (data self)) Good); try done.
  - intros a s Ha Hs. destruct (Hin a Ha) as (Hp & Hq & Hne).
    rewrite (Hbody a Ha).
    destruct (step_spec self Hok (src a) (dst a) s Hp Hq Hne Hs) as (s' & ? & ? & _).
    eauto.
  - intros a s s' Ha Hs. destruct (Hin a Ha) as (Hp & Hq & Hne).
    rewrite (Hbody a Ha). by apply step_involutive.
  - intros a a' s Ha Ha' Hs.
    destruct (Hin a Ha) as (Hp & Hq & Hne). destruct (Hin a' Ha') as (Hp' & Hq' & Hne').
    rewrite (Hbody a Ha), (Hbody a' Ha').
    apply step_commute; try done.
    destruct (decide (a = a')) as [->|Hneq]; [by left|right]. by apply Hdis.
Qed.

Lemma FlipX_pos2_mirror self x y :
  layout_ok self → 0 <= x < BMP_width self → 0 <= y < BMP_height self →
  FlipX_pos2 self x y = pixel_pos self (BMP_width self - 1 - x) y.
Proof.
  intros Hok Hx Hy. rewrite pixel_pos_exact by (done || lia).
  destruct (layout_bounds _ Hok) as (Hch & Hw & Hh & Hwh & Hlt & _).
  assert (0 <= y * BMP_width self + BMP_width self <= BMP_width self * BMP_height self) by nia.
  unfold FlipX_pos2, mul32, add32, sub32. rewrite (u32_id (BMP_width self)) by lia.
  rewrite (u32_id (y * _)) by nia. rewrite (u32_id (_ + BMP_width self)) by nia.
  rewrite (u32_id (_ - 1)) by nia. rewrite (u32_id (_ - x)) by nia.
  rewrite u32_id by nia. f_equal. lia.
Qed.

Lemma FlipY_pos2_mirror self x y :
  layout_ok self → 0 <= x < BMP_width self → 0 <= y < BMP_height self →
  FlipY_pos2 self x y = pixel_pos self x (BMP_height self - 1 - y).
Proof.
  intros Hok Hx Hy. rewrite pixel_pos_exact by (done || lia).
  destruct (layout_bounds _ Hok) as (Hch & Hw & Hh & Hwh & Hlt & _).
  assert (0 <= (BMP_height self - 1 - y) * BMP_width self + x
          < BMP_width self * BMP_height self) by nia.
  unfold FlipY_pos2, mul32, add32, sub32, subs32.
  rewrite (u32_id (BMP_width self)), (s32_id (BMP_height self - 1)) by lia.
  rewrite (u32_id (BMP_height self - 1)) by lia.
  rewrite (u32_id (BMP_height self - 1 - y)) by lia.
  rewrite (u32_id ((BMP_height self - 1 - y) * BMP_width self)) by nia.
  rewrite (u32_id ((BMP_height self - 1 - y) * BMP_width self + x)) by nia.
  apply u32_id. nia.
Qed.

Lemma elem_of_pairs (l1 l2 : list Z) (ab : Z * Z) :
  ab ∈ (a ← l1; (λ j, (a, j)) <$> l2) ↔ ab.1 ∈ l1 ∧ ab.2 ∈ l2.
Proof.
  rewrite list_elem_of_bind. setoid_rewrite list_elem_of_fmap. destruct ab as [a j]. cbn.
  split.
  - intros (a' & (j' & [= -> ->] & ?) & ?). done.
  - intros [??]. eauto.
Qed.

Lemma FlipX_involution self :
  layout_ok self →
  ∃ self', FlipX self = Some self' ∧ layout_ok self' ∧ FlipX self' = Some self.
Proof.
  intros Hok. destruct (layout_bounds _ Hok) as (Hch & Hw & Hh & _).
  unfold FlipX. rewrite for_each_nested.
  set (steps := seqZ 0 (u32 (BMP_height self)) ≫= _).
  set (body := λ ab : Z * Z, exchange _ _ _).
  destruct (pixel_exchanges_involution self
              (λ ab, 0 <= ab.1 < BMP_height self ∧ 0 <= ab.2 < BMP_width self / 2)
              (λ ab, mkPoint ab.2 ab.1) (λ ab, mkPoint (BMP_width self - 1 - ab.2) ab.1)
              body steps (data self)) as (d' & E & Hlen & Eback); try done.
  - intros [y x] [Hy Hx]; cbn in *.
    assert (2 * (BMP_width self / 2) <= BMP_width self) by (apply Z.mul_div_le; lia).
    repeat split; cbn; try lia. intros [= ?]. lia.
  - intros [y x] [y' x'] [Hy Hx] [Hy' Hx'] Hne; cbn in *.
    assert (2 * (BMP_width self / 2) <= BMP_width self) by (apply Z.mul_div_le; lia).
    repeat split; intros [= ??]; try lia; apply Hne; f_equal; lia.
  - intros [y x] [Hy Hx]; cbn in *. unfold body. cbn.
    assert (2 * (BMP_width self / 2) <= BMP_width self) by (apply Z.mul_div_le; lia).
    by rewrite FlipX_pos2_mirror by (done || lia).
  - apply Forall_forall. intros ab [Hy Hx]%list_elem_of_In%elem_of_pairs.
    apply elem_of_seqZ in Hy, Hx. rewrite u32_id in Hy, Hx by lia. cbn. lia.
  - exists (set_data self d'). rewrite E. cbn. split; [done|].
    split; [by apply layout_ok_set_data|].
    rewrite for_each_nested.
    change (for_each steps body d' ≫= (λ d, Some (set_data (set_data self d') d))
            = Some self).
    rewrite Eback. cbn. by rewrite set_data_back.
Qed.

Lemma FlipY_involution self :
  layout_ok self →
  ∃ self', FlipY self = Some self' ∧ layout_ok self' ∧ FlipY self' = Some self.
Proof.
  intros Hok. destruct (layout_bounds _ Hok) as (Hch & Hw & Hh & _).
  unfold FlipY. rewrite for_each_nested.
  set (steps := seqZ 0 (u32 (BMP_width self)) ≫= _).
  set (body := λ ab : Z * Z, exchange _ _ _).
  destruct (pixel_exchanges_involution self
              (λ ab, 0 <= ab.1 < BMP_width self ∧ 0 <= ab.2 < BMP_height self / 2)
              (λ ab, mkPoint ab.1 ab.2) (λ ab, mkPoint ab.1 (BMP_height self - 1 - ab.2))
              body steps (data self)) as (d' & E & Hlen & Eback); try done.
  - intros [x y] [Hx Hy]; cbn in *.
    assert (2 * (BMP_height self / 2) <= BMP_height self) by (apply Z.mul_div_le; lia).
    repeat split; cbn; try lia. intros [= ?]. lia.
  - intros [x y] [x' y'] [Hx Hy] [Hx' Hy'] Hne; cbn in *.
    assert (2 * (BMP_height self / 2) <= BMP_height self) by (apply Z.mul_div_le; lia).
    repeat split; intros [= ??]; try lia; apply Hne; f_equal; lia.
  - intros [x y] [Hx Hy]; cbn in *. unfold body. cbn.
    assert (2 * (BMP_height self / 2) <= BMP_height self) by (apply Z.mul_div_le; lia).
    by rewrite FlipY_pos2_mirror by (done || lia).
  - apply Forall_forall. intros ab [Hx Hy]%list_elem_of_In%elem_of_pairs.
    apply elem_of_seqZ in Hy, Hx. rewrite u32_id in Hy, Hx by lia. cbn. lia.
  - exists (set_data self d'). rewrite E. cbn. split; [done|].
    split; [by apply layout_ok_set_data|].
    rewrite for_each_nested.
    change (for_each steps body d' ≫= (λ d, Some (set_data (set_data self d') d))
            = Some self).
    rewrite Eback. cbn. by rewrite set_data_back.
Qed.

(** C9: [FlipX] applied twice gives back the image, and so does [FlipY]
    applied twice: every byte of the buffer, the alpha bytes included, is
    where it was. *)
Theorem flips_are_involutions (self : BMP) :
  layout_ok self →
  (∃ flipped, FlipX self = Some flipped ∧ FlipX flipped = Some self)
  ∧ (∃ flipped, FlipY self = Some flipped ∧ FlipY flipped = Some self).
Proof.
  intros Hok. split.
  - destruct (FlipX_involution self Hok) as (s & ? & _ & ?). eauto.
  - destruct (FlipY_involution self Hok) as (s & ? & _ & ?). eauto.
Qed.

(** ** Byte images of integers and of the headers *)

Lemma length_le_bytes n z : length (le_bytes n z) = n.
Proof. revert z. induction n; intros; cbn; [done|]. by rewrite IHn. Qed.

Lemma le_value_2 z : is_u16 z → le_value (le_bytes 2 z) = z.
Proof. unfold is_u16. intros. cbn. wrap_arith. Qed.

Lemma le_value_4 z : is_u32 z → le_value (le_bytes 4 z) = z.
Proof. unfold is_u32. intros. cbn. wrap_arith. Qed.

Lemma le_value_4_signed z : is_s32 z → s32 (le_value (le_bytes 4 z)) = z.
Proof. unfold is_s32. intros. cbn. wrap_arith. Qed.

Ltac le_fields :=
  unfold field; cbn [le_bytes app take drop firstn skipn le_value foldr mbind list_bind];
  rewrite ?take_0; cbn [foldr];
  unfold is_u16, is_u32, is_s32 in *; f_equal; wrap_arith.

Lemma BMPFileHeader_roundtrip h rest :
  is_u16 (file_type h) → is_u32 (file_size h) → is_u16 (reserved1 h) →
  is_u16 (reserved2 h) → is_u32 (offset_data h) →
  BMPFileHeader_of_bytes (BMPFileHeader_bytes h ++ rest) = h.
Proof.
  destruct h. cbn [file_type file_size reserved1 reserved2 offset_data]. intros.
  unfold BMPFileHeader_of_bytes, BMPFileHeader_bytes.
  cbn [file_type file_size reserved1 reserved2 offset_data]. le_fields.
Qed.


Lemma BMPInfoHeader_roundtrip h rest :
  is_u32 (hdr_size h) → is_s32 (width h) → is_s32 (height h) → is_u16 (planes h) →
  is_u16 (bit_count h) → is_u32 (compression h) → is_u32 (size_image h) →
  is_s32 (x_pixels_per_meter h) → is_s32 (y_pixels_per_meter h) →
  is_u32 (colors_used h) → is_u32 (colors_important h) →
  BMPInfoHeader_of_bytes (BMPInfoHeader_bytes h ++ rest) = h.
Proof.
  destruct h. cbn -[Z.pow]. intros.
  unfold BMPInfoHeader_of_bytes, BMPInfoHeader_bytes. cbn -[Z.pow le_bytes field s32 app].
  le_fields.
Qed.


Lemma BMPColorHeader_roundtrip h rest :
  is_u32 (red_mask h) → is_u32 (green_mask h) → is_u32 (blue_mask h) →
  is_u32 (alpha_mask h) → is_u32 (color_space_type h) →
  length (unused h) = 16%nat → Forall is_u32 (unused h) →
  BMPColorHeader_of_bytes (BMPColorHeader_bytes h ++ rest) = h.
Proof.
  destruct h as [rm gm bm am cs un]. cbn -[Z.pow]. intros ????? Hlen Hun.
  do 17 (destruct un as [|? un]; try discriminate Hlen).
  repeat match goal with
         | H : Forall _ (_ :: _) |- _ => apply Forall_cons_1 in H as [? H]
         end.
  unfold BMPColorHeader_of_bytes, BMPColorHeader_bytes, field.
  cbn -[Z.modulo Z.div Z.mul Z.add Z.pow]. rewrite ?take_0. cbn [foldr].
  unfold is_u32 in *.
  repeat f_equal; wrap_arith.
Qed.

Lemma length_BMPColorHeader_bytes h :
  length (unused h) = 16%nat → length (BMPColorHeader_bytes h) = 84%nat.
Proof.
  destruct h as [rm gm bm am cs un]. cbn. intros Hlen.
  do 17 (destruct un as [|? un]; try discriminate Hlen). done.
Qed.

(** ** Streams *)

Lemma stream_read_chunk (pre chunk post : list Z) :
  stream_read (mkIfstream (pre ++ chunk ++ post) (length pre) true) (length chunk)
  = (chunk, mkIfstream (pre ++ chunk ++ post) (length pre + length chunk) true).
Proof.
  unfold stream_read. cbn [good gpos content].
  rewrite drop_app_length, take_app_length.
  by rewrite bool_decide_true.
Qed.

Lemma overlay_full (got old : list Z) :
  (length old ≤ length got)%nat → overlay got old = got.
Proof. intros. unfold overlay. rewrite drop_ge by done. apply app_nil_r. Qed.

Lemma seqZ_succ (k : nat) (m : nat) :
  seqZ (Z.of_nat k) (Z.of_nat (S m)) = Z.of_nat k :: seqZ (Z.of_nat (S k)) (Z.of_nat m).
Proof. rewrite seqZ_cons by lia. do 2 f_equal; lia. Qed.

Lemma row_length (stride : nat) (src : list Z) (y : nat) :
  ((y + 1) * stride ≤ length src)%nat →
  length (take stride (drop (y * stride) src)) = stride.
Proof. intros. rewrite length_take, length_drop. lia. Qed.

Lemma write_rows_spec (self : BMP) (padding : nat) (m : nat) :
  ∀ (k : nat) (out : list Z),
    0 < row_stride self →
    ((k + m) * Z.to_nat (row_stride self) ≤ length (data self))%nat →
    Z.of_nat (length (data self)) < 2 ^ 32 →
    write_rows (seqZ (Z.of_nat k) (Z.of_nat m)) self (Z.of_nat padding) (mkOfstream true out)
    = Some (mkOfstream true
              (out ++ file_rows (Z.to_nat (row_stride self)) padding (data self) k m)).
Proof.
  induction m as [|m IH]; intros k out Hs Hlen Hlt.
  - cbn. by rewrite app_nil_r.
  - rewrite seqZ_succ. cbn [write_rows].
    assert (Z.of_nat k * row_stride self < 2 ^ 32) by nia.
    assert (Z.of_nat k < 2 ^ 32) by nia.
    unfold mul32. rewrite (u32_id (Z.of_nat k)), u32_id by nia.
    unfold load_at. rewrite decide_True by nia. cbn [mbind option_bind].
    unfold stream_write. cbn [is_open written]. rewrite Nat2Z.id.
    rewrite IH by (done || lia). do 2 f_equal.
    unfold file_rows. cbn [seq]. rewrite bind_cons, <- !app_assoc. do 3 f_equal.
    f_equal. nia.
Qed.

Lemma stream_read_at (content pre chunk post : list Z) (pos n : nat) :
  content = pre ++ chunk ++ post → pos = length pre → n = length chunk →
  stream_read (mkIfstream content pos true) n = (chunk, mkIfstream content (pos + n) true).
Proof. intros -> -> ->. apply stream_read_chunk. Qed.

Lemma store_at_spec (d got : list Z) (off n : nat) :
  length got = n → (off + n ≤ length d)%nat →
  ∃ d', store_at d off n got = Some d'
      ∧ length d' = length d
      ∧ ∀ i, d' !! i = if decide (off ≤ i < off + n)%nat then got !! (i - off)%nat else d !! i.
Proof.
  intros Hgot Hlen. unfold store_at. rewrite decide_True by done.
  eexists. split; [done|]. unfold overlay. split.
  - rewrite !length_app, length_take, !length_drop. lia.
  - intros i. case_decide as Hi.
    + rewrite lookup_app_r by (rewrite length_take; lia).
      rewrite length_take, Nat.min_l by lia.
      by rewrite lookup_app_l by lia.
    + destruct (decide (i < off)%nat).
      * rewrite lookup_app_l by (rewrite length_take; lia).
        by rewrite lookup_take_lt by lia.
      * rewrite lookup_app_r by (rewrite length_take; lia).
        rewrite length_take, Nat.min_l by lia.
        rewrite lookup_app_r by lia. rewrite !lookup_drop. f_equal. lia.
Qed.

Lemma read_rows_spec (stride padding : nat) (src : list Z) (m : nat) :
  ∀ (k pos : nat) (content pre post d : list Z),
    (0 < stride)%nat →
    ((k + m) * stride ≤ length src)%nat → length d = length src →
    Z.of_nat (length src) < 2 ^ 32 →
    content = pre ++ file_rows stride padding src k m ++ post → pos = length pre →
    ∃ d', read_rows (seqZ (Z.of_nat k) (Z.of_nat m)) (Z.of_nat stride) (Z.of_nat padding)
            (mkIfstream content pos true) d
          = Some (d', mkIfstream content (pos + m * (stride + padding)) true)
        ∧ length d' = length d
        ∧ ∀ i, d' !! i
               = if decide (k * stride ≤ i < (k + m) * stride)%nat then src !! i else d !! i.
Proof.
  induction m as [|m IH]; intros k pos content pre post d Hs Hlen Hd Hlt Hcontent Hpos.
  - exists d. cbn. rewrite Nat.add_0_r. split; [done|]. split; [done|].
    intros i. rewrite decide_False by lia. done.
  - rewrite seqZ_succ. cbn [read_rows].
    set (row := take stride (drop (k * stride) src)).
    assert (length row = stride) as Hrow by (apply row_length; lia).
    unfold file_rows in Hcontent. cbn [seq] in Hcontent. rewrite bind_cons in Hcontent.
    fold (file_rows stride padding src (S k) m) in Hcontent. fold row in Hcontent.
    rewrite Nat2Z.id.
    rewrite (stream_read_at content pre row
               (replicate padding 0 ++ file_rows stride padding src (S k) m ++ post) pos stride);
      [|by rewrite Hcontent, <- !app_assoc|done..].
    assert (Z.of_nat stride * Z.of_nat k < 2 ^ 32) by nia.
    assert (Z.of_nat k < 2 ^ 32) by nia.
    unfold mul32. rewrite (u32_id (Z.of_nat k)), u32_id by lia.
    destruct (store_at_spec d row (Z.to_nat (Z.of_nat stride * Z.of_nat k)) stride)
      as (d1 & -> & Hlen1 & Hd1); [done|nia|].
    cbn [mbind option_bind]. rewrite Nat2Z.id.
    rewrite (stream_read_at content (pre ++ row) (replicate padding 0)
               (file_rows stride padding src (S k) m ++ post) (pos + stride) padding);
      [|by rewrite Hcontent, <- !app_assoc|rewrite length_app; lia|by rewrite length_replicate].
    destruct (IH (S k) (pos + stride + padding)%nat content
                 (pre ++ row ++ replicate padding 0) post d1)
      as (d' & -> & Hlen' & Hd'); [done|lia|congruence|done| | |].
    { by rewrite Hcontent, <- !app_assoc. }
    { rewrite !length_app, length_replicate. lia. }
    exists d'. split; [do 3 f_equal; lia|]. split; [congruence|].
    intros i. rewrite Hd', Hd1.
    replace (Z.to_nat (Z.of_nat stride * Z.of_nat k)) with (k * stride)%nat by nia.
    repeat case_decide; try lia; try done.
    unfold row. rewrite lookup_take_lt by lia. rewrite lookup_drop. f_equal. lia.
Qed.

(** ** Encoding a valid image *)

Lemma valid_image_facts self :
  valid_image self →
  (channels self = 3 ∨ channels self = 4)
  ∧ 0 < BMP_width self < 2 ^ 31 ∧ 0 < BMP_height self < 2 ^ 31
  ∧ BMP_width self * BMP_height self * channels self < 2 ^ 32
  ∧ Z.of_nat (length (data self)) = BMP_width self * BMP_height self * channels self
  ∧ bit_count (bmp_info_header self) = 8 * channels self.
Proof.
  intros (Hok & _ & Hcan).
  destruct (layout_bounds _ Hok) as (Hch & Hw & Hh & Hwh & Hlt & Hlen).
  destruct Hcan as (_ & Hbc & _).
  repeat split; lia.
Qed.

Lemma size_fits_int_bytes self :
  valid_image self → size_fits_int self →
  BMP_width self * BMP_height self * channels self * 8 < 2 ^ 31.
Proof.
  intros (_ & _ & Hcan) Hfit. destruct Hcan as (_ & Hbc & _).
  unfold size_fits_int in Hfit. rewrite Hbc in Hfit. lia.
Qed.

Lemma row_padding_range self : 0 <= row_padding self < 4.
Proof. unfold row_padding. apply Z.mod_pos_bound. lia. Qed.

#[local] Arguments BMPFileHeader_bytes : simpl never.
#[local] Arguments BMPInfoHeader_bytes : simpl never.
#[local] Arguments BMPColorHeader_bytes : simpl never.

Lemma write_headers_valid self out :
  (channels self = 3 ∨ channels self = 4) →
  bit_count (bmp_info_header self) = 8 * channels self →
  write_headers self (mkOfstream true out) = mkOfstream true (out ++ headers_bytes self).
Proof.
  intros Hch Hbc. unfold write_headers, headers_bytes, stream_write.
  cbn [is_open written]. rewrite Hbc.
  destruct Hch as [-> | ->].
  - change (8 * 3 =? 32) with false. change (3 =? 4) with false. cbn iota.
    by rewrite app_nil_r, <- app_assoc.
  - change (8 * 4 =? 32) with true. change (4 =? 4) with true. cbn iota.
    cbn [is_open written]. by rewrite <- !app_assoc.
Qed.

Lemma Encode_valid self :
  valid_image self → Encode self = mkOut [] (Some (headers_bytes self ++ pixel_bytes self)).
Proof.
  intros Hv. destruct (valid_image_facts self Hv) as (Hch & Hw & Hh & Hlt & Hlen & Hbc).
  destruct Hv as (Hok & _ & Hcan).
  destruct Hcan as (_ & _ & _ & _ & _ & _ & Hstride).
  unfold Encode, write, pixel_bytes, write_headers_and_data, open_out.
  cbn [is_open]. rewrite !write_headers_valid by done. rewrite Hbc.
  destruct Hch as [E|E]; rewrite E in *.
  - change (8 * 3 =? 32) with false. change (8 * 3 =? 24) with true.
    change (3 =? 4) with false. cbn [orb].
    rewrite Z.rem_mod_nonneg by lia.
    destruct (Z.eqb_spec (BMP_width self mod 4) 0) as [E4|E4]; [done|].
    rewrite (Hstride eq_refl E4).
    rewrite make_stride_aligned_4 by (unfold is_u32; lia).
    cbn [quiet mbind option_bind]. rewrite padding_4 by lia.
    pose proof (row_padding_range self) as Hpad.
    replace (- (BMP_width self * 3)) with (- (BMP_width self * channels self))
      by (rewrite E; done).
    fold (row_padding self).
    rewrite <- (Z2Nat.id (row_padding self)) at 1 by lia.
    rewrite <- (Z2Nat.id (BMP_height self)) at 1 by lia.
    change 0 with (Z.of_nat 0) at 1.
    rewrite write_rows_spec; rewrite ?(Hstride eq_refl E4); [|lia|nia|lia].
    done.
  - done.
Qed.

(** ** Decoding the bytes of a valid image *)

Lemma file_rows_no_padding (stride : nat) (src : list Z) (m : nat) :
  ∀ k, ((k + m) * stride ≤ length src)%nat →
       file_rows stride 0 src k m = take (m * stride) (drop (k * stride) src).
Proof.
  induction m as [|m IH]; intros k Hlen; [done|].
  unfold file_rows. cbn [seq]. rewrite bind_cons. fold (file_rows stride 0 src (S k) m).
  rewrite IH by lia. cbn [replicate]. rewrite app_nil_r.
  rewrite <- (take_drop stride (take (S m * stride) (drop (k * stride) src))).
  rewrite take_take, Nat.min_l by lia. f_equal.
  rewrite skipn_firstn_comm, drop_drop. f_equal; [lia|f_equal; lia].
Qed.

Lemma pixel_bytes_rows self :
  valid_image self → BMP_width self mod 4 ≠ 0 →
  pixel_bytes self
  = file_rows (Z.to_nat (BMP_width self * channels self)) (Z.to_nat (row_padding self))
              (data self) 0 (Z.to_nat (BMP_height self)).
Proof.
  intros Hv E4. destruct (valid_image_facts self Hv) as (Hch & Hw & Hh & Hlt & Hlen & Hbc).
  unfold pixel_bytes. rewrite (proj2 (Z.eqb_neq _ 0) E4).
  destruct Hch as [E|E]; rewrite ?E.
  - done.
  - change (4 =? 4) with true. cbn [orb].
    replace (row_padding self) with 0
      by (unfold row_padding; rewrite E, Z.mul_comm, <- Z.mul_opp_r, Z.mul_comm, Z_mod_mult; done).
    change (Z.to_nat 0) with 0%nat. rewrite file_rows_no_padding by nia.
    rewrite drop_0, take_ge; [done|nia].
Qed.

Lemma Out_bind_ret {A B : Type} (a : A) (f : A → Out B) : mret a ≫= f = f a.
Proof. unfold mbind, Out_mbind, Out_bind, mret, Out_mret. cbn. by destruct (f a). Qed.

Lemma Out_bind_quiet {A B : Type} (a : A) (f : A → Out B) : quiet (Some a) ≫= f = f a.
Proof. apply Out_bind_ret. Qed.

Lemma valid_image_headers self :
  valid_image self →
  BMPFileHeader_of_bytes (BMPFileHeader_bytes (file_header self)) = file_header self
  ∧ BMPInfoHeader_of_bytes (BMPInfoHeader_bytes (bmp_info_header self)) = bmp_info_header self
  ∧ (channels self = 4 →
     BMPColorHeader_of_bytes (BMPColorHeader_bytes (bmp_color_header self))
     = bmp_color_header self
     ∧ length (BMPColorHeader_bytes (bmp_color_header self)) = 84%nat).
Proof.
  intros Hv. destruct (valid_image_facts self Hv) as (Hch & Hw & Hh & Hlt & Hlen & Hbc).
  destruct Hv as (Hok & Hrange & Hcan).
  destruct Hrange as ((? & ?) & (? & ? & ? & ? & ? & ? & ?) & (? & ? & ? & ? & ? & ? & ?)).
  destruct Hcan as (Hft & _ & Hoff & Hsize & Hfs & _).
  split; [|split].
  - rewrite <- (app_nil_r (BMPFileHeader_bytes _)).
    apply BMPFileHeader_roundtrip; try done.
    + rewrite Hft. unfold is_u16. lia.
    + rewrite Hfs. apply u32_range.
    + rewrite Hoff. unfold is_u32, sizeof_BMPFileHeader, sizeof_BMPInfoHeader,
        sizeof_BMPColorHeader. destruct (_ =? _); lia.
  - rewrite <- (app_nil_r (BMPInfoHeader_bytes _)).
    apply BMPInfoHeader_roundtrip; try done.
    + rewrite Hsize. unfold is_u32, sizeof_BMPFileHeader, sizeof_BMPInfoHeader,
        sizeof_BMPColorHeader. destruct (_ =? _); lia.
    + unfold is_s32. fold (BMP_width self). lia.
    + unfold is_s32. fold (BMP_height self). lia.
    + rewrite Hbc. unfold is_u16. lia.
  - intros _. split.
    + rewrite <- (app_nil_r (BMPColorHeader_bytes _)).
      by apply BMPColorHeader_roundtrip.
    + by apply length_BMPColorHeader_bytes.
Qed.

Lemma check_color_header_bind {B : Type} h (f : unit → Out B) :
  check_color_header h ≫= f
  = mkOut (cerr (check_color_header h) ++ cerr (f tt)) (result (f tt)).
Proof.
  unfold check_color_header, when, warn.
  destruct (_ || _), (negb _); reflexivity.
Qed.

Lemma row_padding_aligned self :
  (channels self = 4 ∨ BMP_width self mod 4 = 0) → row_padding self = 0.
Proof.
  unfold row_padding. intros [E|E].
  - rewrite E. rewrite <- Z.mul_opp_l. apply Z_mod_mult.
  - rewrite <- Z.mul_opp_l. rewrite Z.mul_mod, Z.mod_opp_l_z, Z.mul_0_l by lia. done.
Qed.

Lemma headers_length self :
  valid_image self →
  length (headers_bytes self) = Z.to_nat (offset_data (file_header self)).
Proof.
  intros Hv. destruct (valid_image_facts self Hv) as (Hch & _).
  destruct (valid_image_headers self Hv) as (_ & _ & Hcolor).
  destruct Hv as (_ & _ & Hcan). destruct Hcan as (_ & _ & -> & _).
  unfold headers_bytes. rewrite !length_app.
  destruct Hch as [E|E]; rewrite E.
  - done.
  - destruct (Hcolor E) as [_ Hlen]. change (4 =? 4) with true. cbn iota.
    rewrite Hlen. done.
Qed.

Lemma reread_eq self junk fh ih col d chn rs :
  fh = file_header self → ih = bmp_info_header self → col = bmp_color_header self →
  d = data self → chn = channels self →
  rs = (if BMP_width self mod 4 =? 0 then row_stride (BMP_init junk)
        else BMP_width self * channels self) →
  mkBMP fh ih col d chn rs = reread junk self.
Proof. by intros -> -> -> -> -> ->. Qed.

Lemma file_header_eq (fh : BMPFileHeader) ft fs r1 r2 off :
  ft = file_type fh → fs = file_size fh → r1 = reserved1 fh → r2 = reserved2 fh →
  off = offset_data fh → mkFileHeader ft fs r1 r2 off = fh.
Proof. intros -> -> -> -> ->. by destruct fh. Qed.

Lemma info_header_eq (ih : BMPInfoHeader) sz w h bc :
  sz = hdr_size ih → w = width ih → h = height ih → bc = bit_count ih →
  mkInfoHeader sz w h (planes ih) bc (compression ih) (size_image ih)
    (x_pixels_per_meter ih) (y_pixels_per_meter ih) (colors_used ih) (colors_important ih)
  = ih.
Proof. intros -> -> -> ->. by destruct ih. Qed.

Lemma Out_bind_Some {A B : Type} (log : list string) (a : A) (f : A → Out B) :
  mkOut log (Some a) ≫= f = mkOut (log ++ cerr (f a)) (result (f a)).
Proof. reflexivity. Qed.

Lemma Decode_valid junk self :
  valid_image self → size_fits_int self →
  Decode junk (headers_bytes self ++ pixel_bytes self)
  = mkOut (cerr (check_color_header (bmp_color_header self))) (Some (reread junk self)).
Proof.
  intros Hv Hfit. destruct (valid_image_facts self Hv) as (Hch & Hw & Hh & _ & Hlen & Hbc).
  pose proof (size_fits_int_bytes self Hv Hfit) as Hlt.
  destruct (valid_image_headers self Hv) as (Hfh & Hih & Hcolor).
  pose proof Hv as (Hok & _ & Hcan).
  destruct Hcan as (Hft & _ & Hoff & Hsize & Hfs & Hinit & _).
  unfold Decode, BMP_open, read, open_in. cbn [good].
  set (file := headers_bytes self ++ pixel_bytes self).
  rewrite (stream_read_at file [] (BMPFileHeader_bytes (file_header self))
             (BMPInfoHeader_bytes (bmp_info_header self)
              ++ (if channels self =? 4 then BMPColorHeader_bytes (bmp_color_header self) else [])
              ++ pixel_bytes self) 0 (Z.to_nat sizeof_BMPFileHeader));
    [|by unfold file, headers_bytes; rewrite <- !app_assoc|done|done].
  cbv beta iota zeta.
  rewrite overlay_full by done. rewrite Hfh, Hft, Z.eqb_refl. cbn [negb when].
  rewrite Out_bind_ret.
  rewrite (stream_read_at file (BMPFileHeader_bytes (file_header self))
             (BMPInfoHeader_bytes (bmp_info_header self))
             ((if channels self =? 4 then BMPColorHeader_bytes (bmp_color_header self) else [])
              ++ pixel_bytes self) _ (Z.to_nat sizeof_BMPInfoHeader));
    [|by unfold file, headers_bytes; rewrite <- !app_assoc|done|done].
  cbv beta iota zeta.
  rewrite overlay_full by done. rewrite Hih.
  pose proof (headers_length self Hv) as Hhdr.
  destruct Hch as [E|E].
  - rewrite E in Hlt, Hlen.
    assert (0 < BMP_width self * BMP_height self) by nia.
    rewrite Hbc, E. change (8 * 3 =? 32) with false. cbv beta iota zeta.
    rewrite Out_bind_ret. cbv beta iota zeta.
    cbn [width height bit_count hdr_size].
    fold (BMP_width self) (BMP_height self).
    rewrite (proj2 (Z.ltb_ge (BMP_height self) 0)) by lia. cbn [when].
    rewrite Out_bind_ret.
    replace (muls32 (muls32 (BMP_width self) (BMP_height self)) (8 * 3) `quot` 8)
      with (Z.of_nat (length (data self))).
    2:{ unfold muls32. rewrite (s32_id (BMP_width self * BMP_height self)) by lia.
        rewrite s32_id by lia.
        replace (BMP_width self * BMP_height self * (8 * 3))
          with (BMP_width self * BMP_height self * 3 * 8) by lia.
        rewrite Z.quot_mul by lia. lia. }
    unfold resize_int. rewrite (proj2 (Z.ltb_ge _ 0)) by lia.
    cbn [data BMP_init]. rewrite resize_nil, Nat2Z.id, Out_bind_quiet.
    rewrite length_replicate.
    unfold seekg. cbn [good content]. rewrite <- Hhdr.
    rewrite Z.rem_mod_nonneg by lia.
    destruct (Z.eqb_spec (BMP_width self mod 4) 0) as [E4|E4].
    + rewrite (stream_read_at file (headers_bytes self) (data self) []
                 (length (headers_bytes self)) (length (data self)));
        [|unfold file, pixel_bytes; rewrite E4, orb_true_r, app_nil_r; done|done..].
      rewrite overlay_full by (by rewrite length_replicate).
      rewrite Hinit by done. unfold mret, Out_mret. cbn [check_color_header cerr].
      do 2 f_equal. apply reread_eq.
      * apply file_header_eq; [done| |done|done|by rewrite Hoff, E].
        rewrite Hfs, E, row_padding_aligned by auto. f_equal.
        unfold sizeof_BMPFileHeader, sizeof_BMPInfoHeader. cbn. lia.
      * apply info_header_eq; [by rewrite Hsize, E|done|done|by rewrite Hbc, E].
      * symmetry. by apply Hinit.
      * done.
      * by rewrite E.
      * by rewrite E4.
    + replace (u32 (muls32 (BMP_width self) (8 * 3) `quot` 8)) with (BMP_width self * 3).
      2:{ unfold muls32. rewrite s32_id by nia.
          replace (BMP_width self * (8 * 3)) with (BMP_width self * 3 * 8) by lia.
          rewrite Z.quot_mul by lia. rewrite u32_id; lia. }
      rewrite make_stride_aligned_4 by lia.
      cbn [quiet mbind option_bind]. rewrite padding_4 by lia.
      replace ((- (BMP_width self * 3)) mod 4) with (row_padding self)
        by (unfold row_padding; by rewrite E).
      pose proof (row_padding_range self) as Hpad.
      destruct (read_rows_spec (Z.to_nat (BMP_width self * 3)) (Z.to_nat (row_padding self))
                  (data self) (Z.to_nat (BMP_height self)) 0 (length (headers_bytes self))
                  file (headers_bytes self) [] (replicate (length (data self)) 0))
        as (d' & Hread & Hlen' & Hd'); [lia|nia|by rewrite length_replicate|lia| |done|].
      { unfold file. rewrite app_nil_r, pixel_bytes_rows by done. by rewrite E. }
      rewrite !Z2Nat.id in Hread by lia. change (Z.of_nat 0) with 0 in Hread.
      rewrite Hread. cbn [mbind option_bind].
      assert (d' = data self) as ->.
      { apply list_eq. intros i. rewrite Hd'. case_decide as Hi; [done|].
        rewrite !lookup_ge_None_2; [done|nia|rewrite length_replicate; nia]. }
      rewrite Hinit by done. cbn [check_color_header cerr]. unfold quiet.
      do 2 f_equal. apply reread_eq.
      * apply file_header_eq; [done| |done|done|by rewrite Hoff, E].
        rewrite Hfs, E. f_equal.
        unfold sizeof_BMPFileHeader, sizeof_BMPInfoHeader. cbn. lia.
      * apply info_header_eq; [by rewrite Hsize, E|done|done|by rewrite Hbc, E].
      * symmetry. by apply Hinit.
      * done.
      * by rewrite E.
      * rewrite (proj2 (Z.eqb_neq _ 0) E4). by rewrite E.
  - rewrite E in Hlt, Hlen.
    assert (0 < BMP_width self * BMP_height self) by nia.
    destruct (Hcolor E) as [Hch Hchlen].
    rewrite Hbc, E. change (8 * 4 =? 32) with true. cbv beta iota zeta.
    replace (hdr_size (bmp_info_header self) >=? sizeof_BMPInfoHeader + sizeof_BMPColorHeader)
      with true by (by rewrite Hsize, E).
    rewrite (stream_read_at file
               (BMPFileHeader_bytes (file_header self)
                ++ BMPInfoHeader_bytes (bmp_info_header self))
               (BMPColorHeader_bytes (bmp_color_header self)) (pixel_bytes self)
               _ (Z.to_nat sizeof_BMPColorHeader));
      [|by unfold file, headers_bytes; rewrite E, <- !app_assoc|done|by rewrite Hchlen].
    cbv beta iota zeta.
    rewrite overlay_full by (by rewrite Hchlen). rewrite Hch.
    rewrite check_color_header_bind. cbn [mret Out_mret cerr result].
    rewrite app_nil_r, Out_bind_Some.
    match goal with
    | |- mkOut (_ ++ cerr ?t) (result ?t) = _ =>
      assert (t = mkOut [] (Some (reread junk self))) as ->;
        [|cbn [cerr result]; by rewrite app_nil_r]
    end.
    cbv beta iota zeta.
    cbn [width height bit_count hdr_size].
    fold (BMP_width self) (BMP_height self).
    rewrite (proj2 (Z.ltb_ge (BMP_height self) 0)) by lia. cbn [when].
    rewrite Out_bind_ret.
    replace (muls32 (muls32 (BMP_width self) (BMP_height self)) (8 * 4) `quot` 8)
      with (Z.of_nat (length (data self))).
    2:{ unfold muls32. rewrite (s32_id (BMP_width self * BMP_height self)) by lia.
        rewrite s32_id by lia.
        replace (BMP_width self * BMP_height self * (8 * 4))
          with (BMP_width self * BMP_height self * 4 * 8) by lia.
        rewrite Z.quot_mul by lia. lia. }
    unfold resize_int. rewrite (proj2 (Z.ltb_ge _ 0)) by lia.
    cbn [data BMP_init]. rewrite resize_nil, Nat2Z.id, Out_bind_quiet.
    rewrite length_replicate.
    unfold seekg. cbn [good content]. rewrite <- Hhdr.
    rewrite Z.rem_mod_nonneg by lia.
    destruct (Z.eqb_spec (BMP_width self mod 4) 0) as [E4|E4].
    + rewrite (stream_read_at file (headers_bytes self) (data self) []
                 (length (headers_bytes self)) (length (data self)));
        [|unfold file, pixel_bytes; rewrite E4, orb_true_r, app_nil_r; done|done..].
      rewrite overlay_full by (by rewrite length_replicate).
      unfold mret, Out_mret.
      do 2 f_equal. apply reread_eq.
      * apply file_header_eq; [done| |done|done|by rewrite Hoff, E].
        rewrite Hfs, E, row_padding_aligned by auto. f_equal.
        unfold sizeof_BMPFileHeader, sizeof_BMPInfoHeader, sizeof_BMPColorHeader. cbn. lia.
      * apply info_header_eq; [by rewrite Hsize, E|done|done|by rewrite Hbc, E].
      * done.
      * done.
      * by rewrite E.
      * by rewrite E4.
    + replace (u32 (muls32 (BMP_width self) (8 * 4) `quot` 8)) with (BMP_width self * 4).
      2:{ unfold muls32. rewrite s32_id by nia.
          replace (BMP_width self * (8 * 4)) with (BMP_width self * 4 * 8) by lia.
          rewrite Z.quot_mul by lia. rewrite u32_id; lia. }
      rewrite make_stride_aligned_4 by lia.
      cbn [quiet mbind option_bind]. rewrite padding_4 by lia.
      replace ((- (BMP_width self * 4)) mod 4) with (row_padding self)
        by (unfold row_padding; by rewrite E).
      pose proof (row_padding_range self) as Hpad.
      destruct (read_rows_spec (Z.to_nat (BMP_width self * 4)) (Z.to_nat (row_padding self))
                  (data self) (Z.to_nat (BMP_height self)) 0 (length (headers_bytes self))
                  file (headers_bytes self) [] (replicate (length (data self)) 0))
        as (d' & Hread & Hlen' & Hd'); [lia|nia|by rewrite length_replicate|lia| |done|].
      { unfold file. rewrite app_nil_r, pixel_bytes_rows by done. by rewrite E. }
      rewrite !Z2Nat.id in Hread by lia. change (Z.of_nat 0) with 0 in Hread.
      rewrite Hread. cbn [mbind option_bind].
      assert (d' = data self) as ->.
      { apply list_eq. intros i. rewrite Hd'. case_decide as Hi; [done|].
        rewrite !lookup_ge_None_2; [done|nia|rewrite length_replicate; nia]. }
      unfold quiet.
      do 2 f_equal. apply reread_eq.
      * apply file_header_eq; [done| |done|done|by rewrite Hoff, E].
        rewrite Hfs, E. f_equal.
        unfold sizeof_BMPFileHeader, sizeof_BMPInfoHeader, sizeof_BMPColorHeader. cbn. lia.
      * apply info_header_eq; [by rewrite Hsize, E|done|done|by rewrite Hbc, E].
      * done.
      * done.
      * by rewrite E.
      * rewrite (proj2 (Z.eqb_neq _ 0) E4). by rewrite E.
Qed.

(** C4 (amended): for a valid 24- or 32-bit image whose
    [width * height * bit_count] is below 2^31, decoding the bytes produced
    by encoding it yields the image again: the same file header, info header
    and colour header (which a valid image holds in canonical form), the
    same buffer and the same number of channels.  Encoding prints nothing;
    decoding prints only what the check of the colour masks of a 32-bit
    image prints. *)
Theorem Decode_Encode_roundtrip (image : BMP) (junk : Z) :
  valid_image image →
  BMP_width image * BMP_height image * bit_count (bmp_info_header image) < 2 ^ 31 →
  ∃ bytes decoded,
    Encode image = mkOut [] (Some bytes)
    ∧ result (Decode junk bytes) = Some decoded
    ∧ cerr (Decode junk bytes) = cerr (check_color_header (bmp_color_header image))
    ∧ file_header decoded = file_header image
    ∧ bmp_info_header decoded = bmp_info_header image
    ∧ bmp_color_header decoded = bmp_color_header image
    ∧ data decoded = data image
    ∧ channels decoded = channels image.
Proof.
  intros Hv Hfit. exists (headers_bytes image ++ pixel_bytes image), (reread junk image).
  split; [by apply Encode_valid|].
  rewrite Decode_valid by done. by cbn.
Qed.

(** ** The header part of [read] *)

(** [read] is its header part followed by [read_data]. *)
Lemma read_unfold self inp :
  read self inp
  = if good inp then
      let '(got, inp) := stream_read inp (Z.to_nat sizeof_BMPFileHeader) in
      let fh := BMPFileHeader_of_bytes (overlay got (BMPFileHeader_bytes (file_header self))) in
      _ ← when (negb (file_type fh =? 0x4D42)) (warn "Error! Unrecognized file format.\n");
      let '(got, inp) := stream_read inp (Z.to_nat sizeof_BMPInfoHeader) in
      let ih := BMPInfoHeader_of_bytes
                  (overlay got (BMPInfoHeader_bytes (bmp_info_header self))) in
      '(ch, inp) ←
        (if bit_count ih =? 32 then
           if hdr_size ih >=? sizeof_BMPInfoHeader + sizeof_BMPColorHeader then
             let '(got, inp) := stream_read inp (Z.to_nat sizeof_BMPColorHeader) in
             let ch := BMPColorHeader_of_bytes
                         (overlay got (BMPColorHeader_bytes (bmp_color_header self))) in
             _ ← check_color_header ch;
             mret (ch, inp)
           else
             _ ← warn "Error! The file does not seem to contain bit mask information\n";
             _ ← warn "Error! Unrecognized file format.\n";
             mret (bmp_color_header self, inp)
         else mret (bmp_color_header self, inp));
      read_data self fh ih ch inp
    else _ ← warn "Unable to open the input image file.\n"; mret self.
Proof. reflexivity. Qed.

Lemma Out_eta {A : Type} (m : Out A) : m = mkOut (cerr m) (result m).
Proof. by destruct m. Qed.

Lemma when_bind {B : Type} (c : bool) (s : string) (f : unit → Out B) :
  when c (warn s) ≫= f = mkOut ((if c then [s] else []) ++ cerr (f tt)) (result (f tt)).
Proof. destruct c; [done|]. cbn [when]. rewrite Out_bind_ret. apply Out_eta. Qed.



(** ... with the colour header of a 32-bit file whose info header
    announces it ... *)
Lemma Decode_headers_masks junk fh ih ch rest :
  file_header_ok fh → info_header_ok ih → color_header_ok ch →
  bit_count ih = 32 → sizeof_BMPInfoHeader + sizeof_BMPColorHeader <= hdr_size ih →
  let file := BMPFileHeader_bytes fh ++ BMPInfoHeader_bytes ih
              ++ BMPColorHeader_bytes ch ++ rest in
  Decode junk file
  = _ ← when (negb (file_type fh =? 0x4D42)) (warn "Error! Unrecognized file format.\n");
    _ ← check_color_header ch;
    read_data (BMP_init junk) fh ih ch (mkIfstream file 138 true).
Proof.
  intros (?&?&?&?&?) (?&?&?&?&?&?&?&?&?&?&?) (?&?&?&?&?&Hun&?) Hbc Hsz file.
  pose proof (length_BMPColorHeader_bytes ch Hun) as Hchlen.
  unfold Decode, BMP_open, open_in. rewrite read_unfold. cbn [good].
  rewrite (stream_read_at file [] (BMPFileHeader_bytes fh)
             (BMPInfoHeader_bytes ih ++ BMPColorHeader_bytes ch ++ rest)
             0 (Z.to_nat sizeof_BMPFileHeader)); [|done..].
  cbv beta iota zeta. rewrite overlay_full by done.
  rewrite <- (app_nil_r (BMPFileHeader_bytes fh)), BMPFileHeader_roundtrip by done.
  rewrite !when_bind. f_equal; f_equal.
  all: rewrite (stream_read_at file (BMPFileHeader_bytes fh) (BMPInfoHeader_bytes ih)
             (BMPColorHeader_bytes ch ++ rest) _ (Z.to_nat sizeof_BMPInfoHeader)); [|done..].
  all: cbv beta iota zeta; rewrite overlay_full by done.
  all: rewrite <- (app_nil_r (BMPInfoHeader_bytes ih)), BMPInfoHeader_roundtrip by done.
  all: rewrite Hbc, Z.eqb_refl;
    replace (hdr_size ih >=? sizeof_BMPInfoHeader + sizeof_BMPColorHeader) with true
      by (symmetry; apply Z.geb_le; lia).
  all: rewrite (stream_read_at file (BMPFileHeader_bytes fh ++ BMPInfoHeader_bytes ih)
             (BMPColorHeader_bytes ch) rest _ (Z.to_nat sizeof_BMPColorHeader));
    [|by unfold file; rewrite <- !app_assoc|done|by rewrite Hchlen].
  all: cbv beta iota zeta; rewrite overlay_full by (by rewrite Hchlen).
  all: rewrite <- (app_nil_r (BMPColorHeader_bytes ch)), BMPColorHeader_roundtrip by done.
  all: rewrite !check_color_header_bind; cbn [mret Out_mret cerr result];
    by rewrite app_nil_r, Out_bind_Some.
Qed.



(** ** An image too large for the [int] arithmetic of [read] *)

Lemma large_image_valid d :
  Z.of_nat (length d) = 2 ^ 29 → valid_image (large_image_with d).
Proof.
  intros Hd. split; [|split].
  - unfold layout_ok, large_image_with, BMP_width, BMP_height.
    cbn [channels bmp_info_header width height data]. rewrite Hd. lia.
  - unfold fields_in_range, is_u16, is_u32, is_s32. cbn.
    repeat split; try lia. repeat constructor; lia.
  - unfold canonical, large_image_with, row_padding, BMP_width, BMP_height.
    cbn [file_header bmp_info_header bmp_color_header channels data row_stride
         file_type bit_count offset_data hdr_size file_size width height].
    rewrite Hd. repeat split; try reflexivity; intros; lia.
Qed.

Lemma large_image_encode d :
  Encode (large_image_with d)
  = mkOut [] (Some (headers_bytes (large_image_with d) ++ d)).
Proof.
  unfold Encode, write, open_out, write_headers_and_data. cbn [is_open].
  change (bit_count (bmp_info_header (large_image_with d)) =? 32) with true.
  cbv beta iota.
  rewrite write_headers_valid by (cbn; auto).
  unfold stream_write. cbn [is_open written app].
  rewrite Out_bind_ret. done.
Qed.

Lemma large_image_decode junk d :
  Decode junk (headers_bytes (large_image_with d) ++ d)
  = mkOut [] (Some (mkBMP (mkFileHeader 0x4D42 138 0 0 138)
                          (mkInfoHeader 124 16384 8192 1 32 3 0 0 0 0 0)
                          BMPColorHeader_init [] 4 0)).
Proof.
  unfold headers_bytes. change (channels (large_image_with d) =? 4) with true. cbv iota.
  rewrite <- !app_assoc.
  rewrite Decode_headers_masks.
  - reflexivity.
  - unfold file_header_ok, is_u16, is_u32. cbn. lia.
  - unfold info_header_ok, is_u16, is_u32, is_s32. cbn. lia.
  - unfold color_header_ok, is_u32. cbn. repeat split; try lia. repeat constructor; lia.
  - done.
  - done.
Qed.

Lemma large_image_built :
  BMP_new 16384 8192 true = mkOut [] (Some large_image).
Proof.
  unfold BMP_new, large_image, large_image_with.
  change ((16384 <=? 0) || (8192 <=? 0)) with false. cbn [when].
  rewrite Out_bind_ret. cbv zeta.
  assert (u32 (muls32 16384 4) = 65536) as -> by reflexivity.
  assert (mul32 65536 (u32 8192) = 2 ^ 29) as -> by reflexivity.
  rewrite resize_nil, length_replicate, Z2Nat.id by lia.
  assert (u32 (sizeof_BMPFileHeader + sizeof_BMPInfoHeader + sizeof_BMPColorHeader + 2 ^ 29)
          = 536871050) as -> by reflexivity.
  assert (sizeof_BMPFileHeader + sizeof_BMPInfoHeader + sizeof_BMPColorHeader = 138) as ->
    by reflexivity.
  assert (sizeof_BMPInfoHeader + sizeof_BMPColorHeader = 124) as -> by reflexivity.
  assert (32 / 8 = 4) as -> by reflexivity.
  reflexivity.
Qed.

Lemma large_image_data d : Z.of_nat (length d) = 2 ^ 29 → [] ≠ data (large_image_with d).
Proof. intros Hd E. unfold large_image_with in E. cbn [data] in E. by rewrite <- E in Hd. Qed.

Lemma large_buffer_length : Z.of_nat (length (replicate (Z.to_nat (2 ^ 29)) 0)) = 2 ^ 29.
Proof. rewrite length_replicate. apply Z2Nat.id. lia. Qed.

(** C4, as stated, fails: [large_image], the valid 32-bit image of
    16384 x 8192 pixels that [BMP(16384, 8192, true)] builds, is encoded
    without any diagnostic, but [read] computes [width * height * bit_count]
    in [int], where 2^32 wraps around to 0: decoding the bytes yields an
    image with an empty buffer. *)
Lemma Decode_Encode_roundtrip_overflows :
  valid_image large_image
  ∧ BMP_new 16384 8192 true = mkOut [] (Some large_image)
  ∧ ∃ bytes decoded,
      Encode large_image = mkOut [] (Some bytes)
      ∧ Decode 0 bytes = mkOut [] (Some decoded)
      ∧ data decoded = []
      ∧ data decoded ≠ data large_image.
Proof.
  split; [exact (large_image_valid _ large_buffer_length)|].
  split; [exact large_image_built|].
  eexists _, _. split; [exact (large_image_encode _)|].
  split; [exact (large_image_decode 0 _)|]. split; [reflexivity|].
  exact (large_image_data _ large_buffer_length).
Qed.

(** Validity does not depend on the contents of the buffer: the images
    obtained from a valid one by [setPixel], the drawer, the flips or
    [clear] are valid. *)
Lemma valid_image_set_data self d :
  valid_image self → length d = length (data self) → valid_image (set_data self d).
Proof.
  intros (Hok & Hrange & Hcan) Hlen.
  split; [by apply layout_ok_set_data|]. split; [done|].
  unfold canonical in *. cbn. by rewrite Hlen.
Qed.

(** The images the constructor builds from positive dimensions are valid,
    and [read] can size their buffer when [w * h * bit_count] fits an [int]. *)
Lemma BMP_new_valid (w h : Z) (a : bool) :
  0 < w → 0 < h → w * h * (if a then 32 else 24) < 2 ^ 31 →
  ∃ img, BMP_new w h a = mkOut [] (Some img) ∧ valid_image img ∧ size_fits_int img.
Proof.
  intros Hw Hh Hlt.
  assert (0 < w * h) by nia.
  destruct (BMP_new_positive w h a) as (img & Hnew & Hdata); [done|done|destruct a; nia..|].
  exists img. split; [done|].
  enough (layout_ok img ∧ size_fits_int img ∧ fields_in_range img ∧ canonical img)
    as (? & ? & ? & ?) by (split; [split; [done|split; done]|done]).
  destruct (BMP_new_data w h a) as (img' & Hres & _ & Hbw & Hbh & Hbc).
  rewrite Hnew in Hres. injection Hres as <-.
  assert (Z.of_nat (length (data img)) = w * h * channels img) as Hlen.
  { rewrite Hdata, length_replicate, Hbc. destruct a; lia. }
  unfold BMP_new in Hnew.
  replace ((w <=? 0) || (h <=? 0)) with false in Hnew
    by (symmetry; apply orb_false_intro; lia).
  destruct a.
  - cbn -[Z.pow Z.mul resize u32 mul32 muls32] in Hnew. injection Hnew as Himg.
    split; [|split; [|split] ].
    + unfold layout_ok. rewrite Hbw, Hbh, Hbc. repeat split; lia.
    + unfold size_fits_int. rewrite <- Himg. cbn.
      rewrite <- Himg in Hbw, Hbh. cbn in Hbw, Hbh. lia.
    + rewrite <- Himg. unfold fields_in_range, is_u16, is_u32, is_s32. cbn.
      repeat split; try lia. repeat constructor; lia.
    + unfold canonical. rewrite Hbc, row_padding_aligned by (left; done).
      rewrite <- Himg at 1 2 3 4 5. cbn -[Z.pow resize u32 mul32 muls32].
      repeat split; try done.
      rewrite resize_nil, length_replicate. f_equal.
      rewrite <- Himg. cbn -[Z.pow resize u32 mul32 muls32].
      rewrite resize_nil, length_replicate. lia.
  - cbn -[Z.pow Z.mul resize u32 mul32 muls32 sub32 make_stride_aligned] in Hnew.
    rewrite make_stride_aligned_4 in Hnew by apply u32_range.
    cbn -[Z.pow Z.mul resize u32 mul32 muls32 sub32] in Hnew.
    rewrite padding_4 in Hnew by apply u32_range.
    replace (u32 (muls32 w 3)) with (w * 3) in Hnew
      by (unfold muls32; rewrite s32_id, u32_id; nia).
    injection Hnew as Himg.
    split; [|split; [|split] ].
    + unfold layout_ok. rewrite Hbw, Hbh, Hbc. repeat split; lia.
    + unfold size_fits_int. rewrite <- Himg. cbn.
      rewrite <- Himg in Hbw, Hbh. cbn in Hbw, Hbh. lia.
    + rewrite <- Himg. unfold fields_in_range, is_u16, is_u32, is_s32. cbn.
      repeat split; try lia. repeat constructor; lia.
    + unfold canonical. rewrite Hbc.
      assert (row_padding img = (- (w * 3)) mod 4) as Hpad
        by (unfold row_padding; by rewrite Hbw, Hbc).
      rewrite Hpad, Hbh, Hbw.
      rewrite <- Himg at 1 2 3 4 5 6 7. cbn -[Z.pow Z.mul resize u32 mul32 muls32 Z.modulo].
      repeat split; try done.
      * rewrite resize_nil, length_replicate.
        rewrite (u32_id h) by lia. unfold mul32 at 2. unfold u32 at 1 3.
        unfold u32. by rewrite Zplus_mod_idemp_r.
      * intros _ _. by rewrite <- Himg.
Qed.


(** ** Row strides and alignment *)

Lemma neg_mod_succ (a s : Z) :
  0 < a → s mod a ≠ 0 → (- (s + 1)) mod a = (- s) mod a - 1.
Proof.
  intros Ha Hs.
  pose proof (Z.mod_pos_bound s a Ha).
  replace (- (s + 1)) with (- s - 1) by lia.
  rewrite <- Zminus_mod_idemp_l. apply Z.mod_small.
  rewrite (Z.mod_opp_l_nz s a) by lia. lia.
Qed.

Lemma make_stride_aligned_loop_spec fuel a s :
  0 < a → 0 <= s → s + (- s) mod a < 2 ^ 32 → (- s) mod a <= Z.of_nat fuel →
  make_stride_aligned_loop fuel a s = Some (s + (- s) mod a).
Proof.
  intros Ha. revert s.
  induction fuel as [|fuel IH]; intros s Hs Hlt Hk; cbn [make_stride_aligned_loop];
    destruct (Z.eqb_spec (s mod a) 0) as [E|E].
  - rewrite Z.mod_opp_l_z by lia. f_equal. lia.
  - exfalso. pose proof (Z.mod_pos_bound (- s) a Ha).
    assert ((- s) mod a = 0) as E0 by lia.
    apply E. rewrite <- (Z.opp_involutive s). by rewrite Z.mod_opp_l_z by lia.
  - rewrite Z.mod_opp_l_z by lia. f_equal. lia.
  - pose proof (neg_mod_succ a s Ha E) as Hsucc.
    pose proof (Z.mod_pos_bound (- (s + 1)) a Ha).
    unfold add32. rewrite u32_id by lia.
    rewrite IH by lia. f_equal. lia.
Qed.

(** X1: [make_stride_aligned]: for a positive alignment and a row stride such
    that their sum fits in [uint32_t], the loop ends and returns the least
    multiple of the alignment that is at least the row stride; the result
    exceeds the row stride by less than the alignment. *)
Theorem make_stride_aligned_least_multiple (row_stride align_stride : Z) :
  0 < align_stride → 0 <= row_stride → row_stride + align_stride <= 2 ^ 32 →
  ∃ new_stride,
    make_stride_aligned row_stride align_stride = Some new_stride
    ∧ row_stride <= new_stride < row_stride + align_stride
    ∧ new_stride mod align_stride = 0
    ∧ ∀ m, row_stride <= m → m mod align_stride = 0 → new_stride <= m.
Proof.
  intros Ha Hs Hlt.
  pose proof (Z.mod_pos_bound (- row_stride) align_stride Ha) as Hpad.
  exists (row_stride + (- row_stride) mod align_stride).
  split; [|split; [lia|split] ].
  - unfold make_stride_aligned. apply make_stride_aligned_loop_spec; lia.
  - rewrite Z.add_mod_idemp_r by lia.
    replace (row_stride + - row_stride) with 0 by lia. by apply Z.mod_0_l; lia.
  - intros m Hm Hmod.
    apply Z.mod_divide in Hmod as [k ->]; [|lia].
    assert ((row_stride + (- row_stride) mod align_stride) mod align_stride = 0) as Hns.
    { rewrite Z.add_mod_idemp_r by lia.
      replace (row_stride + - row_stride) with 0 by lia. apply Z.mod_0_l; lia. }
    apply Z.mod_divide in Hns as [j Hj]; [|lia].
    rewrite Hj in *.
    assert (j <= k); [|nia].
    destruct (Z_le_gt_dec j k); [done|]. exfalso. nia.
Qed.

(** ** Composing pixel writes *)

Lemma put_pixel_put_pixel ch pos c1 c2 d :
  put_pixel ch pos c2 (put_pixel ch pos c1 d) = put_pixel ch pos c2 d.
Proof.
  apply list_eq. intros i. unfold put_pixel.
  destruct (ch =? 4); rewrite !list_lookup_insert, !length_insert;
    repeat case_decide; try lia; done.
Qed.

Lemma put_pixel_comm ch p q c1 c2 d :
  3 <= ch <= 4 → (p + Z.to_nat ch ≤ q ∨ q + Z.to_nat ch ≤ p)%nat →
  put_pixel ch q c2 (put_pixel ch p c1 d) = put_pixel ch p c1 (put_pixel ch q c2 d).
Proof.
  intros Hch Hdis. apply list_eq. intros i. unfold put_pixel.
  destruct (Z.eqb_spec ch 4); rewrite !list_lookup_insert, !length_insert;
    repeat case_decide; try lia; done.
Qed.

Lemma Out_bind_nil {A B : Type} (a : A) (f : A → Out B) : mkOut [] (Some a) ≫= f = f a.
Proof. apply Out_bind_ret. Qed.

Lemma setPixel_inside_set_data self d x y c :
  layout_ok self → length d = length (data self) →
  0 <= x < BMP_width self → 0 <= y < BMP_height self →
  setPixel (set_data self d) x y c
  = mkOut [] (Some (set_data self
      (put_pixel (channels self) (Z.to_nat (pixel_pos self x y)) c d))).
Proof.
  intros Hok Hd Hx Hy.
  by rewrite setPixel_inside by (done || by apply layout_ok_set_data).
Qed.

(** X2: Two calls of [setPixel] at pixels inside the image: at the same pixel
    the second colour wins, the result is that of the second call alone; at
    different pixels the two calls can be exchanged. *)
Theorem setPixel_twice (self : BMP) (x y x' y' : Z) (c1 c2 : Color) :
  layout_ok self →
  0 <= x < BMP_width self → 0 <= y < BMP_height self →
  0 <= x' < BMP_width self → 0 <= y' < BMP_height self →
  setPixel self x y c1 ≫= (λ self', setPixel self' x' y' c2)
  = if decide (x' = x ∧ y' = y) then setPixel self x y c2
    else setPixel self x' y' c2 ≫= (λ self', setPixel self' x y c1).
Proof.
  intros Hok Hx Hy Hx' Hy'.
  destruct (layout_bounds _ Hok) as (Hch & _).
  rewrite !(setPixel_inside self) by done.
  rewrite !Out_bind_nil.
  rewrite !setPixel_inside_set_data by (done || apply length_put_pixel).
  case_decide as Heq.
  - destruct Heq as [-> ->]. by rewrite put_pixel_put_pixel.
  - do 3 f_equal. apply put_pixel_comm; [done|].
    assert (mkPoint x y ≠ mkPoint x' y') as Hne by (intros [= ??]; lia).
    pose proof (pixel_disjoint self (mkPoint x y) (mkPoint x' y') Hok
                  ltac:(by split) ltac:(by split) Hne) as Hdis.
    cbn [px py] in Hdis.
    pose proof (pixel_pos_bound self Hok x y Hx Hy).
    pose proof (pixel_pos_bound self Hok x' y' Hx' Hy').
    lia.
Qed.

(** X3: [setPixel] at a pixel inside the image prints nothing, keeps the
    headers and the size of the buffer, and leaves every other pixel of the
    image as [getPixel] read it before. *)
Theorem setPixel_changes_one_pixel (self : BMP) (x y : Z) (c : Color) :
  layout_ok self → 0 <= x < BMP_width self → 0 <= y < BMP_height self →
  ∃ self',
    setPixel self x y c = mkOut [] (Some self')
    ∧ set_data self' (data self) = self
    ∧ length (data self') = length (data self)
    ∧ ∀ x' y', 0 <= x' < BMP_width self → 0 <= y' < BMP_height self →
        ¬ (x' = x ∧ y' = y) →
        getPixel self' x' y' = getPixel self x' y'.
Proof.
  intros Hok Hx Hy.
  destruct (setPixel_pixel_of self (mkPoint x y) c Hok) as (d & Hset & Hlen & _ & Hother);
    [by split|].
  exists (set_data self d). split; [done|]. split; [apply set_data_back|]. split; [done|].
  intros x' y' Hx' Hy' Hne.
  rewrite (getPixel_inside (set_data self d)), (getPixel_inside self);
    [|done|done|done|by apply layout_ok_set_data|done|done].
  f_equal. apply (Hother (mkPoint x' y')); [by split|].
  intros [= ??]. by apply Hne.
Qed.

(** ** The bounds test of [getPixel] and [setPixel] *)

Lemma cerr_setPixel self x y c :
  cerr (setPixel self x y c)
  = if outside self x y then ["setPixel error: Pixel is outside!\n"%string] else [].
Proof. unfold setPixel. by destruct (outside self x y). Qed.

Lemma cerr_getPixel self x y :
  cerr (getPixel self x y)
  = if outside self x y then ["setPixel error: Pixel is outside!\n"%string] else [].
Proof. unfold getPixel. by destruct (outside self x y). Qed.

Lemma result_setPixel_pos self x y x' y' c :
  pixel_pos self x y = pixel_pos self x' y' →
  result (setPixel self x y c) = result (setPixel self x' y' c).
Proof.
  intros E. unfold setPixel. rewrite E.
  by destruct (outside self x y), (outside self x' y').
Qed.

Lemma result_getPixel_pos self x y x' y' :
  pixel_pos self x y = pixel_pos self x' y' →
  result (getPixel self x y) = result (getPixel self x' y').
Proof.
  intros E. unfold getPixel. rewrite E.
  by destruct (outside self x y), (outside self x' y').
Qed.

(** The pixel index [y * width + x], for any [x]: the index of the pixel
    [x mod width] of the row [y + x / width]. *)
Lemma pixel_pos_linear self x y :
  layout_ok self → 0 <= x → 0 <= y →
  y * BMP_width self + x < BMP_width self * BMP_height self →
  let n := y * BMP_width self + x in
  (0 <= n mod BMP_width self < BMP_width self ∧ 0 <= n / BMP_width self < BMP_height self)
  ∧ pixel_pos self x y = pixel_pos self (n mod BMP_width self) (n / BMP_width self).
Proof.
  intros Hok Hx Hy Hn n.
  destruct (layout_bounds _ Hok) as (Hch & Hw & Hh & Hwh & Hlt & _).
  assert (0 <= n) by (unfold n; nia).
  assert (BMP_width self * BMP_height self < 2 ^ 32) by nia.
  pose proof (Z.mod_pos_bound n (BMP_width self) ltac:(lia)) as Hmod.
  assert (0 <= n / BMP_width self < BMP_height self) as Hdiv.
  { split; [apply Z.div_pos; lia|]. apply Z.div_lt_upper_bound; [lia|]. fold n in Hn. lia. }
  split; [done|].
  rewrite (pixel_pos_exact self Hok (n mod BMP_width self) (n / BMP_width self)) by done.
  rewrite (Z.mul_comm (n / _)), <- Z.div_mod by lia.
  unfold pixel_pos, mul32, add32. rewrite (u32_id (BMP_width self)) by lia.
  assert (0 <= y * BMP_width self) by nia.
  rewrite (u32_id (y * _)) by (unfold n in *; lia).
  rewrite (u32_id (_ + x)) by (unfold n in *; lia).
  apply u32_id. unfold n in *. nia.
Qed.

Lemma pixel_of_is_Some self d p :
  layout_ok self → length d = length (data self) → inside self p →
  is_Some (pixel_of self d p).
Proof.
  intros Hok Hd [Hx Hy]. destruct (layout_bounds _ Hok) as (Hch & _).
  pose proof (pixel_pos_bound self Hok _ _ Hx Hy) as [??].
  unfold pixel_of, fetch_pixel.
  set (pos := Z.to_nat (pixel_pos self (px p) (py p))) in *.
  destruct (lookup_lt_is_Some_2 d (pos + 2)) as [? ->]; [lia|].
  destruct (lookup_lt_is_Some_2 d (pos + 1)) as [? ->]; [lia|].
  destruct (lookup_lt_is_Some_2 d pos) as [? ->]; [lia|].
  cbn. destruct (Z.eqb_spec (channels self) 4); [|done].
  destruct (lookup_lt_is_Some_2 d (pos + 3)) as [? ->]; [lia|]. done.
Qed.

(** X4: The bounds check of [setPixel] and [getPixel] does not stop the
    access.  Whenever the index [y * width + x] is inside the buffer, also
    with [x] at or beyond the width, both reach the pixel
    [((y * width + x) mod width, (y * width + x) / width)] of the image,
    a pixel of a later row when [x >= width]: [setPixel] overwrites it and
    [getPixel] returns its colour.  The diagnostic is printed only when [x]
    exceeds the width; [x = width] is silent. *)
Theorem pixel_access_beyond_row (self : BMP) (x y : Z) (c : Color) :
  layout_ok self → 0 <= x → 0 <= y →
  y * BMP_width self + x < BMP_width self * BMP_height self →
  let n := y * BMP_width self + x in
  let x' := n mod BMP_width self in
  let y' := n / BMP_width self in
  let log := if x >? BMP_width self
             then ["setPixel error: Pixel is outside!\n"%string] else [] in
  (0 <= x' < BMP_width self ∧ 0 <= y' < BMP_height self)
  ∧ (∃ self', setPixel self x' y' c = mkOut [] (Some self')
            ∧ setPixel self x y c = mkOut log (Some self'))
  ∧ (∃ c', getPixel self x' y' = mkOut [] (Some c')
         ∧ getPixel self x y = mkOut log (Some c')).
Proof.
  intros Hok Hx Hy Hn n x' y' log.
  destruct (layout_bounds _ Hok) as (Hch & Hw & Hh & Hwh & Hlt & _).
  destruct (pixel_pos_linear self x y Hok Hx Hy Hn) as [[Hx' Hy'] Hpos].
  fold n x' y' in Hx', Hy', Hpos.
  assert (y < BMP_height self) by nia.
  assert (outside self x y = (x >? BMP_width self)) as Hout.
  { unfold outside. rewrite !u32_id by lia.
    rewrite (proj2 (Z.ltb_ge x 0)), (proj2 (Z.ltb_ge y 0)) by lia.
    replace (y >? BMP_height self) with false by (symmetry; rewrite Z.gtb_ltb; apply Z.ltb_ge; lia).
    cbn. by rewrite !orb_false_r. }
  split; [done|]. split.
  - destruct (setPixel_pixel_of self (mkPoint x' y') c Hok) as (d & Hset & _); [by split|].
    cbn [px py] in Hset. eexists. split; [exact Hset|].
    rewrite (Out_eta (setPixel self x y c)), cerr_setPixel, Hout.
    rewrite (result_setPixel_pos self x y x' y') by done. by rewrite Hset.
  - pose proof (getPixel_inside self Hok x' y' Hx' Hy') as Hget.
    pose proof (pixel_pos_bound self Hok x' y' Hx' Hy') as [??].
    destruct (pixel_of_is_Some self (data self) (mkPoint x' y') Hok eq_refl ltac:(by split))
      as [c' Hc']. unfold pixel_of in Hc'. cbn [px py] in Hc'.
    rewrite Hc' in Hget. exists c'. split; [done|].
    rewrite (Out_eta (getPixel self x y)), cerr_getPixel, Hout.
    rewrite (result_getPixel_pos self x y x' y') by done. by rewrite Hget.
Qed.


(** ** [clear] and [CopyFrom] *)

(** X6: After [clear(v)] every pixel of the image reads as the colour with the
    three components [v], and alpha [v] with 4 channels (255 with 3); the
    headers and the layout are kept. *)
Theorem getPixel_after_clear (self : BMP) (v x y : Z) :
  layout_ok self → 0 <= x < BMP_width self → 0 <= y < BMP_height self →
  layout_ok (clear self v)
  ∧ set_data (clear self v) (data self) = self
  ∧ getPixel (clear self v) x y
    = mkOut [] (Some (mkColor v v v (if channels self =? 4 then v else 255))).
Proof.
  intros Hok Hx Hy.
  assert (layout_ok (clear self v)) as Hok'
    by (apply layout_ok_set_data; [done|apply length_replicate]).
  split; [done|]. split; [apply set_data_back|].
  rewrite getPixel_inside by done.
  destruct (layout_bounds _ Hok) as (Hch & _).
  pose proof (pixel_pos_bound self Hok x y Hx Hy) as [??].
  f_equal. unfold fetch_pixel, clear. cbn [data channels set_data].
  change (pixel_pos (set_data self _) x y) with (pixel_pos self x y).
  set (pos := Z.to_nat (pixel_pos self x y)) in *.
  rewrite (lookup_replicate_2 _ _ (pos + 2)), (lookup_replicate_2 _ _ (pos + 1)),
    (lookup_replicate_2 _ _ pos) by lia.
  cbn. destruct (Z.eqb_spec (channels self) 4); [|done].
  by rewrite lookup_replicate_2 by lia.
Qed.

(** X7: [CopyFrom(image)]: when the channels, the height and the width of the
    two images agree, the buffer of [image] is copied, silently, the headers
    are kept, and every [getPixel] agrees with that of [image]; otherwise
    [CopyFrom error!] is printed and the image is unchanged. *)
Theorem CopyFrom_copies_or_refuses (self image : BMP) :
  (channels image = channels self ∧ BMP_height image = BMP_height self
   ∧ BMP_width image = BMP_width self →
   ∃ self', CopyFrom self image = mkOut [] (Some self')
          ∧ data self' = data image
          ∧ set_data self' (data self) = self
          ∧ ∀ x y, getPixel self' x y = getPixel image x y)
  ∧ (¬ (channels image = channels self ∧ BMP_height image = BMP_height self
        ∧ BMP_width image = BMP_width self) →
     CopyFrom self image = mkOut ["CopyFrom error!\n"%string] (Some self)).
Proof.
  split.
  - intros (Hc & Hh & Hw). exists (set_data self (data image)).
    split; [|split; [done|split; [apply set_data_back|] ] ].
    + unfold CopyFrom. by rewrite Hc, Hh, Hw, !Z.eqb_refl.
    + intros x y. unfold getPixel, outside, pixel_pos, BMP_width, BMP_height in *. cbn.
      by rewrite Hc, Hh, Hw.
  - intros Hne. unfold CopyFrom.
    destruct (Z.eqb_spec (channels image) (channels self));
      destruct (Z.eqb_spec (BMP_height image) (BMP_height self));
      destruct (Z.eqb_spec (BMP_width image) (BMP_width self)); try done.
    by destruct Hne.
Qed.

(** ** Regions *)

Lemma elem_of_region_calls x y w h q :
  0 <= x → 0 <= y → 0 <= w → 0 <= h → x + w < 2 ^ 32 → y + h < 2 ^ 32 →
  q ∈ region_calls x y w h ↔ x <= px q < x + w ∧ y <= py q < y + h.
Proof.
  intros Hx Hy Hw Hh Hxw Hyh. unfold region_calls, add32. rewrite !u32_id by lia.
  rewrite list_elem_of_bind. setoid_rewrite list_elem_of_bind.
  setoid_rewrite elem_of_seqZ. setoid_rewrite list_elem_of_singleton.
  split.
  - intros (yy & (xx & -> & ?) & ?). cbn. lia.
  - intros [??]. exists (py q). split; [|lia]. exists (px q). split; [by destruct q|lia].
Qed.

Lemma draw_all_getPixel self c calls :
  layout_ok self → Forall (inside self) calls →
  ∃ drawn, draw_all self c calls = mkOut [] (Some drawn)
         ∧ set_data drawn (data self) = self
         ∧ layout_ok drawn
         ∧ ∀ x y, 0 <= x < BMP_width self → 0 <= y < BMP_height self →
             getPixel drawn x y
             = if decide (mkPoint x y ∈ calls) then mkOut [] (Some (stored self c))
               else getPixel self x y.
Proof.
  intros Hok Hall.
  destruct (draw_all_inside self c calls Hok Hall) as (d & Hdraw & Hlen & Hpix).
  exists (set_data self d). split; [done|]. split; [apply set_data_back|].
  split; [by apply layout_ok_set_data|].
  intros x y Hx Hy.
  rewrite (getPixel_inside (set_data self d)), (getPixel_inside self);
    [|done|done|done|by apply layout_ok_set_data|done|done].
  specialize (Hpix (mkPoint x y) ltac:(by split)). unfold pixel_of in Hpix. cbn in Hpix.
  cbn [data set_data channels]. change (pixel_pos (set_data self d) x y) with (pixel_pos self x y).
  rewrite Hpix. by case_decide.
Qed.

Lemma region_calls_inside self x y w h :
  layout_ok self → 0 <= x → 0 <= y → 0 <= w → 0 <= h →
  x + w <= BMP_width self → y + h <= BMP_height self →
  Forall (inside self) (region_calls x y w h).
Proof.
  intros Hok Hx Hy Hw Hh Hxw Hyh.
  destruct (layout_bounds _ Hok) as (_ & HW & HH & _).
  apply Forall_forall. intros q Hq%list_elem_of_In.
  apply elem_of_region_calls in Hq; [|lia..]. unfold inside. lia.
Qed.

(** X8: [drawRegion(x, y, w, h, c)] with the rectangle inside the image prints
    nothing, keeps the headers, gives every pixel of the rectangle
    [x <= x' < x + w], [y <= y' < y + h] the colour [c] (as stored with the
    channels of the image) and leaves every other pixel unchanged. *)
Theorem drawRegion_fills_rectangle (self : BMP) (x y w h : Z) (c : Color) :
  layout_ok self → 0 <= x → 0 <= y → 0 <= w → 0 <= h →
  x + w <= BMP_width self → y + h <= BMP_height self →
  ∃ drawn,
    drawRegion self x y w h c = mkOut [] (Some drawn)
    ∧ set_data drawn (data self) = self
    ∧ ∀ x' y', 0 <= x' < BMP_width self → 0 <= y' < BMP_height self →
        getPixel drawn x' y'
        = if decide (x <= x' < x + w ∧ y <= y' < y + h)
          then mkOut [] (Some (stored self c))
          else getPixel self x' y'.
Proof.
  intros Hok Hx Hy Hw Hh Hxw Hyh.
  destruct (layout_bounds _ Hok) as (_ & HW & HH & _).
  destruct (draw_all_getPixel self c (region_calls x y w h) Hok) as (drawn & Hdraw & Hback & _ & Hpix).
  { by apply region_calls_inside. }
  exists drawn. split; [done|]. split; [done|].
  intros x' y' Hx' Hy'. rewrite Hpix by done.
  destruct (decide (mkPoint x' y' ∈ region_calls x y w h)) as [Hin|Hin];
    rewrite elem_of_region_calls in Hin by lia; cbn [px py] in Hin.
  - by rewrite decide_True.
  - by rewrite decide_False.
Qed.

(** X9: [eraseRegion(x, y, w, h)] on a 32-bit image, with the rectangle inside
    the image, prints nothing, sets every pixel of the rectangle to the
    transparent black [(0, 0, 0, 0)] and leaves every other pixel
    unchanged. *)
Theorem eraseRegion_clears_rectangle (self : BMP) (x y w h : Z) :
  layout_ok self → Channels self = 4 → 0 <= x → 0 <= y → 0 <= w → 0 <= h →
  x + w <= BMP_width self → y + h <= BMP_height self →
  ∃ erased,
    eraseRegion self x y w h = mkOut [] (Some erased)
    ∧ set_data erased (data self) = self
    ∧ ∀ x' y', 0 <= x' < BMP_width self → 0 <= y' < BMP_height self →
        getPixel erased x' y'
        = if decide (x <= x' < x + w ∧ y <= y' < y + h)
          then mkOut [] (Some (mkColor 0 0 0 0))
          else getPixel self x' y'.
Proof.
  intros Hok Hch Hx Hy Hw Hh Hxw Hyh.
  destruct (layout_bounds _ Hok) as (_ & HW & HH & _).
  destruct (draw_all_getPixel self (mkColor 0 0 0 0) (region_calls x y w h) Hok)
    as (drawn & Hdraw & Hback & _ & Hpix).
  { by apply region_calls_inside. }
  exists drawn. split; [|split; [done|] ].
  - unfold eraseRegion. rewrite Hch. cbn [Z.eqb Pos.eqb negb when]. by rewrite Out_bind_ret.
  - intros x' y' Hx' Hy'. rewrite Hpix by done.
    unfold Channels in Hch. unfold stored. rewrite Hch. cbn [Z.eqb Pos.eqb r g b alpha].
    destruct (decide (mkPoint x' y' ∈ region_calls x y w h)) as [Hin|Hin];
      rewrite elem_of_region_calls in Hin by lia; cbn [px py] in Hin.
    + by rewrite decide_True.
    + by rewrite decide_False.
Qed.

Lemma Out_bind_mret_r {A : Type} (m : Out A) : m ≫= mret = m.
Proof.
  destruct m as [log [a|] ]; unfold mbind, Out_mbind, Out_bind; cbn; [|done].
  by rewrite app_nil_r.
Qed.

(** X10: [erasePixel(x, y)] does what [eraseRegion(x, y, 1, 1)] does, diagnostic
    included, whenever [x + 1] and [y + 1] do not wrap around in
    [uint32_t]. *)
Theorem erasePixel_is_unit_region (self : BMP) (x y : Z) :
  0 <= x → x + 1 < 2 ^ 32 → 0 <= y → y + 1 < 2 ^ 32 →
  erasePixel self x y = eraseRegion self x y 1 1.
Proof.
  intros Hx Hx1 Hy Hy1. unfold erasePixel, eraseRegion, region_calls, add32.
  rewrite !u32_id by lia.
  replace (x + 1 - x) with 1 by lia. replace (y + 1 - y) with 1 by lia.
  change (seqZ y 1) with [y]. change (seqZ x 1) with [x].
  change ([y] ≫= λ yy : Z, [x] ≫= λ xx : Z, [mkPoint xx yy]) with [mkPoint x y].
  assert (∀ c, draw_all self c [mkPoint x y] = drawPixel self x y c) as Hone
    by (intros c; apply Out_bind_mret_r).
  by rewrite Hone.
Qed.


(** ** Lines and triangles stay between their end points *)

Lemma in_box_2 (p1 p2 q : Point) :
  px p1 `min` px p2 <= px q <= px p1 `max` px p2 →
  py p1 `min` py p2 <= py q <= py p1 `max` py p2 →
  in_box [p1; p2] q.
Proof.
  intros Hx Hy. unfold in_box. repeat split.
  - destruct (Z.le_ge_cases (px p1) (px p2)); [exists p1|exists p2];
      (split; [rewrite !elem_of_cons; tauto|lia]).
  - destruct (Z.le_ge_cases (px p1) (px p2)); [exists p2|exists p1];
      (split; [rewrite !elem_of_cons; tauto|lia]).
  - destruct (Z.le_ge_cases (py p1) (py p2)); [exists p1|exists p2];
      (split; [rewrite !elem_of_cons; tauto|lia]).
  - destruct (Z.le_ge_cases (py p1) (py p2)); [exists p2|exists p1];
      (split; [rewrite !elem_of_cons; tauto|lia]).
Qed.

Lemma in_box_mono (ps ps' : list Point) (q : Point) :
  (∀ p, p ∈ ps → p ∈ ps') → in_box ps q → in_box ps' q.
Proof.
  intros Hsub ((a & ? & ?) & (b & ? & ?) & (c & ? & ?) & (d & ? & ?)).
  unfold in_box. repeat split; eauto.
Qed.

Lemma in_box_inside self (ps : list Point) (q : Point) :
  Forall (inside self) ps → in_box ps q → inside self q.
Proof.
  intros Hall ((a & Ha & ?) & (b & Hb & ?) & (c & Hc & ?) & (d & Hd & ?)).
  rewrite Forall_forall in Hall.
  apply list_elem_of_In, Hall in Ha, Hb, Hc, Hd.
  unfold inside in *. lia.
Qed.

Lemma drawLine_calls_in_box self x1 y1 x2 y2 :
  layout_ok self → inside self (mkPoint x1 y1) → inside self (mkPoint x2 y2) →
  ∃ calls, drawLine_calls x1 y1 x2 y2 = Some calls
         ∧ Forall (in_box [mkPoint x1 y1; mkPoint x2 y2]) calls.
Proof.
  intros Hok [Hx1 Hy1] [Hx2 Hy2]. cbn in Hx1, Hy1, Hx2, Hy2.
  destruct (layout_bounds _ Hok) as (Hch & Hw & Hh & Hwh & Hlt & _).
  destruct (decide (x1 = x2)) as [Ex|Ex]; destruct (decide (y1 = y2)) as [Ey|Ey].
  - subst. unfold drawLine_calls. rewrite !Z.eqb_refl. cbn [andb].
    eexists. split; [done|]. rewrite !u32_id by lia.
    apply Forall_singleton, in_box_2; cbn; lia.
  - subst x2. pose proof (axis_calls_segment false y1 y2 x1) as Hcalls.
    unfold axis_calls in Hcalls. rewrite Hcalls by lia.
    eexists. split; [done|]. apply Forall_fmap, Forall_seqZ. intros t Ht.
    apply in_box_2; cbn; lia.
  - subst y2. pose proof (axis_calls_segment true x1 x2 y1) as Hcalls.
    unfold axis_calls in Hcalls. rewrite Hcalls by lia.
    eexists. split; [done|]. apply Forall_fmap, Forall_seqZ. intros t Ht.
    apply in_box_2; cbn; lia.
  - assert (BMP_width self < 2 ^ 30 ∧ BMP_height self < 2 ^ 30) as [Hw30 Hh30] by nia.
    destruct (drawLine_general_loop x1 y1 x2 y2) as (loop & Hcalls & Hlen & Hloop);
      [lia..|done|done|].
    cbv zeta in Hloop. rewrite Hcalls. eexists. split; [done|].
    apply Forall_app. split.
    + apply Forall_lookup. intros j p Hp.
      assert (Z.of_nat j < Z.abs (x2 - x1) `max` Z.abs (y2 - y1)).
      { apply lookup_lt_Some in Hp. lia. }
      destruct (Hloop j p Hp) as (k & Hk & _ & ->).
      unfold line_point. case_bool_decide; rewrite !u32_id by nia;
        apply in_box_2; cbn [px py]; nia.
    + apply Forall_singleton. rewrite !u32_id by lia. apply in_box_2; cbn; lia.
Qed.

Lemma drawLine_inside self x1 y1 x2 y2 c :
  layout_ok self → inside self (mkPoint x1 y1) → inside self (mkPoint x2 y2) →
  ∃ calls d,
    Forall (in_box [mkPoint x1 y1; mkPoint x2 y2]) calls
    ∧ drawLine self x1 y1 x2 y2 c = mkOut [] (Some (set_data self d))
    ∧ length d = length (data self)
    ∧ ∀ x y, 0 <= x < BMP_width self → 0 <= y < BMP_height self →
        getPixel (set_data self d) x y
        = if decide (mkPoint x y ∈ calls) then mkOut [] (Some (stored self c))
          else getPixel self x y.
Proof.
  intros Hok Hp1 Hp2.
  destruct (drawLine_calls_in_box self x1 y1 x2 y2 Hok Hp1 Hp2) as (calls & Hcalls & Hbox).
  assert (Forall (inside self) calls) as Hin.
  { eapply Forall_impl; [|exact Hbox]. intros q. apply in_box_inside.
    by repeat apply Forall_cons_2. }
  destruct (draw_all_inside self c calls Hok Hin) as (d & Hdraw & Hlen & Hpix).
  exists calls, d. split; [done|]. split; [|split; [done|] ].
  - unfold drawLine. by rewrite Hcalls.
  - intros x y Hx Hy.
    rewrite (getPixel_inside (set_data self d)), (getPixel_inside self);
      [|done|done|done|by apply layout_ok_set_data|done|done].
    specialize (Hpix (mkPoint x y) ltac:(by split)). unfold pixel_of in Hpix. cbn in Hpix.
    cbn [data set_data channels].
    change (pixel_pos (set_data self d) x y) with (pixel_pos self x y).
    rewrite Hpix. by case_decide.
Qed.

(** X11: [drawLine] between two points of the image prints nothing and keeps
    the headers and the size of the buffer; every pixel of the image keeps
    its colour or gets the colour [c], and the pixels outside the bounding
    box of the two end points keep theirs. *)
Theorem drawLine_stays_in_bounding_box (self : BMP) (x1 y1 x2 y2 : Z) (c : Color) :
  layout_ok self → inside self (mkPoint x1 y1) → inside self (mkPoint x2 y2) →
  ∃ drawn,
    drawLine self x1 y1 x2 y2 c = mkOut [] (Some drawn)
    ∧ set_data drawn (data self) = self
    ∧ length (data drawn) = length (data self)
    ∧ ∀ x y, 0 <= x < BMP_width self → 0 <= y < BMP_height self →
        (getPixel drawn x y = getPixel self x y
         ∨ getPixel drawn x y = mkOut [] (Some (stored self c)))
        ∧ (¬ in_box [mkPoint x1 y1; mkPoint x2 y2] (mkPoint x y) →
           getPixel drawn x y = getPixel self x y).
Proof.
  intros Hok Hp1 Hp2.
  destruct (drawLine_inside self x1 y1 x2 y2 c Hok Hp1 Hp2)
    as (calls & d & Hbox & Hdraw & Hlen & Hpix).
  exists (set_data self d). split; [done|]. split; [apply set_data_back|]. split; [done|].
  intros x y Hx Hy. rewrite Hpix by done.
  rewrite Forall_forall in Hbox.
  destruct (decide (mkPoint x y ∈ calls)) as [Hin|Hin].
  - split; [by right|]. intros Hout. destruct Hout. by apply Hbox, list_elem_of_In.
  - split; [by left|done].
Qed.

(** X12: [drawTriangle] with its three vertices in the image prints nothing and
    keeps the headers and the size of the buffer; every pixel of the image
    keeps its colour or gets the colour [c], and the pixels outside the
    bounding box of the three vertices keep theirs. *)
Theorem drawTriangle_stays_in_bounding_box (self : BMP) (x1 y1 x2 y2 x3 y3 : Z) (c : Color) :
  layout_ok self →
  inside self (mkPoint x1 y1) → inside self (mkPoint x2 y2) → inside self (mkPoint x3 y3) →
  ∃ drawn,
    drawTriangle self x1 y1 x2 y2 x3 y3 c = mkOut [] (Some drawn)
    ∧ set_data drawn (data self) = self
    ∧ length (data drawn) = length (data self)
    ∧ ∀ x y, 0 <= x < BMP_width self → 0 <= y < BMP_height self →
        (getPixel drawn x y = getPixel self x y
         ∨ getPixel drawn x y = mkOut [] (Some (stored self c)))
        ∧ (¬ in_box [mkPoint x1 y1; mkPoint x2 y2; mkPoint x3 y3] (mkPoint x y) →
           getPixel drawn x y = getPixel self x y).
Proof.
  intros Hok Hp1 Hp2 Hp3.
  destruct (layout_bounds _ Hok) as (_ & Hw & Hh & _).
  pose proof Hp1 as [Hx1 Hy1]. pose proof Hp2 as [Hx2 Hy2]. pose proof Hp3 as [Hx3 Hy3].
  cbn in Hx1, Hy1, Hx2, Hy2, Hx3, Hy3.
  unfold drawTriangle. rewrite !s32_id by lia.
  destruct (drawLine_inside self x1 y1 x2 y2 c Hok Hp1 Hp2)
    as (calls1 & d1 & Hbox1 & -> & Hlen1 & Hpix1).
  rewrite Out_bind_nil.
  assert (layout_ok (set_data self d1)) as Hok1 by (by apply layout_ok_set_data).
  destruct (drawLine_inside (set_data self d1) x2 y2 x3 y3 c Hok1 Hp2 Hp3)
    as (calls2 & d2 & Hbox2 & -> & Hlen2 & Hpix2).
  rewrite Out_bind_nil.
  change (set_data (set_data self d1) d2) with (set_data self d2) in *.
  cbn [data set_data] in Hlen2.
  assert (layout_ok (set_data self d2)) as Hok2 by (apply layout_ok_set_data; [done|congruence]).
  destruct (drawLine_inside (set_data self d2) x3 y3 x1 y1 c Hok2 Hp3 Hp1)
    as (calls3 & d3 & Hbox3 & -> & Hlen3 & Hpix3).
  change (set_data (set_data self d2) d3) with (set_data self d3) in *.
  cbn [data set_data] in Hlen3.
  exists (set_data self d3). split; [done|]. split; [apply set_data_back|].
  split; [cbn; congruence|].
  intros x y Hx Hy.
  rewrite (Hpix3 x y Hx Hy), (Hpix2 x y Hx Hy), (Hpix1 x y Hx Hy).
  change (stored (set_data self d2) c) with (stored self c).
  change (stored (set_data self d1) c) with (stored self c).
  rewrite Forall_forall in Hbox1, Hbox2, Hbox3.
  split.
  - repeat case_decide; auto.
  - intros Hout.
    rewrite !decide_False; [done|..]; intros Hin%list_elem_of_In; apply Hout.
    + apply Hbox1 in Hin. eapply in_box_mono; [|exact Hin]. intros p. rewrite !elem_of_cons. tauto.
    + apply Hbox2 in Hin. eapply in_box_mono; [|exact Hin]. intros p. rewrite !elem_of_cons. tauto.
    + apply Hbox3 in Hin. eapply in_box_mono; [|exact Hin]. intros p. rewrite !elem_of_cons. tauto.
Qed.

(** X13: A horizontal or a vertical line does not depend on the order of its
    end points: [drawLine(a, k, b, k)] is [drawLine(b, k, a, k)] and
    [drawLine(k, a, k, b)] is [drawLine(k, b, k, a)], for all arguments. *)
Theorem drawLine_axis_aligned_symmetric (self : BMP) (a b k : Z) (c : Color) :
  drawLine self a k b k c = drawLine self b k a k c
  ∧ drawLine self k a k b c = drawLine self k b k a c.
Proof.
  unfold drawLine, drawLine_calls. rewrite !Z.eqb_refl, !(Z.eqb_sym b a).
  destruct (Z.eqb_spec a b) as [->|Hne]; cbn [andb]; [done|].
  destruct (Z.gtb_spec a b), (Z.gtb_spec b a); try lia; done.
Qed.

(** ** What the flips do to the pixels *)

Lemma fetch_pixel_shift ch (p p' : nat) d d' :
  3 <= ch <= 4 →
  (∀ k, (k < Z.to_nat ch)%nat → d' !! (p + k)%nat = d !! (p' + k)%nat) →
  fetch_pixel ch p d' = fetch_pixel ch p' d.
Proof.
  intros Hch Heq. unfold fetch_pixel.
  rewrite (Heq 2%nat), (Heq 1%nat) by lia.
  pose proof (Heq 0%nat ltac:(lia)) as H0. rewrite !Nat.add_0_r in H0. rewrite H0.
  destruct (Z.eqb_spec ch 4) as [->|]; [|done].
  by rewrite (Heq 3%nat) by lia.
Qed.

(** One exchange: the two pixels trade places, the others stay. *)
Lemma exchange_pixel_of self p q d :
  layout_ok self → inside self p → inside self q → p ≠ q →
  length d = length (data self) →
  ∃ d', exchange (channels self) (pixel_pos self (px p) (py p))
                 (pixel_pos self (px q) (py q)) d = Some d'
      ∧ length d' = length (data self)
      ∧ pixel_of self d' p = pixel_of self d q
      ∧ pixel_of self d' q = pixel_of self d p
      ∧ ∀ t, inside self t → t ≠ p → t ≠ q → pixel_of self d' t = pixel_of self d t.
Proof.
  intros Hok Hp Hq Hne Hd.
  destruct (layout_bounds _ Hok) as (Hch & _).
  destruct (step_spec self Hok p q d Hp Hq Hne Hd) as (d' & E & Hd' & Hix).
  pose proof (pos_disjoint self Hok p q Hp Hq Hne) as Hdis. cbv beta in Hdis.
  exists d'. split; [done|]. split; [done|]. unfold pixel_of.
  split; [|split].
  - apply fetch_pixel_shift; [done|]. intros k Hk.
    rewrite Hix, swap_index_first by lia. f_equal. lia.
  - apply fetch_pixel_shift; [done|]. intros k Hk.
    rewrite Hix, swap_index_second by lia. f_equal. lia.
  - intros t Ht Htp Htq.
    pose proof (pos_disjoint self Hok t p Ht Hp Htp) as Hdp. cbv beta in Hdp.
    pose proof (pos_disjoint self Hok t q Ht Hq Htq) as Hdq. cbv beta in Hdq.
    apply fetch_pixel_shift; [done|]. intros k Hk.
    rewrite Hix, swap_index_other by lia. done.
Qed.

(** A loop of exchanges of pairwise disjoint pairs of pixels: every pair
    has traded places, the other pixels are where they were. *)
Lemma pixel_exchanges_permute {A : Type} (self : BMP)
    (src dst : A → Point) (body : A → list Z → option (list Z)) (steps : list A) :
  layout_ok self →
  (∀ a, a ∈ steps → inside self (src a) ∧ inside self (dst a) ∧ src a ≠ dst a) →
  (∀ a a', a ∈ steps → a' ∈ steps → a ≠ a' →
     src a ≠ src a' ∧ src a ≠ dst a' ∧ dst a ≠ src a' ∧ dst a ≠ dst a') →
  (∀ a, a ∈ steps →
     body a = exchange (channels self)
                (pixel_pos self (px (src a)) (py (src a)))
                (pixel_pos self (px (dst a)) (py (dst a)))) →
  NoDup steps →
  ∀ d, length d = length (data self) →
  ∃ d', for_each steps body d = Some d'
      ∧ length d' = length (data self)
      ∧ (∀ a, a ∈ steps →
           pixel_of self d' (src a) = pixel_of self d (dst a)
           ∧ pixel_of self d' (dst a) = pixel_of self d (src a))
      ∧ (∀ t, inside self t → (∀ a, a ∈ steps → t ≠ src a ∧ t ≠ dst a) →
           pixel_of self d' t = pixel_of self d t).
Proof.
  intros Hok. induction steps as [|a steps IH]; intros Hin Hdis Hbody Hnd d Hd.
  - exists d. split; [done|]. split; [done|]. split; [|done].
    intros a Ha. by apply elem_of_nil in Ha.
  - pose proof (NoDup_cons_1_1 _ _ Hnd) as Ha. apply NoDup_cons_1_2 in Hnd.
    destruct (Hin a ltac:(by left)) as (Hp & Hq & Hne).
    destruct (exchange_pixel_of self (src a) (dst a) d Hok Hp Hq Hne Hd)
      as (d1 & E1 & Hd1 & Hsrc & Hdst & Hother).
    destruct (IH ltac:(intros; apply Hin; by right)
                 ltac:(intros; apply Hdis; (by right) || done)
                 ltac:(intros; apply Hbody; by right) Hnd d1 Hd1)
      as (d' & E & Hd' & Hpairs & Hrest).
    exists d'. split; [|split; [done|split] ].
    + cbn [for_each]. rewrite (Hbody a) by (by left). rewrite E1. done.
    + intros a' [->|Ha']%elem_of_cons.
      * rewrite !Hrest; [done|done| |done|].
        -- intros a' Ha'. assert (a ≠ a') by (by intros ->).
           destruct (Hdis a a') as (?&?&?&?); [by left|by right|done|]. done.
        -- intros a' Ha'. assert (a ≠ a') by (by intros ->).
           destruct (Hdis a a') as (?&?&?&?); [by left|by right|done|]. done.
      * assert (a ≠ a') by (by intros ->).
        destruct (Hdis a a') as (?&?&?&?); [by left|by right|done|].
        destruct (Hin a') as (? & ? & _); [by right|].
        destruct (Hpairs a' Ha') as [-> ->].
        rewrite !Hother by done. done.
    + intros t Ht Hnone.
      destruct (Hnone a ltac:(by left)) as [??].
      rewrite Hrest; [by apply Hother|done|].
      intros a' Ha'. apply Hnone. by right.
Qed.

Lemma NoDup_pairs (l1 l2 : list Z) :
  NoDup l1 → NoDup l2 → NoDup (a ← l1; (λ j, (a, j)) <$> l2).
Proof.
  intros H1 H2. apply NoDup_bind; [|intros a _|done].
  - intros a a' ab. rewrite !list_elem_of_fmap.
    intros _ _ (j & -> & _) (j' & [= ->] & _). done.
  - apply NoDup_fmap_2; [|done]. by intros j j' [= ->].
Qed.

Lemma getPixel_set_data self d x y :
  layout_ok self → length d = length (data self) →
  0 <= x < BMP_width self → 0 <= y < BMP_height self →
  getPixel (set_data self d) x y = mkOut [] (pixel_of self d (mkPoint x y)).
Proof.
  intros Hok Hd Hx Hy.
  by rewrite getPixel_inside by (done || by apply layout_ok_set_data).
Qed.

Lemma FlipX_pixels self :
  layout_ok self →
  ∃ d, FlipX self = Some (set_data self d)
     ∧ length d = length (data self)
     ∧ ∀ x y, 0 <= x < BMP_width self → 0 <= y < BMP_height self →
         pixel_of self d (mkPoint x y)
         = pixel_of self (data self) (mkPoint (BMP_width self - 1 - x) y).
Proof.
  intros Hok. destruct (layout_bounds _ Hok) as (Hch & Hw & Hh & _).
  unfold FlipX. rewrite for_each_nested.
  set (steps := seqZ 0 (u32 (BMP_height self)) ≫= _).
  set (body := λ ab : Z * Z, exchange _ _ _).
  assert (2 * (BMP_width self / 2) <= BMP_width self) as Hhalf by (apply Z.mul_div_le; lia).
  assert (BMP_width self < 2 * (BMP_width self / 2) + 2) as Hhalf'.
  { pose proof (Z.div_mod (BMP_width self) 2 ltac:(lia)).
    pose proof (Z.mod_pos_bound (BMP_width self) 2 ltac:(lia)). lia. }
  assert (∀ ab, ab ∈ steps ↔ 0 <= ab.1 < BMP_height self ∧ 0 <= ab.2 < BMP_width self / 2)
    as Hsteps.
  { intros ab. unfold steps. rewrite elem_of_pairs, !elem_of_seqZ, !u32_id by lia. lia. }
  destruct (pixel_exchanges_permute self
              (λ ab, mkPoint ab.2 ab.1) (λ ab, mkPoint (BMP_width self - 1 - ab.2) ab.1)
              body steps Hok) with (d := data self) as (d' & E & Hlen & Hpairs & Hrest).
  - intros [y x] [Hy Hx]%Hsteps; cbn in *.
    repeat split; cbn; try lia. intros [= ?]. lia.
  - intros [y x] [y' x'] [Hy Hx]%Hsteps [Hy' Hx']%Hsteps Hne; cbn in *.
    repeat split; intros [= ??]; try lia; apply Hne; f_equal; lia.
  - intros [y x] [Hy Hx]%Hsteps; cbn in *. unfold body. cbn.
    by rewrite FlipX_pos2_mirror by (done || lia).
  - unfold steps. rewrite !u32_id by lia. apply NoDup_pairs; apply NoDup_seqZ.
  - done.
  - exists d'. rewrite E. split; [done|]. split; [done|].
    intros x y Hx Hy.
    destruct (decide (x < BMP_width self / 2)) as [Hl|Hl].
    { destruct (Hpairs (y, x)) as [Hd _]; [apply Hsteps; cbn; lia|]. done. }
    destruct (decide (BMP_width self - 1 - x < BMP_width self / 2)) as [Hr|Hr].
    { destruct (Hpairs (y, BMP_width self - 1 - x)) as [_ Hd]; [apply Hsteps; cbn; lia|].
      cbn [fst snd] in Hd.
      replace (BMP_width self - 1 - (BMP_width self - 1 - x)) with x in Hd by lia. done. }
    replace (BMP_width self - 1 - x) with x by lia.
    apply Hrest; [by split|].
    intros [y' x'] [Hy' Hx']%Hsteps. cbn in *. split; intros [= ??]; lia.
Qed.

Lemma FlipY_pixels self :
  layout_ok self →
  ∃ d, FlipY self = Some (set_data self d)
     ∧ length d = length (data self)
     ∧ ∀ x y, 0 <= x < BMP_width self → 0 <= y < BMP_height self →
         pixel_of self d (mkPoint x y)
         = pixel_of self (data self) (mkPoint x (BMP_height self - 1 - y)).
Proof.
  intros Hok. destruct (layout_bounds _ Hok) as (Hch & Hw & Hh & _).
  unfold FlipY. rewrite for_each_nested.
  set (steps := seqZ 0 (u32 (BMP_width self)) ≫= _).
  set (body := λ ab : Z * Z, exchange _ _ _).
  assert (2 * (BMP_height self / 2) <= BMP_height self) as Hhalf by (apply Z.mul_div_le; lia).
  assert (BMP_height self < 2 * (BMP_height self / 2) + 2) as Hhalf'.
  { pose proof (Z.div_mod (BMP_height self) 2 ltac:(lia)).
    pose proof (Z.mod_pos_bound (BMP_height self) 2 ltac:(lia)). lia. }
  assert (∀ ab, ab ∈ steps ↔ 0 <= ab.1 < BMP_width self ∧ 0 <= ab.2 < BMP_height self / 2)
    as Hsteps.
  { intros ab. unfold steps. rewrite elem_of_pairs, !elem_of_seqZ, !u32_id by lia. lia. }
  destruct (pixel_exchanges_permute self
              (λ ab, mkPoint ab.1 ab.2) (λ ab, mkPoint ab.1 (BMP_height self - 1 - ab.2))
              body steps Hok) with (d := data self) as (d' & E & Hlen & Hpairs & Hrest).
  - intros [x y] [Hx Hy]%Hsteps; cbn in *.
    repeat split; cbn; try lia. intros [= ?]. lia.
  - intros [x y] [x' y'] [Hx Hy]%Hsteps [Hx' Hy']%Hsteps Hne; cbn in *.
    repeat split; intros [= ??]; try lia; apply Hne; f_equal; lia.
  - intros [x y] [Hx Hy]%Hsteps; cbn in *. unfold body. cbn.
    by rewrite FlipY_pos2_mirror by (done || lia).
  - unfold steps. rewrite !u32_id by lia. apply NoDup_pairs; apply NoDup_seqZ.
  - done.
  - exists d'. rewrite E. split; [done|]. split; [done|].
    intros x y Hx Hy.
    destruct (decide (y < BMP_height self / 2)) as [Hl|Hl].
    { destruct (Hpairs (x, y)) as [Hd _]; [apply Hsteps; cbn; lia|]. done. }
    destruct (decide (BMP_height self - 1 - y < BMP_height self / 2)) as [Hr|Hr].
    { destruct (Hpairs (x, BMP_height self - 1 - y)) as [_ Hd]; [apply Hsteps; cbn; lia|].
      cbn [fst snd] in Hd.
      replace (BMP_height self - 1 - (BMP_height self - 1 - y)) with y in Hd by lia. done. }
    replace (BMP_height self - 1 - y) with y by lia.
    apply Hrest; [by split|].
    intros [x' y'] [Hx' Hy']%Hsteps. cbn in *. split; intros [= ??]; lia.
Qed.

(** X14: [FlipX] mirrors the image left to right: the headers are kept and the
    pixel [(x, y)] of the result is the pixel [(width - 1 - x, y)] of the
    image. *)
Theorem FlipX_mirrors_columns (self : BMP) :
  layout_ok self →
  ∃ flipped,
    FlipX self = Some flipped
    ∧ set_data flipped (data self) = self
    ∧ ∀ x y, 0 <= x < BMP_width self → 0 <= y < BMP_height self →
        getPixel flipped x y = getPixel self (BMP_width self - 1 - x) y.
Proof.
  intros Hok. destruct (FlipX_pixels self Hok) as (d & E & Hlen & Hpix).
  exists (set_data self d). split; [done|]. split; [apply set_data_back|].
  intros x y Hx Hy.
  rewrite getPixel_set_data, (getPixel_inside self) by (done || lia).
  by rewrite Hpix.
Qed.

(** X15: [FlipY] mirrors the image top to bottom: the headers are kept and the
    pixel [(x, y)] of the result is the pixel [(x, height - 1 - y)] of the
    image. *)
Theorem FlipY_mirrors_rows (self : BMP) :
  layout_ok self →
  ∃ flipped,
    FlipY self = Some flipped
    ∧ set_data flipped (data self) = self
    ∧ ∀ x y, 0 <= x < BMP_width self → 0 <= y < BMP_height self →
        getPixel flipped x y = getPixel self x (BMP_height self - 1 - y).
Proof.
  intros Hok. destruct (FlipY_pixels self Hok) as (d & E & Hlen & Hpix).
  exists (set_data self d). split; [done|]. split; [apply set_data_back|].
  intros x y Hx Hy.
  rewrite getPixel_set_data, (getPixel_inside self) by (done || lia).
  by rewrite Hpix.
Qed.

(** ** Buffers with the same pixels are equal *)

Lemma fetch_pixel_inj ch (pos : nat) d d' :
  3 <= ch <= 4 → (pos + Z.to_nat ch ≤ length d)%nat → (pos + Z.to_nat ch ≤ length d')%nat →
  fetch_pixel ch pos d = fetch_pixel ch pos d' →
  ∀ k, (k < Z.to_nat ch)%nat → d !! (pos + k)%nat = d' !! (pos + k)%nat.
Proof.
  intros Hch Hd Hd' E k Hk. unfold fetch_pixel in E.
  destruct (lookup_lt_is_Some_2 d pos) as [a0 Ha0]; [lia|].
  destruct (lookup_lt_is_Some_2 d (pos + 1)) as [a1 Ha1]; [lia|].
  destruct (lookup_lt_is_Some_2 d (pos + 2)) as [a2 Ha2]; [lia|].
  destruct (lookup_lt_is_Some_2 d' pos) as [b0 Hb0]; [lia|].
  destruct (lookup_lt_is_Some_2 d' (pos + 1)) as [b1 Hb1]; [lia|].
  destruct (lookup_lt_is_Some_2 d' (pos + 2)) as [b2 Hb2]; [lia|].
  rewrite Ha0, Ha1, Ha2, Hb0, Hb1, Hb2 in E. cbn in E.
  destruct (Z.eqb_spec ch 4) as [->|Hne].
  - destruct (lookup_lt_is_Some_2 d (pos + 3)) as [a3 Ha3]; [lia|].
    destruct (lookup_lt_is_Some_2 d' (pos + 3)) as [b3 Hb3]; [lia|].
    rewrite Ha3, Hb3 in E. cbn in E. injection E as -> -> -> ->.
    destruct k as [|[|[|[|k] ] ] ]; rewrite ?Nat.add_0_r; try congruence. lia.
  - injection E as -> -> ->.
    destruct k as [|[|[|k] ] ]; rewrite ?Nat.add_0_r; try congruence. lia.
Qed.

Lemma pixels_ext self d d' :
  layout_ok self → length d = length (data self) → length d' = length (data self) →
  (∀ x y, 0 <= x < BMP_width self → 0 <= y < BMP_height self →
     pixel_of self d (mkPoint x y) = pixel_of self d' (mkPoint x y)) →
  d = d'.
Proof.
  intros Hok Hd Hd' Hpix.
  destruct (layout_bounds _ Hok) as (Hch & Hw & Hh & Hwh & Hlt & Hlen).
  apply list_eq. intros i.
  destruct (decide (i < length (data self))%nat) as [Hi|Hi];
    [|by rewrite !lookup_ge_None_2 by lia].
  set (n := Z.of_nat i / channels self).
  set (k := Z.of_nat i mod channels self).
  assert (Z.of_nat i = channels self * n + k) as Ei by (apply Z.div_mod; lia).
  assert (0 <= k < channels self) as Hk by (apply Z.mod_pos_bound; lia).
  assert (0 <= n < BMP_width self * BMP_height self) as Hn.
  { split; [apply Z.div_pos; lia|]. apply Z.div_lt_upper_bound; [lia|nia]. }
  set (x := n mod BMP_width self). set (y := n / BMP_width self).
  assert (n = BMP_width self * y + x) as En by (apply Z.div_mod; lia).
  assert (0 <= x < BMP_width self) as Hx by (apply Z.mod_pos_bound; lia).
  assert (0 <= y < BMP_height self) as Hy.
  { split; [apply Z.div_pos; lia|]. apply Z.div_lt_upper_bound; lia. }
  specialize (Hpix x y Hx Hy). unfold pixel_of in Hpix. cbn [px py] in Hpix.
  pose proof (pixel_pos_exact self Hok x y Hx Hy) as Hpos.
  pose proof (pixel_pos_bound self Hok x y Hx Hy) as [??].
  pose proof (fetch_pixel_inj (channels self) (Z.to_nat (pixel_pos self x y)) d d' Hch
                ltac:(lia) ltac:(lia) Hpix (Z.to_nat k) ltac:(lia)) as Hbyte.
  replace (Z.to_nat (pixel_pos self x y) + Z.to_nat k)%nat with i in Hbyte; [done|].
  rewrite Hpos. nia.
Qed.

(** X16: [FlipX] then [FlipY] gives the same image as [FlipY] then [FlipX]: the
    image turned by 180 degrees, whose pixel [(x, y)] is the pixel
    [(width - 1 - x, height - 1 - y)] of the original. *)
Theorem flips_commute (self : BMP) :
  layout_ok self →
  ∃ rotated,
    FlipX self ≫= FlipY = Some rotated
    ∧ FlipY self ≫= FlipX = Some rotated
    ∧ set_data rotated (data self) = self
    ∧ ∀ x y, 0 <= x < BMP_width self → 0 <= y < BMP_height self →
        getPixel rotated x y
        = getPixel self (BMP_width self - 1 - x) (BMP_height self - 1 - y).
Proof.
  intros Hok.
  destruct (FlipX_pixels self Hok) as (dx & Ex & Hlx & Hpx).
  destruct (FlipY_pixels self Hok) as (dy & Ey & Hly & Hpy).
  assert (layout_ok (set_data self dx)) as Hokx by (by apply layout_ok_set_data).
  assert (layout_ok (set_data self dy)) as Hoky by (by apply layout_ok_set_data).
  destruct (FlipY_pixels (set_data self dx) Hokx) as (dxy & Exy & Hlxy & Hpxy).
  destruct (FlipX_pixels (set_data self dy) Hoky) as (dyx & Eyx & Hlyx & Hpyx).
  change (set_data (set_data self dx) dxy) with (set_data self dxy) in Exy.
  change (set_data (set_data self dy) dyx) with (set_data self dyx) in Eyx.
  cbn [data set_data] in Hlxy, Hlyx, Hpxy, Hpyx.
  change (BMP_width (set_data self dy)) with (BMP_width self) in Hpyx.
  change (BMP_height (set_data self dx)) with (BMP_height self) in Hpxy.
  assert (∀ x y, 0 <= x < BMP_width self → 0 <= y < BMP_height self →
            pixel_of self dxy (mkPoint x y)
            = pixel_of self (data self)
                (mkPoint (BMP_width self - 1 - x) (BMP_height self - 1 - y))) as Hrot.
  { intros x y Hx Hy.
    transitivity (pixel_of self dx (mkPoint x (BMP_height self - 1 - y))).
    - apply (Hpxy x y Hx Hy).
    - apply Hpx; lia. }
  assert (dyx = dxy) as ->.
  { apply (pixels_ext self); [done|congruence|congruence|].
    intros x y Hx Hy. rewrite Hrot by done.
    transitivity (pixel_of self dy (mkPoint (BMP_width self - 1 - x) y)).
    - apply (Hpyx x y Hx Hy).
    - apply Hpy; lia. }
  exists (set_data self dxy).
  split; [by rewrite Ex|]. split; [by rewrite Ey|]. split; [apply set_data_back|].
  intros x y Hx Hy.
  rewrite getPixel_set_data, (getPixel_inside self) by (done || congruence || lia).
  by rewrite Hrot.
Qed.

(** ** Grey scale *)

Lemma BlackWhite_pixel_of self p wr wg wb d c0 v :
  layout_ok self → inside self p → length d = length (data self) →
  pixel_of self d p = Some c0 → grey_level wr wg wb c0 = Some v →
  ∃ d', BlackWhite_pixel (pixel_pos self (px p) (py p)) wr wg wb d = Some d'
      ∧ length d' = length (data self)
      ∧ pixel_of self d' p = Some (mkColor v v v (alpha c0))
      ∧ ∀ t, inside self t → t ≠ p → pixel_of self d' t = pixel_of self d t.
Proof.
  intros Hok Hp Hd Hc0 Hv. pose proof Hp as [Hx Hy].
  destruct (layout_bounds _ Hok) as (Hch & _ & _ & _ & Hlt & Hlen).
  pose proof (pixel_pos_bound self Hok _ _ Hx Hy) as [Hpos0 Hpos1].
  unfold pixel_of in Hc0 |- *. unfold BlackWhite_pixel.
  set (pos := pixel_pos self (px p) (py p)) in *.
  rewrite <- (Z2Nat.id pos) by done.
  rewrite !vget_nat by lia.
  change (Z.to_nat 0) with 0%nat. change (Z.to_nat 1) with 1%nat.
  change (Z.to_nat 2) with 2%nat. rewrite Nat.add_0_r.
  unfold fetch_pixel in Hc0.
  destruct (d !! (Z.to_nat pos + 2)%nat) as [a2|] eqn:E2; [|done].
  destruct (d !! (Z.to_nat pos + 1)%nat) as [a1|] eqn:E1; [|done].
  destruct (d !! Z.to_nat pos) as [a0|] eqn:E0; [|done].
  cbn [mbind option_bind] in Hc0 |- *.
  assert (grey_level wr wg wb c0 = grey_level wr wg wb (Color3 a2 a1 a0)) as Hg.
  { destruct (channels self =? 4); [|by injection Hc0 as <-].
    destruct (d !! (Z.to_nat pos + 3)%nat); [|done]. by injection Hc0 as <-. }
  rewrite Hg in Hv. unfold grey_level in Hv. cbn [r g b Color3] in Hv. rewrite Hv.
  cbn [mbind option_bind].
  do 3 (rewrite vset_nat by (rewrite ?length_insert; lia); cbn [mbind option_bind]).
  change (Z.to_nat 0) with 0%nat. change (Z.to_nat 1) with 1%nat.
  change (Z.to_nat 2) with 2%nat. rewrite Nat.add_0_r, !Nat2Z.id.
  eexists. split; [done|]. split; [by rewrite !length_insert|]. split.
  - unfold fetch_pixel.
    rewrite !list_lookup_insert, !length_insert.
    repeat (case_decide; try lia). cbn [mbind option_bind].
    revert Hc0. destruct (channels self =? 4).
    + destruct (d !! (Z.to_nat pos + 3)%nat); [|done]. by intros [= <-].
    + by intros [= <-].
  - intros t Ht Hne.
    pose proof (pos_disjoint self Hok t p Ht Hp Hne) as Hdis. cbv beta in Hdis.
    fold pos in Hdis.
    apply fetch_pixel_ext; [done|]. intros i Hi.
    rewrite !list_lookup_insert_ne by lia. done.
Qed.

Lemma BlackWhite_loop {A : Type} (self : BMP) (wr wg wb : float)
    (at_ : A → Point) (steps : list A) :
  layout_ok self →
  (∀ a, a ∈ steps → inside self (at_ a)) →
  NoDup (at_ <$> steps) →
  ∀ d, length d = length (data self) →
  (∀ a, a ∈ steps →
     ∃ c0 v, pixel_of self d (at_ a) = Some c0 ∧ grey_level wr wg wb c0 = Some v) →
  ∃ d', for_each steps
          (λ a, BlackWhite_pixel (pixel_pos self (px (at_ a)) (py (at_ a))) wr wg wb) d
        = Some d'
      ∧ length d' = length (data self)
      ∧ (∀ a, a ∈ steps →
           ∃ c0 v, pixel_of self d (at_ a) = Some c0 ∧ grey_level wr wg wb c0 = Some v
                   ∧ pixel_of self d' (at_ a) = Some (mkColor v v v (alpha c0)))
      ∧ (∀ t, inside self t → t ∉ at_ <$> steps → pixel_of self d' t = pixel_of self d t).
Proof.
  intros Hok. induction steps as [|a steps IH]; intros Hin Hnd d Hd Hgrey.
  - exists d. split; [done|]. split; [done|]. split; [|done].
    intros a Ha. by apply elem_of_nil in Ha.
  - rewrite fmap_cons in Hnd.
    pose proof (NoDup_cons_1_1 _ _ Hnd) as Ha. apply NoDup_cons_1_2 in Hnd.
    destruct (Hgrey a ltac:(by left)) as (c0 & v & Hc0 & Hv).
    destruct (BlackWhite_pixel_of self (at_ a) wr wg wb d c0 v Hok
                ltac:(apply Hin; by left) Hd Hc0 Hv) as (d1 & E1 & Hd1 & Hat & Hother).
    assert (∀ a', a' ∈ steps → at_ a' ≠ at_ a) as Hne.
    { intros a' Ha' E. apply Ha. rewrite <- E. by apply list_elem_of_fmap_2. }
    destruct (IH ltac:(intros; apply Hin; by right) Hnd d1 Hd1)
      as (d' & E & Hd' & Hsteps & Hrest).
    { intros a' Ha'. rewrite Hother; [|apply Hin; by right|by apply Hne].
      apply Hgrey. by right. }
    exists d'. split; [|split; [done|split] ].
    + cbn [for_each]. rewrite E1. done.
    + intros a' [->|Ha']%elem_of_cons.
      * exists c0, v. split; [done|]. split; [done|].
        rewrite Hrest; [done|apply Hin; by left|done].
      * destruct (Hsteps a' Ha') as (c1 & v1 & Hc1 & Hv1 & Hfinal).
        rewrite Hother in Hc1; [|apply Hin; by right|by apply Hne]. eauto.
    + intros t Ht Hnotin. rewrite fmap_cons in Hnotin.
      rewrite Hrest; [|done|by intros ?; apply Hnotin; right].
      apply Hother; [done|]. intros ->. apply Hnotin. by left.
Qed.

(** X17: [BlackWhite(r, g, b)], when the weighted sum
    [blue * b + green * g + red * r] of every pixel, computed in [float],
    converts to a [uint8_t]: the headers are kept, and every pixel of the
    result has its three colour components equal to the weighted sum of the
    original pixel, and the alpha of the original pixel. *)
Theorem BlackWhite_greys_every_pixel (self : BMP) (wr wg wb : float) :
  layout_ok self →
  (∀ x y c0, 0 <= x < BMP_width self → 0 <= y < BMP_height self →
     getPixel self x y = mkOut [] (Some c0) → is_Some (grey_level wr wg wb c0)) →
  ∃ grey,
    result (BlackWhite self wr wg wb) = Some grey
    ∧ set_data grey (data self) = self
    ∧ ∀ x y, 0 <= x < BMP_width self → 0 <= y < BMP_height self →
        ∃ c0 v, getPixel self x y = mkOut [] (Some c0)
                ∧ grey_level wr wg wb c0 = Some v
                ∧ getPixel grey x y = mkOut [] (Some (mkColor v v v (alpha c0))).
Proof.
  intros Hok Hfits. destruct (layout_bounds _ Hok) as (Hch & Hw & Hh & _).
  rewrite BlackWhite_result, for_each_nested.
  set (steps := seqZ 0 (u32 (BMP_height self)) ≫= _).
  assert (∀ ab, ab ∈ steps ↔ 0 <= ab.1 < BMP_height self ∧ 0 <= ab.2 < BMP_width self)
    as Hsteps.
  { intros ab. unfold steps. rewrite elem_of_pairs, !elem_of_seqZ, !u32_id by lia. lia. }
  destruct (BlackWhite_loop self wr wg wb (λ ab : Z * Z, mkPoint ab.2 ab.1) steps Hok)
    with (d := data self) as (d' & E & Hlen & Hpix & _).
  - intros [y x] [??]%Hsteps. by split.
  - apply NoDup_fmap_2.
    + intros [y x] [y' x'] [= -> ->]. done.
    + unfold steps. rewrite !u32_id by lia. apply NoDup_pairs; apply NoDup_seqZ.
  - done.
  - intros [y x] [Hy Hx]%Hsteps. cbn [fst snd] in *.
    pose proof (getPixel_inside self Hok x y Hx Hy) as Hget.
    destruct (pixel_of_is_Some self (data self) (mkPoint x y) Hok eq_refl ltac:(by split))
      as [c0 Hc0].
    pose proof Hc0 as Hc0'. unfold pixel_of in Hc0'. cbn [px py] in Hc0'.
    rewrite Hc0' in Hget.
    destruct (Hfits x y c0 Hx Hy Hget) as [v Hv]. by exists c0, v.
  - cbn [fst snd px py] in E. rewrite E. cbn [mbind option_bind].
    exists (set_data self d'). split; [done|]. split; [apply set_data_back|].
    intros x y Hx Hy.
    destruct (Hpix (y, x)) as (c0 & v & Hc0 & Hv & Hfinal); [apply Hsteps; cbn; lia|].
    cbn [fst snd] in *. exists c0, v.
    rewrite getPixel_set_data, (getPixel_inside self) by (done || lia).
    rewrite Hfinal. unfold pixel_of in Hc0. cbn [px py] in Hc0. by rewrite Hc0.
Qed.

(** ** The pixel data *)

Lemma file_header_with_eq self :
  canonical self →
  file_header_with self (file_size (file_header self)) (offset_data (file_header self))
  = file_header self.
Proof. intros _. unfold file_header_with. by destruct (file_header self). Qed.








(** ** The size of the file *)

Lemma length_file_rows (stride padding : nat) (src : list Z) (m : nat) :
  ∀ k, ((k + m) * stride ≤ length src)%nat →
       length (file_rows stride padding src k m) = (m * (stride + padding))%nat.
Proof.
  induction m as [|m IH]; intros k Hlen; [done|].
  unfold file_rows. cbn [seq]. rewrite bind_cons. fold (file_rows stride padding src (S k) m).
  rewrite !length_app, IH, row_length, length_replicate by lia. lia.
Qed.

Lemma length_pixel_bytes self :
  valid_image self →
  Z.of_nat (length (pixel_bytes self))
  = BMP_height self * (BMP_width self * channels self + row_padding self).
Proof.
  intros Hv. destruct (valid_image_facts self Hv) as (Hch & Hw & Hh & Hlt & Hlen & Hbc).
  pose proof (row_padding_range self) as Hpad.
  destruct (Z.eq_dec (BMP_width self mod 4) 0) as [E4|E4].
  - unfold pixel_bytes. rewrite E4, orb_true_r, row_padding_aligned by auto. lia.
  - rewrite pixel_bytes_rows, length_file_rows by (done || nia). nia.
Qed.


(** ** Encoding what was decoded *)

Lemma valid_image_reread junk self : valid_image self → valid_image (reread junk self).
Proof.
  intros (Hok & Hrange & Hcan). split; [done|]. split; [done|].
  destruct Hcan as (?&?&?&?&?&?&?). unfold canonical. repeat split; try done.
  intros E E4. cbn. change (BMP_width (reread junk self)) with (BMP_width self) in *.
  rewrite (proj2 (Z.eqb_neq _ 0) E4). change (channels (reread junk self)) with (channels self) in E.
  by rewrite E.
Qed.

(** X23: Encoding a valid image whose [width * height * bit_count] fits in
    [int], decoding the bytes and encoding the decoded image gives the same
    bytes again; the decoded image is valid. *)
Theorem Encode_Decode_Encode (image : BMP) (junk : Z) :
  valid_image image → size_fits_int image →
  ∃ bytes decoded,
    Encode image = mkOut [] (Some bytes)
    ∧ result (Decode junk bytes) = Some decoded
    ∧ valid_image decoded
    ∧ Encode decoded = mkOut [] (Some bytes).
Proof.
  intros Hv Hfit. exists (headers_bytes image ++ pixel_bytes image), (reread junk image).
  split; [by apply Encode_valid|]. split; [by rewrite Decode_valid|].
  split; [by apply valid_image_reread|].
  by rewrite Encode_valid by (by apply valid_image_reread).
Qed.

(** ** A new image and its file *)

(** X24: An image built by [BMP(width, height, has_alpha)] with positive
    dimensions, and its size within [int], is valid, has the dimensions and
    channels asked for, and is written as a file of
    [54 + height * padded row] bytes (138 instead of 54 with alpha), which
    is the [file_size] of its header. *)
Theorem BMP_new_encodes (w h : Z) (has_alpha : bool) :
  0 < w → 0 < h → w * h * (if has_alpha then 32 else 24) < 2 ^ 31 →
  let ch := if has_alpha then 4 else 3 in
  ∃ img bytes,
    BMP_new w h has_alpha = mkOut [] (Some img)
    ∧ valid_image img
    ∧ BMP_width img = w ∧ BMP_height img = h ∧ Channels img = ch
    ∧ Encode img = mkOut [] (Some bytes)
    ∧ Z.of_nat (length bytes) = file_size (file_header img)
    ∧ file_size (file_header img)
      = (if has_alpha then 138 else 54) + h * (w * ch + (- (w * ch)) mod 4).
Proof.
  intros Hw Hh Hlt ch.
  destruct (BMP_new_valid w h has_alpha Hw Hh Hlt) as (img & Hnew & Hv & Hfit).
  destruct (BMP_new_data w h has_alpha) as (img' & Hres & _ & Hbw & Hbh & Hbc).
  rewrite Hnew in Hres. injection Hres as <-.
  pose proof (headers_length img Hv) as Hhdr.
  pose proof (length_pixel_bytes img Hv) as Hpix.
  destruct (valid_image_facts img Hv) as (_ & _ & _ & _ & Hlen & _).
  pose proof (size_fits_int_bytes img Hv Hfit) as Hsz.
  pose proof (row_padding_range img) as Hpad.
  pose proof Hv as (_ & _ & Hcan). destruct Hcan as (_ & _ & Hoffset & _ & Hfs & _).
  assert (offset_data (file_header img) = if has_alpha then 138 else 54) as Hoff.
  { rewrite Hoffset, Hbc. by destruct has_alpha. }
  assert (row_padding img = (- (w * ch)) mod 4) as Hrp
    by (unfold row_padding; by rewrite Hbw, Hbc).
  assert (file_size (file_header img)
          = (if has_alpha then 138 else 54) + h * (w * ch + (- (w * ch)) mod 4)) as Hsize.
  { rewrite Hfs, <- Hoffset, Hoff, Hlen, Hrp, Hbw, Hbh, Hbc.
    rewrite Hbw, Hbh, Hbc in Hsz. rewrite Hrp in Hpad. fold ch in Hsz, Hpad |- *.
    rewrite u32_id by (destruct has_alpha; nia). lia. }
  exists img, (headers_bytes img ++ pixel_bytes img).
  split; [done|]. split; [done|]. split; [done|]. split; [done|]. split; [done|].
  split; [by apply Encode_valid|]. split; [|done].
  rewrite Hsize, length_app, Hhdr, Hoff. rewrite Nat2Z.inj_add, Hpix, Hbw, Hbh, Hbc, Hrp.
  fold ch. destruct has_alpha; lia.
Qed.

(** ** Files that end before the headers do *)

Lemma read_data_failed junk fh ch file pos :
  read_data (BMP_init junk) fh BMPInfoHeader_init ch (mkIfstream file pos false)
  = mkOut [] (Some (mkBMP (mkFileHeader (file_type fh) 54 (reserved1 fh) (reserved2 fh) 54)
                          (mkInfoHeader 40 0 0 1 0 0 0 0 0 0 0) ch [] 0 0)).
Proof. reflexivity. Qed.

(** X25: A file shorter than the 14 bytes of the file header: no read
    succeeds, and [read] returns an empty image (info header at its
    defaults, no pixel, 0 channels) without throwing; the only possible
    message is the one about the file format. *)
Theorem Decode_short_file (junk : Z) (bytes : list Z) :
  (length bytes < 14)%nat →
  ∃ log decoded,
    Decode junk bytes = mkOut log (Some decoded)
    ∧ (log = [] ∨ log = ["Error! Unrecognized file format.\n"%string])
    ∧ bmp_info_header decoded = mkInfoHeader 40 0 0 1 0 0 0 0 0 0 0
    ∧ data decoded = [] ∧ channels decoded = 0.
Proof.
  intros Hlen. unfold Decode, BMP_open, open_in. rewrite read_unfold. cbn [good].
  unfold stream_read at 1. cbn [good gpos content]. rewrite drop_0.
  rewrite take_ge by (change (Z.to_nat sizeof_BMPFileHeader) with 14%nat; lia).
  rewrite bool_decide_false by (change (Z.to_nat sizeof_BMPFileHeader) with 14%nat; lia).
  cbv beta iota zeta.
  set (fh := BMPFileHeader_of_bytes _).
  rewrite when_bind.
  unfold stream_read at 1. cbn [good]. cbv beta iota zeta.
  change (BMPInfoHeader_of_bytes
            (overlay [] (BMPInfoHeader_bytes (bmp_info_header (BMP_init junk)))))
    with BMPInfoHeader_init.
  change (bit_count BMPInfoHeader_init =? 32) with false. cbv beta iota zeta.
  rewrite Out_bind_ret, read_data_failed. cbn [cerr result]. rewrite app_nil_r.
  eexists _, _. split; [reflexivity|]. split; [destruct (negb _); auto|done].
Qed.

(** ** Circles *)

Lemma drawCircle_while_spec (cx cy R : Z) (fuel : nat) :
  0 <= R < 2 ^ 15 → R <= cx → cx + R < 2 ^ 31 → R <= cy → cy + R < 2 ^ 31 →
  ∀ x d r,
    0 <= x <= R → -1 <= r <= R →
    d = (x + 1) * (x + 1) + (r - 1) * (r - 1) - R * R →
    (0 <= r → d <= 3 * x + 2 ∧ 1 <= d + 3 * r) →
    (r + 1) + (R - x) <= Z.of_nat fuel →
    ∃ calls, drawCircle_while fuel cx cy x d r = Some calls
           ∧ Forall (near_circle cx cy R) calls.
Proof.
  intros HR Hcx Hcx' Hcy Hcy'.
  induction fuel as [|fuel IH]; intros x d r Hx Hr Hd Hinv Hfuel.
  - cbn [drawCircle_while]. destruct (Z.geb_spec r 0); [lia|]. by exists [].
  - cbn [drawCircle_while]. destruct (Z.geb_spec r 0) as [Hr0|Hr0]; [|by exists [] ].
    destruct (Hinv Hr0) as [HA HB].
    assert (- 2 ^ 30 < d < 2 ^ 30) as Hdr by lia.
    unfold adds32 at 1. rewrite (s32_id (d + r)) by lia.
    set (r1 := if d + r >? 0 then r - 1 else r).
    set (d1 := if d + r >? 0 then d - (2 * (r - 1) - 1) else d).
    assert ((if d + r >? 0
             then (subs32 r 1, subs32 d (subs32 (muls32 (subs32 r 1) 2) 1))
             else (r, d)) = (r1, d1)) as ->.
    { unfold r1, d1. destruct (d + r >? 0); [|done].
      unfold subs32, muls32. rewrite (s32_id (r - 1)) by lia.
      rewrite (s32_id ((r - 1) * 2)) by lia. rewrite (s32_id (_ - 1)) by lia.
      rewrite s32_id by lia. do 2 f_equal; lia. }
    assert (-1 <= r1 <= R ∧ d1 = (x + 1) * (x + 1) + (r1 - 1) * (r1 - 1) - R * R) as [Hr1 Hd1].
    { unfold r1, d1. destruct (Z.gtb_spec (d + r) 0); split; lia. }
    assert (- 2 ^ 30 < d1 < 2 ^ 30) as Hdr1
      by (unfold d1; destruct (d + r >? 0); lia).
    set (x2 := if x >? d1 then x + 1 else x).
    set (d2 := if x >? d1 then d1 + (2 * (x + 1) + 1) else d1).
    assert ((if x >? d1
             then (adds32 x 1, adds32 d1 (adds32 (muls32 (adds32 x 1) 2) 1))
             else (x, d1)) = (x2, d2)) as ->.
    { unfold x2, d2. destruct (x >? d1); [|done].
      unfold adds32, muls32. rewrite (s32_id (x + 1)) by lia.
      rewrite (s32_id ((x + 1) * 2)) by lia. rewrite (s32_id (_ + 1)) by lia.
      rewrite s32_id by lia. do 2 f_equal; lia. }
    assert (0 <= x2 <= R ∧ d2 = (x2 + 1) * (x2 + 1) + (r1 - 1) * (r1 - 1) - R * R) as [Hx2 Hd2].
    { pose proof (Z.square_nonneg (r1 - 1)).
      unfold x2, d2. destruct (Z.gtb_spec x d1); split; try lia.
      destruct (decide (x = R)) as [->|]; lia. }
    assert (r1 + 1 + (R - x2) < r + 1 + (R - x)) as Hless.
    { assert (x <= x2) by (unfold x2; destruct (x >? d1); lia).
      unfold r1, d1 in *. destruct (Z.gtb_spec (d + r) 0); [lia|].
      unfold x2. destruct (Z.gtb_spec x d); [lia|].
      assert (x = 0 ∧ r = 0 ∧ d = 0) as (-> & -> & ->) by lia.
      exfalso. destruct (decide (R <= 1)).
      - assert (R = 0 ∨ R = 1) as [-> | ->] by lia; lia.
      - assert (2 * R <= R * R) by nia. lia. }
    destruct (IH x2 d2 r1 Hx2 Hr1 Hd2) as (rest & -> & Hrest); [|lia|].
    { intros Hr1'. unfold x2, d2, r1, d1 in *.
      destruct (Z.gtb_spec (d + r) 0).
      - destruct (Z.gtb_spec x (d - (2 * (r - 1) - 1))); [lia|]. split; [|lia].
        destruct (decide (r = 1)) as [->|]; [nia|lia].
      - destruct (Z.gtb_spec x d); lia. }
    cbn [mbind option_bind]. eexists. split; [done|].
    apply Forall_app. split; [|done].
    assert (near_circle cx cy R (mkPoint (cx + x) (cy + r))
            ∧ near_circle cx cy R (mkPoint (cx + x) (cy - r))
            ∧ near_circle cx cy R (mkPoint (cx - x) (cy + r))
            ∧ near_circle cx cy R (mkPoint (cx - x) (cy - r))) as (?&?&?&?).
    { unfold near_circle. cbn [px py].
      replace (cx + x - cx) with x by lia. replace (cy + r - cy) with r by lia.
      replace (cx - x - cx) with (- x) by lia. replace (cy - r - cy) with (- r) by lia.
      rewrite !Z.abs_opp, !(Z.abs_eq x), !(Z.abs_eq r) by lia.
      repeat split; nia. }
    unfold add32, sub32. rewrite (u32_id x), (u32_id r) by lia.
    rewrite !u32_id by lia.
    repeat (apply Forall_cons_2; [done|]). apply Forall_nil_2.
Qed.

Lemma drawCircle_while_head fuel cx cy x d r calls :
  0 <= r → drawCircle_while fuel cx cy x d r = Some calls →
  ∃ rest, calls
          = mkPoint (add32 cx (u32 x)) (add32 cy (u32 r))
            :: mkPoint (add32 cx (u32 x)) (sub32 cy (u32 r)) :: rest.
Proof.
  intros Hr. destruct fuel as [|fuel]; cbn [drawCircle_while];
    destruct (Z.geb_spec r 0); try lia; [done|].
  destruct (if adds32 d r >? 0 then _ else _) as [r1 d1].
  destruct (if x >? d1 then _ else _) as [x2 d2].
  destruct (drawCircle_while fuel cx cy x2 d2 r1) as [rest|]; [|done].
  cbn. intros [= <-]. eauto.
Qed.

Lemma drawCircle_calls_spec (cx cy R : Z) :
  0 <= R < 2 ^ 15 → R <= cx → cx + R < 2 ^ 31 → R <= cy → cy + R < 2 ^ 31 →
  ∃ rest,
    drawCircle_calls cx cy R = Some (mkPoint cx (cy + R) :: mkPoint cx (cy - R) :: rest)
    ∧ Forall (near_circle cx cy R) (mkPoint cx (cy + R) :: mkPoint cx (cy - R) :: rest).
Proof.
  intros HR Hcx Hcx' Hcy Hcy'. unfold drawCircle_calls.
  unfold subs32, muls32. rewrite (s32_id (1 - R)), s32_id by lia.
  destruct (drawCircle_while_spec cx cy R (Z.to_nat (2 * R + 2)) HR Hcx Hcx' Hcy Hcy'
              0 ((1 - R) * 2) R) as (calls & Hcalls & Hnear); try lia.
  destruct (drawCircle_while_head _ _ _ _ _ _ _ (proj1 HR) Hcalls) as (rest & ->).
  unfold add32, sub32 in *. rewrite (u32_id 0), (u32_id R) in * by lia.
  rewrite Z.add_0_r, !u32_id in * by lia. eauto.
Qed.

Lemma drawCircle_inside self cx cy R c :
  layout_ok self → 0 <= R →
  R <= cx → cx + R < BMP_width self → R <= cy → cy + R < BMP_height self →
  ∃ d, drawCircle self cx cy R c = mkOut [] (Some (set_data self d))
     ∧ length d = length (data self).
Proof.
  intros Hok HR Hcx Hcx' Hcy Hcy'.
  destruct (layout_bounds _ Hok) as (Hch & Hw & Hh & Hwh & Hlt & _).
  assert (R < 2 ^ 15) as HR' by nia.
  destruct (drawCircle_calls_spec cx cy R) as (rest & Hcalls & Hnear); [lia..|].
  set (calls := _ :: _ :: rest) in *.
  assert (Forall (inside self) calls) as Hin.
  { eapply Forall_impl; [|exact Hnear]. intros p (Hx & Hy & _). unfold inside. lia. }
  destruct (draw_all_inside self c calls Hok Hin) as (d & Hdraw & Hlen & _).
  exists d. split; [|done]. unfold drawCircle. by rewrite Hcalls.
Qed.

(** X26: [drawCircle] with the circle inside the image ends, prints nothing and
    keeps the headers; the two poles [(x_center, y_center + radius)] and
    [(x_center, y_center - radius)] get the colour [c]; every pixel keeps
    its colour or gets [c], and those that change are near the circle:
    within [radius] of the centre along both axes, with
    [dx * dx + dy * dy - radius * radius] between [-(2 dx + dy + 1)] and [dx + 2 dy]. *)
Theorem drawCircle_draws_near_circle (self : BMP) (x_center y_center radius : Z) (c : Color) :
  layout_ok self → 0 <= radius →
  radius <= x_center → x_center + radius < BMP_width self →
  radius <= y_center → y_center + radius < BMP_height self →
  ∃ drawn,
    drawCircle self x_center y_center radius c = mkOut [] (Some drawn)
    ∧ set_data drawn (data self) = self
    ∧ getPixel drawn x_center (y_center + radius) = mkOut [] (Some (stored self c))
    ∧ getPixel drawn x_center (y_center - radius) = mkOut [] (Some (stored self c))
    ∧ ∀ x y, 0 <= x < BMP_width self → 0 <= y < BMP_height self →
        getPixel drawn x y = getPixel self x y
        ∨ (getPixel drawn x y = mkOut [] (Some (stored self c))
           ∧ near_circle x_center y_center radius (mkPoint x y)).
Proof.
  intros Hok HR Hcx Hcx' Hcy Hcy'.
  destruct (layout_bounds _ Hok) as (Hch & Hw & Hh & Hwh & Hlt & _).
  assert (radius < 2 ^ 15) as HR' by nia.
  destruct (drawCircle_calls_spec x_center y_center radius) as (rest & Hcalls & Hnear);
    [lia..|].
  set (calls := _ :: _ :: rest) in *.
  assert (Forall (inside self) calls) as Hin.
  { eapply Forall_impl; [|exact Hnear]. intros p (Hx & Hy & _). unfold inside. lia. }
  destruct (draw_all_getPixel self c calls Hok Hin) as (drawn & Hdraw & Hback & _ & Hpix).
  exists drawn. split; [|split; [done|split; [|split] ] ].
  - unfold drawCircle. by rewrite Hcalls.
  - rewrite Hpix by lia. rewrite decide_True; [done|]. by left.
  - rewrite Hpix by lia. rewrite decide_True; [done|]. right. by left.
  - intros x y Hx Hy. rewrite Hpix by done.
    destruct (decide (mkPoint x y ∈ calls)) as [Hel|Hel]; [right|by left].
    split; [done|]. rewrite Forall_forall in Hnear. by apply Hnear, list_elem_of_In.
Qed.

(** ** Editing keeps an image valid *)

(** X27: The editing operations keep an image valid, so that it can still be
    written and read back: [setPixel] inside the image, [clear], [FlipX],
    [FlipY], and [drawLine], [drawRegion] and [drawCircle] with their
    figure inside the image. *)
Theorem editing_preserves_validity (self : BMP) :
  valid_image self →
  (∀ x y c, 0 <= x < BMP_width self → 0 <= y < BMP_height self →
     ∃ self', setPixel self x y c = mkOut [] (Some self') ∧ valid_image self')
  ∧ (∀ v, valid_image (clear self v))
  ∧ (∃ self', FlipX self = Some self' ∧ valid_image self')
  ∧ (∃ self', FlipY self = Some self' ∧ valid_image self')
  ∧ (∀ x1 y1 x2 y2 c, inside self (mkPoint x1 y1) → inside self (mkPoint x2 y2) →
       ∃ self', drawLine self x1 y1 x2 y2 c = mkOut [] (Some self') ∧ valid_image self')
  ∧ (∀ x y w h c, 0 <= x → 0 <= y → 0 <= w → 0 <= h →
       x + w <= BMP_width self → y + h <= BMP_height self →
       ∃ self', drawRegion self x y w h c = mkOut [] (Some self') ∧ valid_image self')
  ∧ (∀ x_center y_center radius c, 0 <= radius →
       radius <= x_center → x_center + radius < BMP_width self →
       radius <= y_center → y_center + radius < BMP_height self →
       ∃ self', drawCircle self x_center y_center radius c = mkOut [] (Some self')
              ∧ valid_image self').
Proof.
  intros Hv. pose proof Hv as (Hok & _).
  split; [|split; [|split; [|split; [|split; [|split] ] ] ] ].
  - intros x y c Hx Hy.
    destruct (setPixel_pixel_of self (mkPoint x y) c Hok) as (d & Hset & Hlen & _);
      [by split|].
    exists (set_data self d). split; [done|]. by apply valid_image_set_data.
  - intros v. apply valid_image_set_data; [done|apply length_replicate].
  - destruct (FlipX_pixels self Hok) as (d & E & Hlen & _).
    exists (set_data self d). split; [done|]. by apply valid_image_set_data.
  - destruct (FlipY_pixels self Hok) as (d & E & Hlen & _).
    exists (set_data self d). split; [done|]. by apply valid_image_set_data.
  - intros x1 y1 x2 y2 c Hp1 Hp2.
    destruct (drawLine_inside self x1 y1 x2 y2 c Hok Hp1 Hp2) as (calls & d & _ & E & Hlen & _).
    exists (set_data self d). split; [done|]. by apply valid_image_set_data.
  - intros x y w h c Hx Hy Hw Hh Hxw Hyh.
    destruct (draw_all_inside self c (region_calls x y w h) Hok) as (d & E & Hlen & _).
    { by apply region_calls_inside. }
    exists (set_data self d). split; [done|]. by apply valid_image_set_data.
  - intros cx cy R c HR Hcx Hcx' Hcy Hcy'.
    destruct (drawCircle_inside self cx cy R c Hok HR Hcx Hcx' Hcy Hcy')
      as (d & E & Hlen).
    exists (set_data self d). split; [done|]. by apply valid_image_set_data.
Qed.


(** * The theorems at concrete inputs *)

Lemma getPixel_after_setPixel_witness :
  layout_ok two_by_two ∧ 0 <= 1 < BMP_width two_by_two ∧ 0 <= 1 < BMP_height two_by_two
  ∧ ∃ self',
      setPixel two_by_two 1 1 (mkColor 9 8 7 6) = mkOut [] (Some self')
      ∧ getPixel self' 1 1 = mkOut [] (Some (mkColor 9 8 7 6)).
Proof.
  assert (layout_ok two_by_two) as Hok by (unfold layout_ok; cbn; repeat split; lia).
  split; [exact Hok|]. split; [cbn; lia|]. split; [cbn; lia|].
  apply (getPixel_after_setPixel two_by_two 1 1 (mkColor 9 8 7 6) Hok); cbn; lia.
Defined.

Lemma flips_are_involutions_witness :
  layout_ok two_by_two
  ∧ (∃ flipped, FlipX two_by_two = Some flipped ∧ FlipX flipped = Some two_by_two)
  ∧ (∃ flipped, FlipY two_by_two = Some flipped ∧ FlipY flipped = Some two_by_two).
Proof.
  assert (layout_ok two_by_two) as Hok by (unfold layout_ok; cbn; repeat split; lia).
  split; [exact Hok|]. exact (flips_are_involutions two_by_two Hok).
Defined.

Lemma drawLine_axis_aligned_witness :
  layout_ok canvas
  ∧ axis_calls true 0 5 0
    = Some [mkPoint 0 0; mkPoint 1 0; mkPoint 2 0; mkPoint 3 0; mkPoint 4 0]
  ∧ ∃ drawn,
      drawLine canvas 0 0 5 0 (mkColor 30 20 10 255) = mkOut [] (Some drawn)
      ∧ set_data drawn (data canvas) = canvas
      ∧ ∀ q, inside canvas q →
          (on_segment true 0 5 0 q →
           getPixel drawn (px q) (py q) = mkOut [] (Some (mkColor 30 20 10 255)))
          ∧ (¬ on_segment true 0 5 0 q →
             getPixel drawn (px q) (py q) = getPixel canvas (px q) (py q)).
Proof.
  assert (layout_ok canvas) as Hok by (unfold layout_ok; cbn; repeat split; lia).
  split; [exact Hok|].
  apply (drawLine_axis_aligned canvas true 0 5 0 (mkColor 30 20 10 255) Hok); cbn; lia.
Defined.

Lemma drawLine_general_witness :
  layout_ok canvas
  ∧ ∃ calls drawn,
      drawLine_calls 0 0 5 1 = Some calls
      ∧ px <$> calls = [0; 1; 2; 3; 4; 5]
      ∧ count_occ Point_eq_dec calls (mkPoint 0 0) = 1%nat
      ∧ count_occ Point_eq_dec calls (mkPoint 5 1) = 1%nat
      ∧ drawLine canvas 0 0 5 1 (mkColor 30 20 10 255) = mkOut [] (Some drawn)
      ∧ getPixel drawn 0 0 = mkOut [] (Some (mkColor 30 20 10 255))
      ∧ getPixel drawn 5 1 = mkOut [] (Some (mkColor 30 20 10 255)).
Proof.
  assert (layout_ok canvas) as Hok by (unfold layout_ok; cbn; repeat split; lia).
  split; [exact Hok|].
  apply (drawLine_general canvas 0 0 5 1 (mkColor 30 20 10 255) Hok);
    try (split; cbn; lia); lia.
Defined.

Lemma BMP_new_zero_buffer_witness :
  (∃ img, BMP_new 2 2 true = mkOut [] (Some img)
        ∧ data img = [0; 0; 0; 0; 0; 0; 0; 0; 0; 0; 0; 0; 0; 0; 0; 0])
  ∧ (∃ img, BMP_new 2 2 false = mkOut [] (Some img)
          ∧ data img = [0; 0; 0; 0; 0; 0; 0; 0; 0; 0; 0; 0]).
Proof.
  destruct (BMP_new_zero_buffer 2 2) as [Halpha Hplain]; [lia..|].
  split; [apply Halpha; lia|apply Hplain; lia].
Defined.

Lemma Decode_Encode_roundtrip_witness :
  valid_image one_pixel
  ∧ ∃ bytes decoded,
      Encode one_pixel = mkOut [] (Some bytes)
      ∧ result (Decode 0 bytes) = Some decoded
      ∧ cerr (Decode 0 bytes) = []
      ∧ file_header decoded = file_header one_pixel
      ∧ bmp_info_header decoded = bmp_info_header one_pixel
      ∧ bmp_color_header decoded = bmp_color_header one_pixel
      ∧ data decoded = data one_pixel
      ∧ channels decoded = channels one_pixel.
Proof.
  assert (valid_image one_pixel) as Hv.
  { unfold valid_image, layout_ok, fields_in_range, canonical, is_u16, is_u32, is_s32.
    cbn. repeat split; try lia; try reflexivity; try (intros; reflexivity).
    repeat constructor; lia. }
  split; [exact Hv|].
  apply (Decode_Encode_roundtrip one_pixel 0 Hv). cbn. lia.
Defined.

Lemma two_by_two_layout : layout_ok two_by_two.
Proof. unfold layout_ok; cbn; repeat split; lia. Qed.

Lemma canvas_layout : layout_ok canvas.
Proof. unfold layout_ok; cbn; repeat split; lia. Qed.

Lemma board_layout : layout_ok board.
Proof. unfold layout_ok; cbn; repeat split; lia. Qed.

Lemma one_pixel_valid : valid_image one_pixel.
Proof.
  unfold valid_image, layout_ok, fields_in_range, canonical, is_u16, is_u32, is_s32.
  cbn. repeat split; try lia; try reflexivity; try (intros; reflexivity).
  repeat constructor; lia.
Qed.

Lemma canvas_valid : valid_image canvas.
Proof.
  unfold valid_image, layout_ok, fields_in_range, canonical, is_u16, is_u32, is_s32.
  cbn. repeat split; try lia; try reflexivity; try (intros; reflexivity).
  repeat constructor; lia.
Qed.


Lemma make_stride_aligned_least_multiple_witness :
  ∃ new_stride,
    make_stride_aligned 9 4 = Some new_stride
    ∧ 9 <= new_stride < 9 + 4
    ∧ new_stride mod 4 = 0
    ∧ ∀ m, 9 <= m → m mod 4 = 0 → new_stride <= m.
Proof. apply (make_stride_aligned_least_multiple 9 4); lia. Defined.

Lemma setPixel_twice_witness :
  setPixel two_by_two 0 0 (mkColor 1 2 3 4) ≫= (λ self', setPixel self' 1 1 (mkColor 5 6 7 8))
  = if decide (1 = 0 ∧ 1 = 0) then setPixel two_by_two 0 0 (mkColor 5 6 7 8)
    else setPixel two_by_two 1 1 (mkColor 5 6 7 8)
         ≫= (λ self', setPixel self' 0 0 (mkColor 1 2 3 4)).
Proof.
  apply (setPixel_twice two_by_two 0 0 1 1 (mkColor 1 2 3 4) (mkColor 5 6 7 8)
           two_by_two_layout); cbn; lia.
Defined.

Lemma setPixel_changes_one_pixel_witness :
  ∃ self',
    setPixel two_by_two 1 1 (mkColor 9 8 7 6) = mkOut [] (Some self')
    ∧ set_data self' (data two_by_two) = two_by_two
    ∧ length (data self') = length (data two_by_two)
    ∧ ∀ x' y', 0 <= x' < BMP_width two_by_two → 0 <= y' < BMP_height two_by_two →
        ¬ (x' = 1 ∧ y' = 1) →
        getPixel self' x' y' = getPixel two_by_two x' y'.
Proof.
  apply (setPixel_changes_one_pixel two_by_two 1 1 (mkColor 9 8 7 6) two_by_two_layout);
    cbn; lia.
Defined.

Lemma pixel_access_beyond_row_witness :
  ∃ self', setPixel two_by_two 0 1 (mkColor 9 8 7 6) = mkOut [] (Some self')
         ∧ setPixel two_by_two 2 0 (mkColor 9 8 7 6) = mkOut [] (Some self').
Proof.
  destruct (pixel_access_beyond_row two_by_two 2 0 (mkColor 9 8 7 6) two_by_two_layout)
    as (_ & Hset & _); [lia|lia|cbn; lia|].
  exact Hset.
Defined.


Lemma getPixel_after_clear_witness :
  layout_ok (clear two_by_two 7)
  ∧ set_data (clear two_by_two 7) (data two_by_two) = two_by_two
  ∧ getPixel (clear two_by_two 7) 1 0 = mkOut [] (Some (mkColor 7 7 7 7)).
Proof.
  apply (getPixel_after_clear two_by_two 7 1 0 two_by_two_layout); cbn; lia.
Defined.

Lemma drawRegion_fills_rectangle_witness :
  ∃ drawn,
    drawRegion canvas 1 0 3 2 (mkColor 30 20 10 255) = mkOut [] (Some drawn)
    ∧ set_data drawn (data canvas) = canvas
    ∧ ∀ x' y', 0 <= x' < BMP_width canvas → 0 <= y' < BMP_height canvas →
        getPixel drawn x' y'
        = if decide (1 <= x' < 1 + 3 ∧ 0 <= y' < 0 + 2)
          then mkOut [] (Some (stored canvas (mkColor 30 20 10 255)))
          else getPixel canvas x' y'.
Proof.
  apply (drawRegion_fills_rectangle canvas 1 0 3 2 (mkColor 30 20 10 255) canvas_layout);
    cbn; lia.
Defined.

Lemma eraseRegion_clears_rectangle_witness :
  ∃ erased,
    eraseRegion two_by_two 0 0 1 2 = mkOut [] (Some erased)
    ∧ set_data erased (data two_by_two) = two_by_two
    ∧ ∀ x' y', 0 <= x' < BMP_width two_by_two → 0 <= y' < BMP_height two_by_two →
        getPixel erased x' y'
        = if decide (0 <= x' < 0 + 1 ∧ 0 <= y' < 0 + 2)
          then mkOut [] (Some (mkColor 0 0 0 0))
          else getPixel two_by_two x' y'.
Proof.
  apply (eraseRegion_clears_rectangle two_by_two 0 0 1 2 two_by_two_layout);
    (reflexivity || (cbn; lia)).
Defined.

Lemma erasePixel_is_unit_region_witness :
  erasePixel two_by_two 1 1 = eraseRegion two_by_two 1 1 1 1.
Proof. apply (erasePixel_is_unit_region two_by_two 1 1); lia. Defined.

Lemma drawLine_stays_in_bounding_box_witness :
  ∃ drawn,
    drawLine canvas 0 0 5 1 (mkColor 30 20 10 255) = mkOut [] (Some drawn)
    ∧ set_data drawn (data canvas) = canvas
    ∧ length (data drawn) = length (data canvas)
    ∧ ∀ x y, 0 <= x < BMP_width canvas → 0 <= y < BMP_height canvas →
        (getPixel drawn x y = getPixel canvas x y
         ∨ getPixel drawn x y = mkOut [] (Some (stored canvas (mkColor 30 20 10 255))))
        ∧ (¬ in_box [mkPoint 0 0; mkPoint 5 1] (mkPoint x y) →
           getPixel drawn x y = getPixel canvas x y).
Proof.
  apply (drawLine_stays_in_bounding_box canvas 0 0 5 1 (mkColor 30 20 10 255) canvas_layout);
    split; cbn; lia.
Defined.

Lemma drawTriangle_stays_in_bounding_box_witness :
  ∃ drawn,
    drawTriangle canvas 0 0 5 1 7 0 (mkColor 30 20 10 255) = mkOut [] (Some drawn)
    ∧ set_data drawn (data canvas) = canvas
    ∧ length (data drawn) = length (data canvas)
    ∧ ∀ x y, 0 <= x < BMP_width canvas → 0 <= y < BMP_height canvas →
        (getPixel drawn x y = getPixel canvas x y
         ∨ getPixel drawn x y = mkOut [] (Some (stored canvas (mkColor 30 20 10 255))))
        ∧ (¬ in_box [mkPoint 0 0; mkPoint 5 1; mkPoint 7 0] (mkPoint x y) →
           getPixel drawn x y = getPixel canvas x y).
Proof.
  apply (drawTriangle_stays_in_bounding_box canvas 0 0 5 1 7 0 (mkColor 30 20 10 255)
           canvas_layout); split; cbn; lia.
Defined.

Lemma FlipX_mirrors_columns_witness :
  ∃ flipped,
    FlipX two_by_two = Some flipped
    ∧ set_data flipped (data two_by_two) = two_by_two
    ∧ ∀ x y, 0 <= x < BMP_width two_by_two → 0 <= y < BMP_height two_by_two →
        getPixel flipped x y = getPixel two_by_two (BMP_width two_by_two - 1 - x) y.
Proof. exact (FlipX_mirrors_columns two_by_two two_by_two_layout). Defined.

Lemma FlipY_mirrors_rows_witness :
  ∃ flipped,
    FlipY two_by_two = Some flipped
    ∧ set_data flipped (data two_by_two) = two_by_two
    ∧ ∀ x y, 0 <= x < BMP_width two_by_two → 0 <= y < BMP_height two_by_two →
        getPixel flipped x y = getPixel two_by_two x (BMP_height two_by_two - 1 - y).
Proof. exact (FlipY_mirrors_rows two_by_two two_by_two_layout). Defined.

Lemma flips_commute_witness :
  ∃ rotated,
    FlipX two_by_two ≫= FlipY = Some rotated
    ∧ FlipY two_by_two ≫= FlipX = Some rotated
    ∧ set_data rotated (data two_by_two) = two_by_two
    ∧ ∀ x y, 0 <= x < BMP_width two_by_two → 0 <= y < BMP_height two_by_two →
        getPixel rotated x y
        = getPixel two_by_two (BMP_width two_by_two - 1 - x) (BMP_height two_by_two - 1 - y).
Proof. exact (flips_commute two_by_two two_by_two_layout). Defined.

Lemma one_pixel_layout : layout_ok one_pixel.
Proof. unfold layout_ok; cbn; repeat split; lia. Qed.

Lemma BlackWhite_greys_every_pixel_witness :
  ∃ grey,
    result (BlackWhite one_pixel half half half) = Some grey
    ∧ set_data grey (data one_pixel) = one_pixel
    ∧ ∀ x y, 0 <= x < BMP_width one_pixel → 0 <= y < BMP_height one_pixel →
        ∃ c0 v, getPixel one_pixel x y = mkOut [] (Some c0)
                ∧ grey_level half half half c0 = Some v
                ∧ getPixel grey x y = mkOut [] (Some (mkColor v v v (alpha c0))).
Proof.
  apply (BlackWhite_greys_every_pixel one_pixel half half half one_pixel_layout).
  intros x y c0 Hx Hy Hget.
  assert (x = 0) as -> by (cbn in Hx; lia). assert (y = 0) as -> by (cbn in Hy; lia).
  vm_compute in Hget. injection Hget as <-. exists 30. vm_compute. reflexivity.
Defined.

Lemma one_pixel_fits : size_fits_int one_pixel.
Proof. unfold size_fits_int. cbn. lia. Qed.








Lemma Encode_Decode_Encode_witness :
  ∃ bytes decoded,
    Encode one_pixel = mkOut [] (Some bytes)
    ∧ result (Decode 0 bytes) = Some decoded
    ∧ valid_image decoded
    ∧ Encode decoded = mkOut [] (Some bytes).
Proof. exact (Encode_Decode_Encode one_pixel 0 one_pixel_valid one_pixel_fits). Defined.

Lemma BMP_new_encodes_witness :
  ∃ img bytes,
    BMP_new 3 2 false = mkOut [] (Some img)
    ∧ valid_image img
    ∧ BMP_width img = 3 ∧ BMP_height img = 2 ∧ Channels img = 3
    ∧ Encode img = mkOut [] (Some bytes)
    ∧ Z.of_nat (length bytes) = file_size (file_header img)
    ∧ file_size (file_header img) = 54 + 2 * (3 * 3 + (- (3 * 3)) mod 4).
Proof. apply (BMP_new_encodes 3 2 false); lia. Defined.

Lemma Decode_short_file_witness :
  ∃ log decoded,
    Decode 0 [] = mkOut log (Some decoded)
    ∧ (log = [] ∨ log = ["Error! Unrecognized file format.\n"%string])
    ∧ bmp_info_header decoded = mkInfoHeader 40 0 0 1 0 0 0 0 0 0 0
    ∧ data decoded = [] ∧ channels decoded = 0.
Proof. apply (Decode_short_file 0 []). cbn. lia. Defined.

Lemma drawCircle_draws_near_circle_witness :
  ∃ drawn,
    drawCircle board 3 3 2 (mkColor 30 20 10 255) = mkOut [] (Some drawn)
    ∧ set_data drawn (data board) = board
    ∧ getPixel drawn 3 (3 + 2) = mkOut [] (Some (stored board (mkColor 30 20 10 255)))
    ∧ getPixel drawn 3 (3 - 2) = mkOut [] (Some (stored board (mkColor 30 20 10 255)))
    ∧ ∀ x y, 0 <= x < BMP_width board → 0 <= y < BMP_height board →
        getPixel drawn x y = getPixel board x y
        ∨ (getPixel drawn x y = mkOut [] (Some (stored board (mkColor 30 20 10 255)))
           ∧ near_circle 3 3 2 (mkPoint x y)).
Proof.
  apply (drawCircle_draws_near_circle board 3 3 2 (mkColor 30 20 10 255) board_layout);
    cbn; lia.
Defined.

Lemma editing_preserves_validity_witness :
  (∃ self', setPixel canvas 1 1 (mkColor 30 20 10 255) = mkOut [] (Some self')
          ∧ valid_image self')
  ∧ valid_image (clear canvas 7)
  ∧ (∃ self', FlipX canvas = Some self' ∧ valid_image self').
Proof.
  destruct (editing_preserves_validity canvas canvas_valid) as (Hset & Hclear & Hflip & _).
  split; [apply Hset; cbn; lia|]. split; [apply Hclear|exact Hflip].
Defined.
